(** * A verification development for the TRPG game-master service

    The Python sources are embedded shallowly:
    - [agents/gamemaster.py]: [_deep_merge], [process_game_request],
      [_prepare_game_context], [_update_character_info],
      [_handle_character_death], [_handle_error],
      [handle_character_action], [get_memory_stats], [reset_game],
      [clear_memory], [update_game_context], [get_chat_history];
    - [memory/game_memory.py], [memory/vector_memory.py]: the conversation
      memory, the session contexts and the per-game vector stores, with
      their statistics, their reset and the restoring of a store from
      MongoDB;
    - [data/mongo_manager.py]: [add_chat_message], [get_chat_history], the
      template getters, the sessions, the story events, [reset_game_data],
      [get_memory_stats] and [_initialize_default_data];
    - [comfy_manager.py]: [wait_for_completion].

    Python values decoded from JSON are trees ([json]); dictionaries keep
    their insertion order and are association lists with unique keys.
    Dictionary objects that the code mutates in place live in a store
    ([heap]) and are named by their address.  Exceptions are explicit
    ([except]); the external services (language model, HTTP API, Chroma,
    MongoDB, clock) are inputs of the functions that call them. *)

From Stdlib Require Import Floats.PrimFloat Strings.Ascii.
From Stdlib Require Import ZArith QArith Lia Lqa.
From Stdlib Require Import Sorting.Sorted Permutation.
From stdpp Require Import base option list strings gmap fin_maps pretty.

#[local] Set Warnings "-register-all,-clear-no-such-hyp".
Local Open Scope string_scope.
Local Open Scope list_scope.

(* ===================================================================== *)
(** * Python values, dictionaries and exceptions *)
(* ===================================================================== *)

Module Py.

(** A value as [json.loads] or [response.json()] builds it.  Integers are
    unbounded, floats are IEEE binary64, strings are their UTF-8 bytes. *)
Inductive json : Type :=
  | JNull
  | JBool (b : bool)
  | JInt (z : Z)
  | JFloat (f : float)
  | JStr (s : string)
  | JList (l : list json)
  | JDict (d : list (string * json)).

(** The exceptions the modelled code meets.  [InvalidRef] is not a Python
    exception: it marks the use of an address that names no object, which
    only an ill-formed store can provoke. *)
Inductive exn : Type :=
  | AttributeError
  | TypeError
  | KeyError (key : string)
  | IndexError
  | ValueError
  | ValidationError
  | JSONDecodeError (msg : string)
  | RequestException (msg : string) (response_text : option string)
  | OtherException (msg : string)
  | InvalidRef.

Inductive except (A : Type) : Type :=
  | Ok (a : A)
  | Raise (e : exn).
Arguments Ok {A} a.
Arguments Raise {A} e.

#[global] Instance except_ret : MRet except := fun A a => Ok a.
#[global] Instance except_bind : MBind except := fun A B f m =>
  match m with
  | Ok a => f a
  | Raise e => Raise e
  end.

(** ** Insertion-ordered dictionaries *)

Section dict.
Context {V : Type}.

(** [d.get(key)] / [key in d] *)
Fixpoint dict_get (key : string) (d : list (string * V)) : option V :=
  match d with
  | [] => None
  | (k, v) :: rest => if String.eqb k key then Some v else dict_get key rest
  end.

(** [d[key] = value]: an existing key keeps its position, a new key is
    appended. *)
Fixpoint dict_set (key : string) (value : V) (d : list (string * V))
  : list (string * V) :=
  match d with
  | [] => [(key, value)]
  | (k, v) :: rest =>
      if String.eqb k key then (k, value) :: rest
      else (k, v) :: dict_set key value rest
  end.

Definition dict_keys (d : list (string * V)) : list string := map fst d.

Definition dict_has (key : string) (d : list (string * V)) : bool :=
  match dict_get key d with Some _ => true | None => false end.

Lemma dict_get_set_eq key value d :
  dict_get key (dict_set key value d) = Some value.
Proof.
  induction d as [|[k v] rest IH]; simpl.
  - by rewrite String.eqb_refl.
  - destruct (String.eqb k key) eqn:E; simpl; rewrite E; auto.
Qed.

Lemma dict_get_set_ne key key' value d :
  key <> key' -> dict_get key' (dict_set key value d) = dict_get key' d.
Proof.
  intros Hne. induction d as [|[k v] rest IH]; simpl.
  - destruct (String.eqb key key') eqn:E; [|done].
    apply String.eqb_eq in E. contradiction.
  - destruct (String.eqb k key) eqn:E; simpl.
    + apply String.eqb_eq in E. subst k.
      destruct (String.eqb key key') eqn:E'; [|done].
      apply String.eqb_eq in E'. contradiction.
    + by rewrite IH.
Qed.

Lemma dict_get_None key d :
  dict_get key d = None <-> ~ In key (dict_keys d).
Proof.
  induction d as [|[k v] rest IH]; simpl; [tauto|].
  destruct (String.eqb k key) eqn:E.
  - apply String.eqb_eq in E. split; [discriminate | tauto].
  - apply String.eqb_neq in E. rewrite IH. tauto.
Qed.

Lemma dict_get_Some_In key v d :
  dict_get key d = Some v -> In (key, v) d.
Proof.
  induction d as [|[k v'] rest IH]; simpl; [discriminate|].
  destruct (String.eqb k key) eqn:E.
  - apply String.eqb_eq in E. intros [= ->]. subst. by left.
  - intros H. right. auto.
Qed.

Lemma dict_get_In key v d :
  NoDup (dict_keys d) -> In (key, v) d -> dict_get key d = Some v.
Proof.
  induction d as [|[k v'] rest IH]; simpl; [tauto|].
  intros Hnd [H|H].
  - injection H as -> ->. by rewrite String.eqb_refl.
  - apply NoDup_cons in Hnd as [Hk Hnd].
    destruct (String.eqb k key) eqn:E.
    + apply String.eqb_eq in E. subst k. exfalso. apply Hk.
      apply list_elem_of_In. unfold dict_keys.
      apply in_map_iff. by exists (key, v).
    + auto.
Qed.

Lemma dict_keys_set key value d :
  dict_keys (dict_set key value d) =
    if dict_has key d then dict_keys d else dict_keys d ++ [key].
Proof.
  unfold dict_has. induction d as [|[k v] rest IH]; simpl; [done|].
  destruct (String.eqb k key) eqn:E; simpl; [done|].
  rewrite IH. by destruct (dict_get key rest).
Qed.

Lemma dict_set_NoDup key value d :
  NoDup (dict_keys d) -> NoDup (dict_keys (dict_set key value d)).
Proof.
  intros Hnd. rewrite dict_keys_set. unfold dict_has.
  destruct (dict_get key d) eqn:E; [done|].
  apply dict_get_None in E.
  apply NoDup_app. split_and!; [done| |apply NoDup_singleton].
  intros x Hx Hx'. apply list_elem_of_singleton in Hx'. subst x.
  apply E. by apply list_elem_of_In.
Qed.
End dict.

(** ** Operators of the language on JSON values *)

(** [bool(v)] *)
Definition truthy (v : json) : bool :=
  match v with
  | JNull => false
  | JBool b => b
  | JInt z => negb (z =? 0)%Z
  | JFloat f => negb (PrimFloat.eqb f 0%float)
  | JStr s => negb (String.eqb s "")
  | JList l => match l with [] => false | _ => true end
  | JDict d => match d with [] => false | _ => true end
  end.

(** [v <= 0]: defined on numbers, and [bool] is a subtype of [int]. *)
Definition py_le_zero (v : json) : except bool :=
  match v with
  | JInt z => Ok (z <=? 0)%Z
  | JFloat f => Ok (PrimFloat.leb f 0%float)
  | JBool b => Ok (negb b)
  | _ => Raise TypeError
  end.

(** [needle in s] on strings *)
Fixpoint str_contains (needle s : string) : bool :=
  String.prefix needle s ||
  match s with
  | EmptyString => false
  | String _ s' => str_contains needle s'
  end.

(** [key in v] for a string [key] *)
Definition py_contains (key : string) (v : json) : except bool :=
  match v with
  | JDict d => Ok (dict_has key d)
  | JStr s => Ok (str_contains key s)
  | JList l =>
      Ok (existsb (fun x => match x with
                            | JStr s => String.eqb s key
                            | _ => false
                            end) l)
  | _ => Raise TypeError
  end.

(** [v[key]] for a string [key] *)
Definition py_getitem (v : json) (key : string) : except json :=
  match v with
  | JDict d =>
      match dict_get key d with
      | Some x => Ok x
      | None => Raise (KeyError key)
      end
  | _ => Raise TypeError
  end.

(** [v.get(key, default)]: only a dict has the method. *)
Definition py_get (v : json) (key : string) (dflt : json) : except json :=
  match v with
  | JDict d => Ok (default dflt (dict_get key d))
  | _ => Raise AttributeError
  end.

(** [for x in v]: a list yields its elements, a dict its keys, a string
    its characters (here its bytes, one string each). *)
Definition py_iter (v : json) : except (list json) :=
  match v with
  | JList l => Ok l
  | JDict d => Ok (map (fun kv => JStr kv.1) d)
  | JStr s => Ok (map (fun c => JStr (String c "")) (String.list_ascii_of_string s))
  | _ => Raise TypeError
  end.

(** ** The order of strings

    [String.compare] orders strings byte by byte; on UTF-8 text this is
    the order of the code points, which is how Python orders [str]. *)
Lemma ascii_compare_trans a b c r :
  Ascii.compare a b = r -> Ascii.compare b c = r -> Ascii.compare a c = r.
Proof.
  unfold Ascii.compare. destruct r.
  - rewrite !N.compare_eq_iff. congruence.
  - rewrite !N.compare_lt_iff. lia.
  - rewrite !N.compare_gt_iff. lia.
Qed.

Lemma ascii_compare_Eq a b : Ascii.compare a b = Eq -> a = b.
Proof.
  unfold Ascii.compare. rewrite N.compare_eq_iff.
  intros H. rewrite <- (Ascii.ascii_N_embedding a),
    <- (Ascii.ascii_N_embedding b). by rewrite H.
Qed.

Lemma ascii_compare_refl a : Ascii.compare a a = Eq.
Proof. unfold Ascii.compare. apply N.compare_refl. Qed.

Lemma string_compare_refl s : String.compare s s = Eq.
Proof.
  induction s as [|c s IH]; simpl; [done|]. by rewrite ascii_compare_refl.
Qed.

Lemma string_compare_lt_trans s1 s2 s3 :
  String.compare s1 s2 = Lt -> String.compare s2 s3 = Lt ->
  String.compare s1 s3 = Lt.
Proof.
  revert s2 s3. induction s1 as [|c1 s1 IH]; intros [|c2 s2] [|c3 s3];
    simpl; try done.
  destruct (Ascii.compare c1 c2) eqn:E12; try done;
    destruct (Ascii.compare c2 c3) eqn:E23; try done.
  - apply ascii_compare_Eq in E12, E23. subst.
    rewrite ascii_compare_refl. apply IH.
  - apply ascii_compare_Eq in E12. subst. by rewrite E23.
  - apply ascii_compare_Eq in E23. subst. by rewrite E12.
  - by rewrite (ascii_compare_trans _ _ _ _ E12 E23).
Qed.

Lemma string_ltb_trans s1 s2 s3 :
  String.ltb s1 s2 = true -> String.ltb s2 s3 = true ->
  String.ltb s1 s3 = true.
Proof.
  unfold String.ltb. intros H1 H2.
  destruct (String.compare s1 s2) eqn:E1; try done.
  destruct (String.compare s2 s3) eqn:E2; try done.
  by rewrite (string_compare_lt_trans _ _ _ E1 E2).
Qed.

Lemma string_ltb_irrefl s : String.ltb s s = false.
Proof.
  unfold String.ltb. by rewrite string_compare_refl.
Qed.

Lemma string_ltb_total s1 s2 :
  String.ltb s1 s2 = true \/ s1 = s2 \/ String.ltb s2 s1 = true.
Proof.
  unfold String.ltb. rewrite (String.compare_antisym s2 s1).
  destruct (String.compare s1 s2) eqn:E; simpl; auto.
  right. left. by apply String.compare_eq_iff.
Qed.

Lemma string_leb_ltb s1 s2 :
  String.leb s1 s2 = true <-> String.ltb s1 s2 = true \/ s1 = s2.
Proof.
  unfold String.leb, String.ltb.
  destruct (String.compare s1 s2) eqn:E.
  - apply String.compare_eq_iff in E. tauto.
  - tauto.
  - split; [done|]. intros [H|H]; [done|]. subst s2.
    by rewrite string_compare_refl in E.
Qed.

Definition LF : string := String "010"%char "".

(** [sep.join(parts)] *)
Definition join (sep : string) (parts : list string) : string :=
  String.concat sep parts.

Definition byte_is (c : Ascii.ascii) (n : N) : bool :=
  (Ascii.N_of_ascii c =? n)%N.

Definition byte_in (c : Ascii.ascii) (lo hi : N) : bool :=
  ((lo <=? Ascii.N_of_ascii c) && (Ascii.N_of_ascii c <=? hi))%N.

(** [not s.strip()]: [s] is made of whitespace only.  The whitespace
    characters of [str.isspace], in UTF-8: U+0009-000D, U+001C-0020,
    U+0085, U+00A0, U+1680, U+2000-200A, U+2028, U+2029, U+202F, U+205F,
    U+3000. *)
Fixpoint blank (s : string) : bool :=
  match s with
  | EmptyString => true
  | String c rest =>
      if byte_in c 9 13 || byte_in c 28 32 then blank rest
      else
        match rest with
        | String c2 rest2 =>
            if byte_is c 194 then
              (byte_is c2 133 || byte_is c2 160) && blank rest2
            else
              match rest2 with
              | String c3 rest3 =>
                  ((byte_is c 225 && byte_is c2 154 && byte_is c3 128) ||
                   (byte_is c 226 && byte_is c2 128 &&
                      (byte_in c3 128 138 || byte_is c3 168 ||
                       byte_is c3 169 || byte_is c3 175)) ||
                   (byte_is c 226 && byte_is c2 129 && byte_is c3 159) ||
                   (byte_is c 227 && byte_is c2 128 && byte_is c3 128))
                  && blank rest3
              | EmptyString => false
              end
        | EmptyString => false
        end
  end.

Example blank_examples :
  blank "" = true /\ blank (" " +:+ LF) = true /\ blank " x " = false.
Proof. by vm_compute. Qed.

(** [s[:n]]: the first [n] code points of [s].  In UTF-8 a byte between
    128 and 191 continues the code point begun before it, and every other
    byte begins one. *)
Fixpoint py_prefix (n : nat) (s : string) : string :=
  match s with
  | EmptyString => EmptyString
  | String c rest =>
      if byte_in c 128 191 then String c (py_prefix n rest)
      else
        match n with
        | O => EmptyString
        | S n' => String c (py_prefix n' rest)
        end
  end.

Example py_prefix_examples :
  py_prefix 2 "door" = "do" /\ py_prefix 9 "door" = "door" /\
  py_prefix 2 "게임이" = "게임" /\ String.length (py_prefix 2 "게임이") = 6.
Proof. by vm_compute. Qed.

End Py.

(* ===================================================================== *)
(** * [list.sort(key=...)] and [sorted(..., key=...)] *)
(* ===================================================================== *)

(** Python sorts are stable: elements with equal keys keep their order.
    For a total preorder on keys the stably sorted list is unique, so the
    insertion sort below returns the list Python's sort returns. *)
Module PySort.

Section sort.
Context {A : Type} (le : A -> A -> bool).

Fixpoint insert (x : A) (l : list A) : list A :=
  match l with
  | [] => [x]
  | y :: l' => if le x y then x :: y :: l' else y :: insert x l'
  end.

Definition sort (l : list A) : list A := foldr insert [] l.

Definition le_prop (a b : A) : Prop := le a b = true.

Hypothesis le_total : forall a b, le a b = true \/ le b a = true.

Lemma insert_perm x l : Permutation (insert x l) (x :: l).
Proof.
  induction l as [|y l IH]; simpl; [done|].
  destruct (le x y); [done|].
  rewrite IH. apply perm_swap.
Qed.

Lemma sort_perm l : Permutation (sort l) l.
Proof.
  induction l as [|x l IH]; simpl; [done|].
  rewrite insert_perm. by constructor.
Qed.

Lemma sort_length l : length (sort l) = length l.
Proof. apply Permutation_length, sort_perm. Qed.

Lemma insert_sorted x l : Sorted le_prop l -> Sorted le_prop (insert x l).
Proof.
  induction 1 as [|y l Hs IH Hhd]; simpl.
  - repeat constructor.
  - destruct (le x y) eqn:E.
    + constructor; [by constructor|by constructor].
    + constructor; [done|].
      assert (Hyx : le y x = true) by (destruct (le_total x y); congruence).
      destruct l as [|z l]; simpl.
      * by constructor.
      * destruct (le x z); constructor; [done|].
        inversion Hhd. done.
Qed.

Lemma sort_sorted l : Sorted le_prop (sort l).
Proof.
  induction l as [|x l IH]; simpl; [constructor|by apply insert_sorted].
Qed.

Hypothesis le_trans :
  forall a b c, le a b = true -> le b c = true -> le a c = true.

Lemma sort_strongly_sorted l : StronglySorted le_prop (sort l).
Proof.
  apply Sorted_StronglySorted; [|apply sort_sorted].
  intros a b c. apply le_trans.
Qed.

(** In a sorted list every element of a prefix is below every element of
    the rest. *)
Lemma strongly_sorted_split l1 l2 :
  StronglySorted le_prop (l1 ++ l2) ->
  forall a b, In a l1 -> In b l2 -> le a b = true.
Proof.
  induction l1 as [|x l1 IH]; simpl; [done|].
  intros Hs a b [->|Ha] Hb.
  - apply StronglySorted_inv in Hs as [_ Hall].
    rewrite List.Forall_forall in Hall. apply Hall, in_or_app. by right.
  - apply StronglySorted_inv in Hs as [Hs _]. by apply IH.
Qed.
End sort.

End PySort.

(* ===================================================================== *)
(** * [_deep_merge] (agents/gamemaster.py, lines 28-41) *)
(* ===================================================================== *)

Module DeepMerge.
Import Py.

(** ** The store of dictionary objects

    [_deep_merge] reads [source] and writes [destination] in place.  The
    dictionaries reachable from [destination] are objects of a store,
    named by their address; [source] is the decoded JSON value it is
    called with and is only read.  Lists are never opened or changed by
    the merge: a list is stored as the value it is. *)

Abbreviation loc := nat (only parsing).

Inductive hval : Type :=
  | HNull
  | HBool (b : bool)
  | HInt (z : Z)
  | HFloat (f : float)
  | HStr (s : string)
  | HList (l : list json)
  | HRef (l : loc).

Abbreviation hdict := (list (string * hval)) (only parsing).
Abbreviation heap := (list (list (string * hval))) (only parsing).

(** The object stored by [destination[key] = value] for a [value] that is
    not a dict (a dict of [source] is merged, never stored). *)
Definition hval_of (value : json) : hval :=
  match value with
  | JNull => HNull
  | JBool b => HBool b
  | JInt z => HInt z
  | JFloat f => HFloat f
  | JStr s => HStr s
  | JList l => HList l
  | JDict _ => HNull
  end.

(** [destination.setdefault(key, {})]: the value under [key] when there is
    one; otherwise a new empty dict object is stored under [key] and
    returned.  Only dict objects have the method. *)
Definition setdefault (destination : hval) (key : string) (h : heap)
  : except (hval * heap) :=
  match destination with
  | HRef l =>
      match h !! l with
      | Some d =>
          match dict_get key d with
          | Some node => Ok (node, h)
          | None =>
              let l' := length h in
              Ok (HRef l', <[l := dict_set key (HRef l') d]> (h ++ [[]]))
          end
      | None => Raise InvalidRef
      end
  | _ => Raise AttributeError
  end.

(** [destination[key] = value]: only dict objects accept a string key. *)
Definition setitem (destination : hval) (key : string) (value : hval)
  (h : heap) : except heap :=
  match destination with
  | HRef l =>
      match h !! l with
      | Some d => Ok (<[l := dict_set key value d]> h)
      | None => Raise InvalidRef
      end
  | _ => Raise TypeError
  end.

(** The [for key, value in source.items()] loop, over the recursive call. *)
Definition merge_items
  (deep_merge : json -> hval -> heap -> except (hval * heap))
  (destination : hval)
  : list (string * json) -> heap -> except (hval * heap) :=
  fix loop (items : list (string * json)) (h : heap) :=
    match items with
    | [] => Ok (destination, h)
    | (key, value) :: rest =>
        match value with
        | JDict _ =>
            '(node, h1) ← setdefault destination key h;
            '(_, h2) ← deep_merge value node h1;
            loop rest h2
        | JList _ =>
            h1 ← setitem destination key (hval_of value) h;
            loop rest h1
        | _ =>
            h1 ← setitem destination key (hval_of value) h;
            loop rest h1
        end
    end.

Fixpoint _deep_merge (source : json) (destination : hval) (h : heap)
  {struct source} : except (hval * heap) :=
  match source with
  | JDict items => merge_items _deep_merge destination items h
  | _ => Raise AttributeError
  end.

(** ** The merge as the specification words it

    A function on dictionary values: for each key of [source], a dict
    value is merged recursively into [destination]'s value for that key
    (an empty dict when the key is absent), a list replaces it wholesale,
    any other value overwrites it.  Merging a non-empty dict into a value
    that is not a dict is an error. *)
Definition merged_items
  (merged : json -> json -> except json)
  : list (string * json) -> json -> except json :=
  fix each (items : list (string * json)) (destination : json) :=
    match items with
    | [] => Ok destination
    | (key, value) :: rest =>
        match destination, value with
        | JDict d, JDict _ =>
            sub ← merged value (default (JDict []) (dict_get key d));
            each rest (JDict (dict_set key sub d))
        | JDict d, _ => each rest (JDict (dict_set key value d))
        | _, JDict _ => Raise AttributeError
        | _, _ => Raise TypeError
        end
    end.

Fixpoint merged (source destination : json) {struct source} : except json :=
  match source with
  | JDict items => merged_items merged items destination
  | _ => Raise AttributeError
  end.

(** ** Which store holds which dictionary

    [tree h v t F]: in store [h] the value [v] is the JSON value [t], and
    [F] is the set of dict objects it is made of; no object occurs twice
    (the objects come from [json.loads], [response.json()] or
    [copy.deepcopy], which share nothing). *)
Inductive tree (h : heap) : hval -> json -> gset loc -> Prop :=
  | tree_null : tree h HNull JNull ∅
  | tree_bool b : tree h (HBool b) (JBool b) ∅
  | tree_int z : tree h (HInt z) (JInt z) ∅
  | tree_float f : tree h (HFloat f) (JFloat f) ∅
  | tree_str s : tree h (HStr s) (JStr s) ∅
  | tree_list l : tree h (HList l) (JList l) ∅
  | tree_dict l d items F :
      h !! l = Some d -> entries h d items F -> l ∉ F ->
      tree h (HRef l) (JDict items) ({[l]} ∪ F)
with entries (h : heap) : hdict -> list (string * json) -> gset loc -> Prop :=
  | entries_nil : entries h [] [] ∅
  | entries_cons k v t d items F1 F2 :
      tree h v t F1 -> entries h d items F2 -> F1 ## F2 ->
      entries h ((k, v) :: d) ((k, t) :: items) (F1 ∪ F2).

Scheme tree_mut := Minimality for tree Sort Prop
  with entries_mut := Minimality for entries Sort Prop.
Combined Scheme tree_entries_ind from tree_mut, entries_mut.

(** [copy.deepcopy(t)]: the dictionaries of [t] become new objects. *)
Definition alloc_items (alloc : json -> heap -> hval * heap)
  : list (string * json) -> heap -> hdict * heap :=
  fix go (items : list (string * json)) (h : heap) :=
    match items with
    | [] => ([], h)
    | (k, t) :: rest =>
        let '(v, h1) := alloc t h in
        let '(d, h2) := go rest h1 in
        ((k, v) :: d, h2)
    end.

Fixpoint alloc (t : json) (h : heap) {struct t} : hval * heap :=
  match t with
  | JDict items =>
      let '(d, h1) := alloc_items alloc items h in
      (HRef (length h1), h1 ++ [d])
  | _ => (hval_of t, h)
  end.

(** Reading a value back as JSON, as a serializer walks it.  The depth is
    bounded by [fuel]; a walk that needs more than the number of objects
    of the store goes round a cycle. *)
Fixpoint readback (fuel : nat) (h : heap) (v : hval) : option json :=
  match v with
  | HNull => Some JNull
  | HBool b => Some (JBool b)
  | HInt z => Some (JInt z)
  | HFloat f => Some (JFloat f)
  | HStr s => Some (JStr s)
  | HList l => Some (JList l)
  | HRef l =>
      match fuel with
      | O => None
      | S fuel' =>
          d ← h !! l;
          items ← mapM (fun kv => t ← readback fuel' h (snd kv);
                                  Some (fst kv, t)) d;
          Some (JDict items)
      end
  end.

Example merge_example :
  let src := JDict [("health", JInt 3);
                    ("stats", JDict [("str", JInt 9)]);
                    ("inventory", JList [JStr "rope"]);
                    ("pet", JDict [("name", JStr "Rex")])] in
  let '(dst, h) := alloc (JDict [("name", JStr "Ann"); ("health", JInt 10);
                                 ("stats", JDict [("str", JInt 5); ("dex", JInt 7)]);
                                 ("inventory", JList [JStr "sword"])]) [] in
  match _deep_merge src dst h with
  | Ok (r, h') => r = dst /\
      readback 5 h' r =
        Some (JDict [("name", JStr "Ann"); ("health", JInt 3);
                     ("stats", JDict [("str", JInt 9); ("dex", JInt 7)]);
                     ("inventory", JList [JStr "rope"]);
                     ("pet", JDict [("name", JStr "Rex")])])
  | Raise _ => False
  end.
Proof. vm_compute. split; reflexivity. Qed.

Example merge_example_raises :
  let '(dst, h) := alloc (JDict [("stats", JInt 5)]) [] in
  _deep_merge (JDict [("stats", JDict [("str", JInt 9)])]) dst h
  = Raise TypeError.
Proof. reflexivity. Qed.

(** ** Facts on stores and trees *)

(** What a merge may do to a store: objects are only added; an old object
    outside the footprint [F] is untouched; the new footprint [F'] is made
    of old footprint objects and of new objects. *)
Definition preserves (h h' : heap) (F F' : gset loc) : Prop :=
  length h <= length h' /\
  (forall x, x < length h -> x ∉ F -> h' !! x = h !! x) /\
  (forall x, x ∈ F' -> x ∈ F \/ length h <= x).

Lemma preserves_refl h F : preserves h h F F.
Proof. unfold preserves. auto. Qed.

Lemma preserves_trans h h1 h2 F F1 F2 :
  preserves h h1 F F1 -> preserves h1 h2 F1 F2 -> preserves h h2 F F2.
Proof.
  intros (Hl1 & Hf1 & Hn1) (Hl2 & Hf2 & Hn2). split_and!.
  - lia.
  - intros x Hx HxF. rewrite Hf2; [by apply Hf1|lia|].
    intros HxF1. destruct (Hn1 x HxF1); [done|lia].
  - intros x HxF2. destruct (Hn2 x HxF2) as [HxF1|Hge]; [|right; lia].
    by apply Hn1.
Qed.

Lemma tree_entries_dom h :
  (forall v t F, tree h v t F -> forall x, x ∈ F -> x < length h) /\
  (forall d items F, entries h d items F -> forall x, x ∈ F -> x < length h).
Proof.
  apply tree_entries_ind;
    try (intros; match goal with H : _ ∈ ∅ |- _ => by apply elem_of_empty in H end).
  2: { intros k v t d items F1 F2 _ IHt _ IHe _ x Hx.
       apply elem_of_union in Hx as [Hx|Hx]; auto. }
  intros l d items F Hl _ IH _ x Hx.
  apply elem_of_union in Hx as [Hx|Hx]; [|by apply IH].
  apply elem_of_singleton in Hx. subst x. by eapply lookup_lt_Some.
Qed.

Lemma tree_dom h v t F x : tree h v t F -> x ∈ F -> x < length h.
Proof. intros Ht. by apply (proj1 (tree_entries_dom h) _ _ _ Ht). Qed.

Lemma entries_dom h d items F x :
  entries h d items F -> x ∈ F -> x < length h.
Proof. intros Ht. by apply (proj2 (tree_entries_dom h) _ _ _ Ht). Qed.

Lemma tree_entries_frame h :
  (forall v t F, tree h v t F ->
     forall h', (forall x, x ∈ F -> h' !! x = h !! x) -> tree h' v t F) /\
  (forall d items F, entries h d items F ->
     forall h', (forall x, x ∈ F -> h' !! x = h !! x) -> entries h' d items F).
Proof.
  apply tree_entries_ind;
    [intros; constructor .. | | intros; constructor | ].
  - intros l d items F Hl _ IH Hnl h' Hagree.
    apply (tree_dict h' l d); [|apply IH|done].
    + rewrite Hagree; [done|set_solver].
    + intros x Hx. apply Hagree. set_solver.
  - intros k v t d items F1 F2 _ IHt _ IHe Hdisj h' Hagree.
    constructor; [apply IHt|apply IHe|done]; intros x Hx; apply Hagree;
      set_solver.
Qed.

Lemma tree_frame h h' v t F :
  tree h v t F -> (forall x, x ∈ F -> h' !! x = h !! x) -> tree h' v t F.
Proof. intros Ht. by apply (proj1 (tree_entries_frame h) _ _ _ Ht). Qed.

Lemma entries_frame h h' d items F :
  entries h d items F -> (forall x, x ∈ F -> h' !! x = h !! x) ->
  entries h' d items F.
Proof. intros Ht. by apply (proj2 (tree_entries_frame h) _ _ _ Ht). Qed.

(** A value that is not a dict is its own tree, in every store. *)
Lemma tree_hval_of h value :
  (forall items, value <> JDict items) -> tree h (hval_of value) value ∅.
Proof.
  intros Hnd. destruct value; simpl; try constructor.
  by destruct (Hnd d).
Qed.

(** The dictionaries of the store and of the value have the same keys in
    the same order. *)
Lemma entries_get_None h d items F key :
  entries h d items F -> dict_get key d = None -> dict_get key items = None.
Proof.
  induction 1 as [|k v t d items F1 F2 Ht He IH Hd]; simpl; [done|].
  destruct (String.eqb k key); [done|auto].
Qed.

Lemma entries_keys h d items F :
  entries h d items F -> dict_keys d = dict_keys items.
Proof.
  induction 1 as [|k v t d items F1 F2 Ht He IH Hd]; simpl; [done|].
  by f_equal.
Qed.

(** The value under an existing key is replaced by a new tree, possibly in
    a later store that left the other entries alone. *)
Lemma entries_set h h2 d items F key v' t' F' :
  entries h d items F -> tree h2 v' t' F' -> F' ## F ->
  (forall x, x ∈ F -> h2 !! x = h !! x) ->
  exists F2, entries h2 (dict_set key v' d) (dict_set key t' items) F2 /\
             F2 ⊆ F ∪ F'.
Proof.
  intros He Ht. revert F'  Ht.
  induction He as [|k v t d items F1 F2 Hv He IH Hd]; intros F' Ht Hdisj Hagree.
  - exists (F' ∪ ∅). split; [|set_solver]. simpl. constructor; [done| |set_solver].
    constructor.
  - simpl. destruct (String.eqb k key) eqn:E.
    + exists (F' ∪ F2). split; [|set_solver].
      constructor; [done| |set_solver].
      eapply entries_frame; [done|]. intros x Hx. apply Hagree. set_solver.
    + destruct (IH F' Ht) as (F3 & He3 & Hsub); [set_solver| |].
      { intros x Hx. apply Hagree. set_solver. }
      exists (F1 ∪ F3). split; [|set_solver].
      constructor; [|done|set_solver].
      eapply tree_frame; [done|]. intros x Hx. apply Hagree. set_solver.
Qed.

(** The object under an existing key was merged into: the entry is the
    same, its tree is new. *)
Lemma entries_update h d items F key v :
  entries h d items F -> dict_get key d = Some v ->
  exists t Fk, dict_get key items = Some t /\ tree h v t Fk /\ Fk ⊆ F /\
    forall h2 t' Fk', tree h2 v t' Fk' ->
      (forall x, x ∈ F -> x ∉ Fk -> h2 !! x = h !! x) ->
      (forall x, x ∈ Fk' -> x ∈ Fk \/ x ∉ F) ->
      exists F2, entries h2 d (dict_set key t' items) F2 /\ F2 ⊆ F ∪ Fk'.
Proof.
  induction 1 as [|k v0 t d items F1 F2 Hv He IH Hd]; simpl; [done|].
  destruct (String.eqb k key) eqn:E.
  - intros [= ->]. exists t, F1. split_and!; [done|done|set_solver|].
    intros h2 t' Fk' Ht' Hagree Hnew.
    exists (Fk' ∪ F2). split; [|set_solver].
    constructor; [done| |].
    + eapply entries_frame; [done|]. intros x Hx. apply Hagree; set_solver.
    + intros x Hx1 Hx2. destruct (Hnew x Hx1); set_solver.
  - intros Hget. destruct (IH Hget) as (tk & Fk & Hgi & Htk & Hsub & Hupd).
    exists tk, Fk. split_and!; [done|done|set_solver|].
    intros h2 t' Fk' Ht' Hagree Hnew.
    destruct (Hupd h2 t' Fk' Ht') as (F3 & He3 & Hsub3).
    { intros x Hx Hnx. apply Hagree; set_solver. }
    { intros x Hx. destruct (Hnew x Hx); set_solver. }
    exists (F1 ∪ F3). split; [|set_solver].
    constructor; [|done|].
    + eapply tree_frame; [done|]. intros x Hx. apply Hagree; set_solver.
    + intros x Hx1 Hx3. apply Hsub3 in Hx3.
      apply elem_of_union in Hx3 as [Hx3|Hx3]; [set_solver|].
      destruct (Hnew x Hx3); set_solver.
Qed.

(** ** The code refines the specification's merge *)

Definition is_dict (value : json) : bool :=
  match value with JDict _ => true | _ => false end.

Lemma merge_items_store f destination key value rest h :
  is_dict value = false ->
  merge_items f destination ((key, value) :: rest) h =
    (h1 ← setitem destination key (hval_of value) h;
     merge_items f destination rest h1).
Proof. by destruct value. Qed.

Lemma merged_items_store f key value rest d :
  is_dict value = false ->
  merged_items f ((key, value) :: rest) (JDict d) =
    merged_items f rest (JDict (dict_set key value d)).
Proof. by destruct value. Qed.

Lemma merge_items_dict f destination key sub rest h :
  merge_items f destination ((key, JDict sub) :: rest) h =
    ('(node, h1) ← setdefault destination key h;
     '(_, h2) ← f (JDict sub) node h1;
     merge_items f destination rest h2).
Proof. reflexivity. Qed.

Lemma merged_items_dict f key sub rest d :
  merged_items f ((key, JDict sub) :: rest) (JDict d) =
    (t ← f (JDict sub) (default (JDict []) (dict_get key d));
     merged_items f rest (JDict (dict_set key t d))).
Proof. reflexivity. Qed.

Lemma setdefault_present l d key node (h : heap) :
  h !! l = Some d -> dict_get key d = Some node ->
  setdefault (HRef l) key h = Ok (node, h).
Proof. intros Hl Hg. unfold setdefault. by rewrite Hl, Hg. Qed.

Lemma setdefault_absent l d key (h : heap) :
  h !! l = Some d -> dict_get key d = None ->
  setdefault (HRef l) key h =
    Ok (HRef (length h),
        <[l := dict_set key (HRef (length h)) d]> (h ++ [[]])).
Proof. intros Hl Hg. unfold setdefault. by rewrite Hl, Hg. Qed.

Lemma setitem_dict l d key value (h : heap) :
  h !! l = Some d ->
  setitem (HRef l) key value h = Ok (<[l := dict_set key value d]> h).
Proof. intros Hl. unfold setitem. by rewrite Hl. Qed.

Definition refines_at (source : json) : Prop :=
  forall h v t F, tree h v t F ->
    match merged source t with
    | Ok t' =>
        exists h' F', _deep_merge source v h = Ok (v, h') /\
                      tree h' v t' F' /\ preserves h h' F F'
    | Raise e => _deep_merge source v h = Raise e
    end.

(** The entry of the destination under [k] is not rebound by the loop:
    every occurrence of [k] in [items] carries a dict, and [k] is already
    bound in the destination. *)
Definition untouched (items : list (string * json)) (d : hdict) (k : string)
  : Prop :=
  forall value, In (k, value) items ->
    is_dict value = true /\ dict_get k d <> None.

Definition same_entries (items : list (string * json)) (h h' : heap)
  (v : hval) : Prop :=
  forall l d, v = HRef l -> h !! l = Some d ->
    exists d', h' !! l = Some d' /\
      forall k, untouched items d k -> dict_get k d' = dict_get k d.

Lemma untouched_rest key value rest d d1 k :
  untouched ((key, value) :: rest) d k ->
  (forall k', dict_get k' d <> None -> dict_get k' d1 <> None) ->
  untouched rest d1 k.
Proof.
  intros Hu Hmono value' Hin. destruct (Hu value') as [? ?]; [by right|].
  auto.
Qed.

Lemma dict_set_bound {V} key (x : V) d k :
  dict_get k d <> None -> dict_get k (dict_set key x d) <> None.
Proof.
  intros Hk. destruct (decide (key = k)) as [->|Hne].
  - by rewrite dict_get_set_eq.
  - by rewrite dict_get_set_ne.
Qed.

Lemma merge_items_refines items :
  Forall (fun kv => refines_at kv.2) items ->
  forall h v t F, tree h v t F ->
    match merged_items merged items t with
    | Ok t' =>
        exists h' F', merge_items _deep_merge v items h = Ok (v, h') /\
                      tree h' v t' F' /\ preserves h h' F F' /\
                      same_entries items h h' v
    | Raise e => merge_items _deep_merge v items h = Raise e
    end.
Proof.
  induction 1 as [|[key value] rest Hvalue _ IH]; intros h v t F Ht.
  { simpl. exists h, F. split_and!; [done|done|apply preserves_refl|].
    intros l d _ Hl. by exists d. }
  inversion Ht as [ | | | | | |l d its F0 Hl He Hnl]; subst;
    try (by destruct value).
  destruct (is_dict value) eqn:Hdict.
  - (* a dict value: merged into the node under [key] *)
    destruct value as [ | | | | | |sub]; try discriminate. clear Hdict.
    simpl in Hvalue. rewrite merge_items_dict, merged_items_dict.
    destruct (dict_get key d) as [node|] eqn:Hget.
    + destruct (entries_update _ _ _ _ _ _ He Hget)
        as (tk & Fk & Hgi & Htk & Hsub & Hupd).
      rewrite Hgi, (setdefault_present _ _ _ _ _ Hl Hget).
      cbn [default from_option id].
      specialize (Hvalue h node tk Fk Htk).
      destruct (merged (JDict sub) tk) as [tk'|e]; cbn [mbind except_bind];
        [|by rewrite Hvalue].
      destruct Hvalue as (h2 & Fk' & -> & Htk' & Hl2 & Hf2 & Hn2).
      assert (Hlt : l < length h) by by eapply lookup_lt_Some.
      destruct (Hupd h2 tk' Fk' Htk') as (F2 & He2 & Hsub2).
      { intros x Hx Hnx. apply Hf2; [by eapply entries_dom|done]. }
      { intros x Hx. destruct (Hn2 x Hx) as [?|Hge]; [by left|right].
        intros Hx0. eapply entries_dom in Hx0; [|done]. lia. }
      assert (Hnl2 : l ∉ F2).
      { intros Hx. apply Hsub2 in Hx. apply elem_of_union in Hx as [?|Hx];
          [done|]. destruct (Hn2 l Hx); [set_solver|lia]. }
      assert (Ht2 : tree h2 (HRef l) (JDict (dict_set key tk' its))
                      ({[l]} ∪ F2)).
      { apply (tree_dict h2 l d); [|done|done].
        rewrite Hf2; [done|done|set_solver]. }
      specialize (IH h2 (HRef l) _ _ Ht2). cbn [mbind except_bind].
      destruct (merged_items merged rest (JDict (dict_set key tk' its)))
        as [t'|e]; [|done].
      destruct IH as (h' & F' & Heq & Ht' & Hp & Hsame).
      exists h', F'. split_and!; [done|done| |].
      * eapply preserves_trans; [|done]. split_and!; [done| |].
        -- intros x Hx HxF. apply Hf2; [done|set_solver].
        -- intros x Hx. apply elem_of_union in Hx as [Hx|Hx]; [set_solver|].
           apply Hsub2 in Hx. apply elem_of_union in Hx as [Hx|Hx];
             [set_solver|]. destruct (Hn2 x Hx); [set_solver|by right].
      * intros l0 d0 [= <-] Hl0. rewrite Hl in Hl0. injection Hl0 as <-.
        destruct (Hsame l d eq_refl) as (d' & Hd' & Hkeep).
        { rewrite Hf2; [done|done|set_solver]. }
        exists d'. split; [done|]. intros k Hu. apply Hkeep.
        eapply untouched_rest; eauto.
    + rewrite (entries_get_None _ _ _ _ _ He Hget).
      rewrite (setdefault_absent _ _ _ _ Hl Hget).
      cbn [default from_option id mbind except_bind].
      assert (Hlt : l < length h) by by eapply lookup_lt_Some.
      set (l' := length h).
      set (h1 := <[l:=dict_set key (HRef l') d]> (h ++ [[]])).
      assert (Hlen1 : length h1 = S (length h)).
      { unfold h1. rewrite length_insert, length_app. simpl. lia. }
      assert (Hl' : h1 !! l' = Some []).
      { unfold h1. rewrite list_lookup_insert_ne by (unfold l'; lia).
        unfold l'. rewrite lookup_app_r by apply Nat.le_refl.
        by rewrite Nat.sub_diag. }
      assert (Hold : forall x, x < length h -> x <> l -> h1 !! x = h !! x).
      { intros x Hx Hne. unfold h1. rewrite list_lookup_insert_ne by done.
        by rewrite lookup_app_l. }
      assert (Hnode : tree h1 (HRef l') (JDict []) ({[l']} ∪ ∅)).
      { apply (tree_dict h1 l' []); [done|constructor|set_solver]. }
      specialize (Hvalue h1 (HRef l') _ _ Hnode).
      destruct (merged (JDict sub) (JDict [])) as [tk'|e];
        cbn [mbind except_bind]; [|by rewrite Hvalue].
      destruct Hvalue as (h2 & Fk' & -> & Htk' & Hl2 & Hf2 & Hn2).
      assert (Hfresh : forall x, x ∈ Fk' -> length h <= x).
      { intros x Hx. destruct (Hn2 x Hx) as [Hx'|]; [|lia].
        assert (x = l') by set_solver. unfold l' in *. lia. }
      destruct (entries_set h h2 d its F0 key (HRef l') tk' Fk' He Htk')
        as (F2 & He2 & Hsub2).
      { intros x Hx1 Hx2. apply Hfresh in Hx1.
        eapply entries_dom in Hx2; [|done]. lia. }
      { intros x Hx. assert (x < length h) by by eapply entries_dom.
        rewrite Hf2; [|lia|unfold l'; set_solver by lia].
        apply Hold; [done|]. by intros ->. }
      assert (Hnl2 : l ∉ F2).
      { intros Hx. apply Hsub2 in Hx. apply elem_of_union in Hx as [?|Hx];
          [done|]. apply Hfresh in Hx. lia. }
      assert (Ht2 : tree h2 (HRef l) (JDict (dict_set key tk' its))
                      ({[l]} ∪ F2)).
      { apply (tree_dict h2 l (dict_set key (HRef l') d)); [|done|done].
        rewrite Hf2; [|lia|unfold l'; set_solver by lia].
        unfold h1. apply list_lookup_insert_eq. rewrite length_app. lia. }
      specialize (IH h2 (HRef l) _ _ Ht2). cbn [mbind except_bind].
      destruct (merged_items merged rest (JDict (dict_set key tk' its)))
        as [t'|e]; [|done].
      destruct IH as (h' & F' & Heq & Ht' & Hp & Hsame).
      assert (Hroot2 : h2 !! l = Some (dict_set key (HRef l') d)).
      { rewrite Hf2; [|lia|unfold l'; set_solver by lia].
        unfold h1. apply list_lookup_insert_eq. rewrite length_app. lia. }
      exists h', F'. split_and!; [done|done| |].
      * eapply preserves_trans; [|done]. split_and!; [lia| |].
        -- intros x Hx HxF. rewrite Hf2; [|lia|unfold l'; set_solver by lia].
           apply Hold; [done|set_solver].
        -- intros x Hx. apply elem_of_union in Hx as [Hx|Hx]; [set_solver|].
           apply Hsub2 in Hx. apply elem_of_union in Hx as [Hx|Hx];
             [set_solver|]. right. by apply Hfresh.
      * intros l0 d0 [= <-] Hl0. rewrite Hl in Hl0. injection Hl0 as <-.
        destruct (Hsame l _ eq_refl Hroot2) as (d' & Hd' & Hkeep).
        exists d'. split; [done|]. intros k Hu. rewrite Hkeep.
        -- apply dict_get_set_ne. intros <-.
           destruct (Hu (JDict sub)) as [_ Hb]; [by left|done].
        -- eapply untouched_rest; [done|]. intros k'. apply dict_set_bound.
  - (* a list or a scalar: stored under [key] *)
    rewrite merge_items_store, merged_items_store by done.
    rewrite (setitem_dict _ _ _ _ _ Hl). cbn [mbind except_bind].
    assert (Hlt : l < length h) by by eapply lookup_lt_Some.
    set (h1 := <[l:=dict_set key (hval_of value) d]> h).
    assert (Hv : tree h1 (hval_of value) value ∅).
    { apply tree_hval_of. intros items ->. discriminate. }
    destruct (entries_set h h1 d its F0 key _ _ _ He Hv) as (F2 & He2 & Hsub2).
    { set_solver. }
    { intros x Hx. unfold h1. apply list_lookup_insert_ne. by intros ->. }
    assert (Ht1 : tree h1 (HRef l) (JDict (dict_set key value its))
                    ({[l]} ∪ F2)).
    { apply (tree_dict h1 l (dict_set key (hval_of value) d)); [|done|].
      - unfold h1. by apply list_lookup_insert_eq.
      - set_solver. }
    specialize (IH h1 (HRef l) _ _ Ht1).
    destruct (merged_items merged rest (JDict (dict_set key value its)))
      as [t'|e]; [|done].
    destruct IH as (h' & F' & Heq & Ht' & Hp & Hsame).
    assert (Hroot1 : h1 !! l = Some (dict_set key (hval_of value) d)).
    { unfold h1. by apply list_lookup_insert_eq. }
    exists h', F'. split_and!; [done|done| |].
    + eapply preserves_trans; [|done]. split_and!.
      * assert (length h1 = length h) as -> by apply length_insert. done.
      * intros x Hx HxF. unfold h1. apply list_lookup_insert_ne. set_solver.
      * intros x Hx. left. set_solver.
    + intros l0 d0 [= <-] Hl0. rewrite Hl in Hl0. injection Hl0 as <-.
      destruct (Hsame l _ eq_refl Hroot1) as (d' & Hd' & Hkeep).
      exists d'. split; [done|]. intros k Hu. rewrite Hkeep.
      * apply dict_get_set_ne. intros <-.
        destruct (Hu value) as [Hb _]; [by left|congruence].
      * eapply untouched_rest; [done|]. intros k'. apply dict_set_bound.
Qed.

(** Induction on a JSON value through the values of its dictionaries. *)
Section json_dict_ind.
Variable P : json -> Prop.
Hypothesis Hother : forall t, is_dict t = false -> P t.
Hypothesis Hdict :
  forall items, Forall (fun kv => P kv.2) items -> P (JDict items).

Fixpoint json_dict_ind (t : json) : P t :=
  match t with
  | JDict items =>
      Hdict items
        ((fix all (items : list (string * json))
            : Forall (fun kv => P kv.2) items :=
            match items with
            | [] => @List.Forall_nil _ (fun kv => P kv.2)
            | kv :: rest =>
                @List.Forall_cons _ (fun kv => P kv.2) kv rest
                  (json_dict_ind kv.2) (all rest)
            end) items)
  | JNull => Hother JNull eq_refl
  | JBool b => Hother (JBool b) eq_refl
  | JInt z => Hother (JInt z) eq_refl
  | JFloat f => Hother (JFloat f) eq_refl
  | JStr s => Hother (JStr s) eq_refl
  | JList l => Hother (JList l) eq_refl
  end.
End json_dict_ind.

Lemma deep_merge_refines source : refines_at source.
Proof.
  induction source as [t Ht|items IH] using json_dict_ind.
  - intros h v t' F _. by destruct t.
  - intros h v t F Htree.
    pose proof (merge_items_refines items IH h v t F Htree) as H.
    change (merged (JDict items) t) with (merged_items merged items t).
    change (_deep_merge (JDict items) v h)
      with (merge_items _deep_merge v items h).
    destruct (merged_items merged items t); [|done].
    destruct H as (h' & F' & ? & ? & ? & _). by exists h', F'.
Qed.

Lemma deep_merge_dict_refines source h v t F :
  tree h v t F ->
  match merged (JDict source) t with
  | Ok t' =>
      exists h' F', _deep_merge (JDict source) v h = Ok (v, h') /\
                    tree h' v t' F' /\ preserves h h' F F' /\
                    same_entries source h h' v
  | Raise e => _deep_merge (JDict source) v h = Raise e
  end.
Proof.
  apply merge_items_refines. apply Forall_forall. intros kv _.
  apply deep_merge_refines.
Qed.

Lemma entries_get_Some h d items F key t :
  entries h d items F -> dict_get key items = Some t ->
  exists v Fk, dict_get key d = Some v /\ tree h v t Fk.
Proof.
  induction 1 as [|k v t0 d items F1 F2 Ht He IH Hd]; simpl; [done|].
  destruct (String.eqb k key); [|done].
  intros [= ->]. by exists v, F1.
Qed.

(** ** The specification's merge, key by key *)

Lemma merged_items_dict_result items d t' :
  merged_items merged items (JDict d) = Ok t' -> exists d', t' = JDict d'.
Proof.
  revert d. induction items as [|[key value] rest IH]; intros d.
  - simpl. intros [= <-]. by exists d.
  - destruct (is_dict value) eqn:Hd.
    + destruct value as [ | | | | | |sub]; try discriminate.
      rewrite merged_items_dict.
      destruct (merged (JDict sub) _) as [tk|]; [|done]. apply IH.
    + rewrite merged_items_store by done. apply IH.
Qed.

Lemma merged_items_frame items d d' :
  merged_items merged items (JDict d) = Ok (JDict d') ->
  forall k, ~ In k (dict_keys items) -> dict_get k d' = dict_get k d.
Proof.
  revert d. induction items as [|[key value] rest IH]; intros d.
  - simpl. by intros [= <-].
  - intros Hm k Hk. simpl in Hk.
    assert (key <> k /\ ~ In k (dict_keys rest)) as [Hne Hrest] by tauto.
    destruct (is_dict value) eqn:Hd.
    + destruct value as [ | | | | | |sub]; try discriminate.
      rewrite merged_items_dict in Hm.
      destruct (merged (JDict sub) _) as [tk|]; [|done]. simpl in Hm.
      rewrite (IH _ Hm k Hrest). by apply dict_get_set_ne.
    + rewrite merged_items_store in Hm by done.
      rewrite (IH _ Hm k Hrest). by apply dict_get_set_ne.
Qed.

Lemma merged_items_entry items d d' :
  NoDup (dict_keys items) ->
  merged_items merged items (JDict d) = Ok (JDict d') ->
  forall key value, In (key, value) items ->
    if is_dict value
    then exists t', merged value (default (JDict []) (dict_get key d)) = Ok t'
                    /\ dict_get key d' = Some t'
    else dict_get key d' = Some value.
Proof.
  revert d. induction items as [|[k v] rest IH]; intros d Hnd Hm key value;
    [done|].
  simpl in Hnd. apply NoDup_cons in Hnd as [Hk Hnd].
  rewrite list_elem_of_In in Hk.
  intros [[= -> ->]|Hin].
  - destruct (is_dict value) eqn:Hd.
    + destruct value as [ | | | | | |sub]; try discriminate.
      rewrite merged_items_dict in Hm.
      destruct (merged (JDict sub) _) as [tk|]; [|done]. simpl in Hm.
      exists tk. split; [done|].
      rewrite (merged_items_frame _ _ _ Hm key Hk). apply dict_get_set_eq.
    + rewrite merged_items_store in Hm by done.
      rewrite (merged_items_frame _ _ _ Hm key Hk). apply dict_get_set_eq.
  - assert (k <> key) as Hne.
    { intros ->. apply Hk. unfold dict_keys. apply in_map_iff.
      by exists (key, value). }
    assert (Hstep : exists x, merged_items merged rest
                                (JDict (dict_set k x d)) = Ok (JDict d')).
    { destruct (is_dict v) eqn:Hd.
      - destruct v as [ | | | | | |sub]; try discriminate.
        rewrite merged_items_dict in Hm.
        destruct (merged (JDict sub) _) as [tk|]; [|done]. by exists tk.
      - rewrite merged_items_store in Hm by done. by exists v. }
    destruct Hstep as (x & Hm').
    specialize (IH _ Hnd Hm' key value Hin).
    by rewrite dict_get_set_ne in IH.
Qed.

(** ** [copy.deepcopy] builds a tree of new objects *)

Definition allocated (t : json) : Prop :=
  forall h, exists F,
    tree (alloc t h).2 (alloc t h).1 t F /\
    length h <= length (alloc t h).2 /\
    (forall x, x < length h -> (alloc t h).2 !! x = h !! x) /\
    (forall x, x ∈ F -> length h <= x).

Lemma alloc_items_entries items :
  Forall (fun kv => allocated kv.2) items ->
  forall h, exists F,
    entries (alloc_items alloc items h).2 (alloc_items alloc items h).1
      items F /\
    length h <= length (alloc_items alloc items h).2 /\
    (forall x, x < length h -> (alloc_items alloc items h).2 !! x = h !! x) /\
    (forall x, x ∈ F -> length h <= x).
Proof.
  induction 1 as [|[k t] rest Ht _ IH]; intros h.
  { exists ∅. simpl. split_and!; [constructor|done|done|set_solver]. }
  simpl in Ht. destruct (Ht h) as (F1 & Ht1 & Hl1 & Ha1 & Hf1).
  simpl. destruct (alloc t h) as [v h1] eqn:E1. simpl in *.
  destruct (IH h1) as (F2 & He2 & Hl2 & Ha2 & Hf2).
  destruct (alloc_items alloc rest h1) as [d h2] eqn:E2. simpl in *.
  exists (F1 ∪ F2). split_and!.
  - constructor; [|done|].
    + eapply tree_frame; [done|]. intros x Hx. apply Ha2.
      by eapply tree_dom.
    + intros x Hx1 Hx2. eapply tree_dom in Hx1; [|done].
      apply Hf2 in Hx2. lia.
  - lia.
  - intros x Hx. rewrite Ha2 by lia. by apply Ha1.
  - intros x Hx. apply elem_of_union in Hx as [Hx|Hx].
    + by apply Hf1.
    + apply Hf2 in Hx. lia.
Qed.

Lemma alloc_tree t : allocated t.
Proof.
  induction t as [t Ht|items IH] using json_dict_ind.
  - intros h. exists ∅. destruct t; try discriminate; simpl;
      (split_and!; [constructor|done|done|set_solver]).
  - intros h. destruct (alloc_items_entries items IH h)
      as (F & He & Hl & Ha & Hf).
    change (alloc (JDict items) h)
      with (let '(d, h1) := alloc_items alloc items h in
            (HRef (length h1), h1 ++ [d])).
    destruct (alloc_items alloc items h) as [d h1]. simpl in *.
    exists ({[length h1]} ∪ F). split_and!.
    + apply (tree_dict _ _ d).
      * rewrite lookup_app_r by apply Nat.le_refl. by rewrite Nat.sub_diag.
      * eapply entries_frame; [done|]. intros x Hx.
        apply lookup_app_l. by eapply entries_dom.
      * intros Hx. eapply entries_dom in Hx; [|done]. lia.
    + rewrite length_app. lia.
    + intros x Hx. rewrite lookup_app_l by lia. by apply Ha.
    + intros x Hx. apply elem_of_union in Hx as [Hx|Hx]; [|by apply Hf].
      apply elem_of_singleton in Hx. lia.
Qed.

Lemma dict_unique_value {V} (d : list (string * V)) key v v' :
  NoDup (dict_keys d) -> In (key, v) d -> In (key, v') d -> v = v'.
Proof.
  intros Hnd H1 H2. apply (dict_get_In _ _ _ Hnd) in H1, H2. congruence.
Qed.

Lemma tree_not_dict h v value F :
  is_dict value = false -> tree h v value F -> v = hval_of value.
Proof. intros Hd Ht. by inversion Ht; subst. Qed.

(** C2.  [_deep_merge(source, destination)] merges as the specification
    says.  For every dictionary [source] (a decoded JSON object, its keys
    distinct) and every dictionary object [l] of the store holding the
    dictionary [destination]: the call raises exactly when the
    specification's merge [merged] is undefined (a non-empty dict is to be
    merged into a value that is no dict); otherwise it returns, the object
    [l] then holds the dictionary [merged source destination], and for
    each key of [source]
    - a dict value has been merged recursively into the destination's value
      for that key: the entry is the object that was there (a new object,
      first empty, when the key was absent) and it now holds the merge of
      the value into the old content;
    - a list value has replaced the destination's value wholesale, and any
      other value has overwritten it. *)
Theorem deep_merge_spec source destination (h : heap) (l : loc) d F :
  NoDup (dict_keys source) ->
  tree h (HRef l) (JDict destination) F ->
  h !! l = Some d ->
  match merged (JDict source) (JDict destination) with
  | Ok t' =>
      exists h' d' F',
        _deep_merge (JDict source) (HRef l) h = Ok (HRef l, h') /\
        h' !! l = Some d' /\ tree h' (HRef l) t' F' /\
        forall key value, In (key, value) source ->
          match value with
          | JDict _ =>
              exists node t Fk,
                dict_get key d' = Some node /\
                (forall node0, dict_get key d = Some node0 -> node = node0) /\
                merged value (default (JDict []) (dict_get key destination))
                  = Ok t /\
                tree h' node t Fk
          | _ => dict_get key d' = Some (hval_of value)
          end
  | Raise e => _deep_merge (JDict source) (HRef l) h = Raise e
  end.
Proof.
  intros Hnd Htree Hl.
  pose proof (deep_merge_dict_refines source h _ _ _ Htree) as Href.
  destruct (merged (JDict source) (JDict destination)) as [t'|e] eqn:Hm;
    [|done].
  destruct Href as (h' & F' & Heq & Ht' & _ & Hsame).
  change (merged (JDict source) (JDict destination))
    with (merged_items merged source (JDict destination)) in Hm.
  destruct (merged_items_dict_result _ _ _ Hm) as (dj & ->).
  inversion Ht' as [ | | | | | |l0 d' its F0 Hl' He' Hnl']; subst.
  destruct (Hsame l d eq_refl Hl) as (d'' & Hd'' & Hkeep).
  rewrite Hl' in Hd''. injection Hd'' as <-.
  exists h', d', ({[l]} ∪ F0). split_and!; [done|done|done|].
  intros key value Hin.
  pose proof (merged_items_entry _ _ _ Hnd Hm key value Hin) as Hentry.
  destruct (is_dict value) eqn:Hdict.
  - destruct value as [ | | | | | |sub]; try discriminate.
    destruct Hentry as (t & Htm & Hget).
    destruct (entries_get_Some _ _ _ _ _ _ He' Hget) as (node & Fk & Hn & Htn).
    exists node, t, Fk. split_and!; [done| |done|done].
    intros node0 Hnode0. rewrite Hkeep in Hn; [congruence|].
    intros value' Hin'.
    rewrite <- (dict_unique_value _ _ _ _ Hnd Hin Hin').
    split; [done|congruence].
  - destruct (entries_get_Some _ _ _ _ _ _ He' Hentry) as (v & Fk & Hv & Htv).
    rewrite (tree_not_dict _ _ _ _ Hdict Htv) in Hv.
    by destruct value.
Qed.

(** C8.  [_deep_merge] mutates and returns its destination.  For every
    dictionary [source] and every dictionary object [l] holding the
    dictionary [destination]: when the call returns, the returned value is
    the object [l] itself, and every top-level key of the destination that
    does not occur in [source] is still bound, in the final store, to the
    entry it was bound to, which still holds the JSON value it held. *)
Theorem deep_merge_frame source destination (h : heap) (l : loc) d F r h' :
  tree h (HRef l) (JDict destination) F ->
  h !! l = Some d ->
  _deep_merge (JDict source) (HRef l) h = Ok (r, h') ->
  r = HRef l /\
  exists d', h' !! l = Some d' /\
    forall k, ~ In k (dict_keys source) ->
      dict_get k d' = dict_get k d /\
      forall t, dict_get k destination = Some t ->
        exists v Fk, dict_get k d = Some v /\ tree h' v t Fk.
Proof.
  intros Htree Hl Hrun.
  pose proof (deep_merge_dict_refines source h _ _ _ Htree) as Href.
  destruct (merged (JDict source) (JDict destination)) as [t'|e] eqn:Hm;
    [|congruence].
  destruct Href as (h1 & F' & Heq & Ht' & _ & Hsame).
  rewrite Heq in Hrun. injection Hrun as <- <-. split; [done|].
  change (merged (JDict source) (JDict destination))
    with (merged_items merged source (JDict destination)) in Hm.
  destruct (merged_items_dict_result _ _ _ Hm) as (dj & ->).
  inversion Ht' as [ | | | | | |l0 d' its F0 Hl' He' Hnl']; subst.
  destruct (Hsame l d eq_refl Hl) as (d'' & Hd'' & Hkeep).
  rewrite Hl' in Hd''. injection Hd'' as <-.
  exists d'. split; [done|]. intros k Hk.
  assert (Hsamek : dict_get k d' = dict_get k d).
  { apply Hkeep. intros value Hin. destruct Hk.
    unfold dict_keys. apply in_map_iff. by exists (k, value). }
  split; [done|]. intros t Hget.
  rewrite <- (merged_items_frame _ _ _ Hm k Hk) in Hget.
  destruct (entries_get_Some _ _ _ _ _ _ He' Hget) as (v & Fk & Hv & Htv).
  exists v, Fk. split; [congruence|done].
Qed.

(** A character sheet and an update, as [_update_character_info] merges
    them. *)
Definition sheet : json :=
  JDict [("name", JStr "Ann"); ("health", JInt 10);
         ("stats", JDict [("str", JInt 5); ("dex", JInt 7)]);
         ("inventory", JList [JStr "sword"])].

Definition sheet_update : list (string * json) :=
  [("health", JInt 3); ("stats", JDict [("str", JInt 9)]);
   ("inventory", JList [JStr "rope"]);
   ("pet", JDict [("name", JStr "Rex")])].

Lemma deep_merge_spec_witness :
  NoDup (dict_keys sheet_update) /\
  (exists F, tree (alloc sheet []).2 (alloc sheet []).1 sheet F) /\
  exists h',
    _deep_merge (JDict sheet_update) (alloc sheet []).1 (alloc sheet []).2
      = Ok ((alloc sheet []).1, h') /\
    readback 3 h' (alloc sheet []).1 =
      Some (JDict [("name", JStr "Ann"); ("health", JInt 3);
                   ("stats", JDict [("str", JInt 9); ("dex", JInt 7)]);
                   ("inventory", JList [JStr "rope"]);
                   ("pet", JDict [("name", JStr "Rex")])]).
Proof.
  assert (Hnd : NoDup (dict_keys sheet_update)).
  { unfold sheet_update, dict_keys. simpl. repeat constructor;
      rewrite ?list_elem_of_In; simpl; intuition discriminate. }
  destruct (alloc_tree sheet []) as (F & Ht & _).
  split; [done|]. split; [by exists F|].
  pose proof (deep_merge_spec sheet_update
                [("name", JStr "Ann"); ("health", JInt 10);
                 ("stats", JDict [("str", JInt 5); ("dex", JInt 7)]);
                 ("inventory", JList [JStr "sword"])]
                (alloc sheet []).2 1 _ F Hnd Ht eq_refl) as H.
  destruct H as (h' & d' & F' & Hrun & _).
  exists h'. split; [done|].
  vm_compute in Hrun. injection Hrun as <-. reflexivity.
Defined.

Lemma deep_merge_frame_witness :
  exists h', _deep_merge (JDict sheet_update) (HRef 1) (alloc sheet []).2
               = Ok (HRef 1, h') /\
    exists d', h' !! 1 = Some d' /\
      dict_get "name" d' = Some (HStr "Ann").
Proof.
  destruct (alloc_tree sheet []) as (F & Ht & _).
  destruct (_deep_merge (JDict sheet_update) (HRef 1) (alloc sheet []).2)
    as [[r h']|e] eqn:Hrun; [|by vm_compute in Hrun].
  destruct (deep_merge_frame sheet_update _ _ 1 _ F r h' Ht eq_refl Hrun)
    as (-> & d' & Hd' & Hkeep).
  exists h'. split; [done|]. exists d'. split; [done|].
  destruct (Hkeep "name") as [-> _]; [|reflexivity].
  unfold sheet_update, dict_keys. simpl. intuition discriminate.
Defined.

End DeepMerge.

(* ===================================================================== *)
(** * The chat history collection (data/mongo_manager.py) *)
(* ===================================================================== *)

Module Mongo.

(** A [datetime] as MongoDB keeps it.  The clock is read in
    microseconds since the epoch; BSON stores the milliseconds since the
    epoch, the microseconds below them being cut off, and that is what
    every read of the document gives back. *)
Definition bson_datetime (microseconds : Z) : Z := (microseconds / 1000)%Z.

(** A document of the [chat_history] collection.  [timestamp] is
    [datetime.now(timezone.utc)] as stored, in milliseconds. *)
Record chat_doc : Type := ChatDoc {
  game_id : string;
  sequence_number : Z;
  user_input : string;
  ai_response : string;
  timestamp : Z
}.

(** The collection, in insertion order. *)
Abbreviation collection := (list chat_doc) (only parsing).

Definition of_game (g : string) (d : chat_doc) : bool :=
  String.eqb (game_id d) g.

(** [find({"game_id": g})] *)
Definition find (g : string) (c : collection) : list chat_doc :=
  filter (fun d => of_game g d = true) c.

Definition seq_desc (a b : chat_doc) : bool :=
  (sequence_number b <=? sequence_number a)%Z.

Definition seq_asc (a b : chat_doc) : bool :=
  (sequence_number a <=? sequence_number b)%Z.

(** [find_one({"game_id": g}, sort=[("sequence_number", DESCENDING)])] *)
Definition find_one_max (g : string) (c : collection) : option chat_doc :=
  head (PySort.sort seq_desc (find g c)).

(** [cursor.limit(n)]: MongoDB reads a limit of 0 as no limit. *)
Definition cursor_limit (n : nat) (l : list chat_doc) : list chat_doc :=
  match n with
  | O => l
  | _ => take n l
  end.

(** [insert_one] under the unique index on (game_id, sequence_number). *)
Definition duplicate_key (d : chat_doc) (c : collection) : bool :=
  existsb (fun d' => of_game (game_id d) d' &&
                     (sequence_number d' =? sequence_number d)%Z) c.

Definition insert_one (d : chat_doc) (c : collection) : option collection :=
  if duplicate_key d c then None else Some (c ++ [d]).

Definition next_sequence (g : string) (c : collection) : Z :=
  match find_one_max g c with
  | Some max_seq_doc => (sequence_number max_seq_doc + 1)%Z
  | None => 1%Z
  end.

(** [add_chat_message]: a duplicate-key failure of the insert leads to a
    new attempt; [fuel] bounds the attempts.  [now n] is the clock reading
    taken by attempt [n], in microseconds. *)
Fixpoint add_chat_message_from (fuel attempt : nat) (g u a : string)
  (now : nat -> Z) (c : collection) : option collection :=
  match fuel with
  | O => None
  | S fuel' =>
      let message_data :=
        {| game_id := g; sequence_number := next_sequence g c;
           user_input := u; ai_response := a;
           timestamp := bson_datetime (now attempt) |} in
      match insert_one message_data c with
      | Some c' => Some c'
      | None => add_chat_message_from fuel' (S attempt) g u a now c
      end
  end.

Definition add_chat_message (fuel : nat) (g u a : string) (now : nat -> Z)
  (c : collection) : option collection :=
  add_chat_message_from fuel 0 g u a now c.

(** [get_chat_history(game_id, limit)] *)
Definition get_chat_history (g : string) (limit : nat) (c : collection)
  : list chat_doc :=
  let messages :=
    cursor_limit limit (PySort.sort seq_desc (find g c)) in
  PySort.sort seq_asc messages.

(** [reset_game_data] on this collection: [delete_many({"game_id": g})] *)
Definition reset_game_data (g : string) (c : collection) : collection :=
  filter (fun d => of_game g d <> true) c.

(** The collections the service builds: it starts empty, messages are
    added, games are reset. *)
Inductive reachable : collection -> Prop :=
  | reach_empty : reachable []
  | reach_add c c' fuel g u a now :
      reachable c -> add_chat_message fuel g u a now c = Some c' ->
      reachable c'
  | reach_reset c g : reachable c -> reachable (reset_game_data g c).

(** The sequence numbers of a game, in insertion order. *)
Definition sequence_numbers (g : string) (c : collection) : list Z :=
  map sequence_number (find g c).

Definition increasing (l : list Z) : Prop := StronglySorted Z.lt l.

Example history_example :
  let c0 : list chat_doc := [] in
  match add_chat_message 1 "g" "hi" "hello" (fun _ => 100%Z) c0 with
  | Some c1 =>
      match add_chat_message 1 "h" "x" "y" (fun _ => 90%Z) c1 with
      | Some c2 =>
          match add_chat_message 1 "g" "go" "ok" (fun _ => 80%Z) c2 with
          | Some c3 =>
              sequence_numbers "g" c3 = [1; 2]%Z /\
              sequence_numbers "h" c3 = [1]%Z /\
              map user_input (get_chat_history "g" 1 c3) = ["go"] /\
              map user_input (get_chat_history "g" 5 c3) = ["hi"; "go"]
          | None => False
          end
      | None => False
      end
  | None => False
  end.
Proof. vm_compute. repeat split. Qed.

(** ** Facts on the collection *)

Lemma seq_desc_total a b : seq_desc a b = true \/ seq_desc b a = true.
Proof. unfold seq_desc. rewrite !Z.leb_le. lia. Qed.

Lemma seq_desc_trans a b c :
  seq_desc a b = true -> seq_desc b c = true -> seq_desc a c = true.
Proof. unfold seq_desc. rewrite !Z.leb_le. lia. Qed.

Lemma seq_asc_total a b : seq_asc a b = true \/ seq_asc b a = true.
Proof. unfold seq_asc. rewrite !Z.leb_le. lia. Qed.

Lemma seq_asc_trans a b c :
  seq_asc a b = true -> seq_asc b c = true -> seq_asc a c = true.
Proof. unfold seq_asc. rewrite !Z.leb_le. lia. Qed.

Lemma In_find g c d : In d (find g c) <-> In d c /\ game_id d = g.
Proof.
  unfold find, of_game. rewrite <- !list_elem_of_In, list_elem_of_filter.
  rewrite String.eqb_eq. tauto.
Qed.

Lemma find_one_max_None g c : find_one_max g c = None -> find g c = [].
Proof.
  unfold find_one_max. intros H.
  assert (Hlen := PySort.sort_length seq_desc (find g c)).
  destruct (PySort.sort seq_desc (find g c)); [|done].
  by destruct (find g c).
Qed.

Lemma find_one_max_Some g c m :
  find_one_max g c = Some m ->
  In m (find g c) /\
  forall d, In d (find g c) -> (sequence_number d <= sequence_number m)%Z.
Proof.
  unfold find_one_max. intros H.
  pose proof (PySort.sort_perm seq_desc (find g c)) as Hp.
  pose proof (PySort.sort_strongly_sorted seq_desc seq_desc_total
                seq_desc_trans (find g c)) as Hs.
  destruct (PySort.sort seq_desc (find g c)) as [|m' l]; [done|].
  injection H as ->. split.
  - eapply Permutation_in; [done|by left].
  - intros d Hd. apply Permutation_sym in Hp.
    apply (Permutation_in _ Hp) in Hd. destruct Hd as [->|Hd]; [lia|].
    apply StronglySorted_inv in Hs as [_ Hall].
    rewrite List.Forall_forall in Hall. apply Hall in Hd.
    unfold PySort.le_prop, seq_desc in Hd. by apply Z.leb_le.
Qed.

Lemma next_sequence_above g c d :
  In d (find g c) -> (sequence_number d < next_sequence g c)%Z.
Proof.
  intros Hd. unfold next_sequence.
  destruct (find_one_max g c) as [m|] eqn:E.
  - apply find_one_max_Some in E as [_ Hmax]. specialize (Hmax d Hd). lia.
  - apply find_one_max_None in E. by rewrite E in Hd.
Qed.

Lemma no_duplicate_key g u a ts c :
  duplicate_key {| game_id := g; sequence_number := next_sequence g c;
                   user_input := u; ai_response := a; timestamp := ts |} c
  = false.
Proof.
  unfold duplicate_key. apply not_true_is_false. intros H.
  apply existsb_exists in H as (d & Hd & Hb). simpl in Hb.
  apply andb_true_iff in Hb as [Hg Hs].
  unfold of_game in Hg. apply String.eqb_eq in Hg. apply Z.eqb_eq in Hs.
  assert (In d (find g c)) as Hin by by apply In_find.
  apply next_sequence_above in Hin. lia.
Qed.

(** The insert succeeds at the first attempt: the retry only answers a
    concurrent writer. *)
Lemma add_chat_message_first_attempt fuel g u a now c :
  0 < fuel ->
  add_chat_message fuel g u a now c =
    Some (c ++ [{| game_id := g; sequence_number := next_sequence g c;
                   user_input := u; ai_response := a;
                   timestamp := bson_datetime (now 0) |}]).
Proof.
  intros Hf. destruct fuel as [|fuel]; [lia|].
  unfold add_chat_message. simpl. unfold insert_one.
  by rewrite no_duplicate_key.
Qed.

Lemma sequence_numbers_app g c d :
  sequence_numbers g (c ++ [d]) =
    if of_game g d then sequence_numbers g c ++ [sequence_number d]
    else sequence_numbers g c.
Proof.
  unfold sequence_numbers, find. rewrite filter_app, map_app.
  rewrite filter_cons, filter_nil.
  destruct (of_game g d); simpl; [done|by rewrite app_nil_r].
Qed.

Lemma sequence_numbers_reset g g' c :
  sequence_numbers g (reset_game_data g' c) =
    if String.eqb g' g then [] else sequence_numbers g c.
Proof.
  unfold sequence_numbers, find, reset_game_data.
  induction c as [|d c IH]; [by destruct (String.eqb g' g)|].
  rewrite (filter_cons _ d c), (filter_cons (fun d => of_game g d = true) d c).
  unfold of_game in *.
  destruct (String.eqb (game_id d) g') eqn:E1.
  - rewrite decide_False by (intros H; by apply H).
    apply String.eqb_eq in E1. rewrite IH.
    destruct (String.eqb g' g) eqn:E3; [done|].
    rewrite decide_False; [done|].
    rewrite String.eqb_eq. apply String.eqb_neq in E3. congruence.
  - rewrite decide_True by (intros H; congruence).
    rewrite filter_cons.
    destruct (String.eqb g' g) eqn:E3.
    + apply String.eqb_eq in E3. subst g'. rewrite E1.
      by rewrite decide_False.
    + destruct (String.eqb (game_id d) g) eqn:E2.
      * rewrite !decide_True by done. simpl. by f_equal.
      * by rewrite !decide_False.
Qed.

Lemma increasing_snoc l x :
  increasing l -> (forall z, In z l -> (z < x)%Z) -> increasing (l ++ [x]).
Proof.
  unfold increasing. induction 1 as [|y l Hs IH Hall]; intros Hlt; simpl.
  - repeat constructor.
  - constructor.
    + apply IH. intros z Hz. apply Hlt. by right.
    + rewrite List.Forall_forall in *. intros z Hz.
      apply in_app_or in Hz as [Hz|[<-|[]]]; [by apply Hall|].
      apply Hlt. by left.
Qed.

Lemma increasing_NoDup l : increasing l -> NoDup l.
Proof.
  unfold increasing. induction 1 as [|y l Hs IH Hall]; constructor; [|done].
  rewrite list_elem_of_In. intros Hy.
  rewrite List.Forall_forall in Hall. specialize (Hall y Hy). lia.
Qed.

Definition well_numbered (c : collection) : Prop :=
  forall g, increasing (sequence_numbers g c) /\
            Forall (fun z => (1 <= z)%Z) (sequence_numbers g c).

Lemma In_sequence_numbers g c z :
  In z (sequence_numbers g c) ->
  exists d, In d (find g c) /\ sequence_number d = z.
Proof.
  unfold sequence_numbers. rewrite in_map_iff. intros (d & <- & Hd). eauto.
Qed.

Lemma next_sequence_positive g c :
  Forall (fun z => (1 <= z)%Z) (sequence_numbers g c) ->
  (1 <= next_sequence g c)%Z.
Proof.
  intros Hpos. unfold next_sequence.
  destruct (find_one_max g c) as [m|] eqn:E; [|done].
  apply find_one_max_Some in E as [Hin _].
  rewrite List.Forall_forall in Hpos.
  assert (1 <= sequence_number m)%Z; [|lia].
  apply Hpos. unfold sequence_numbers. by apply in_map.
Qed.

Lemma reachable_well_numbered c : reachable c -> well_numbered c.
Proof.
  induction 1 as [|c c' fuel g u a now Hr IH Hadd|c g Hr IH]; intros g'.
  - split; constructor.
  - destruct fuel as [|fuel]; [done|].
    rewrite add_chat_message_first_attempt in Hadd by lia.
    injection Hadd as <-. rewrite sequence_numbers_app.
    unfold of_game. simpl. destruct (IH g') as [Hinc Hpos].
    destruct (String.eqb g g') eqn:E; [|done].
    apply String.eqb_eq in E. subst g'. split.
    + apply increasing_snoc; [done|]. intros z Hz.
      apply In_sequence_numbers in Hz as (d & Hd & <-).
      by apply next_sequence_above.
    + apply Forall_app. split; [done|]. constructor; [|done].
      by apply next_sequence_positive.
  - rewrite sequence_numbers_reset. destruct (String.eqb g g').
    + split; constructor.
    + apply IH.
Qed.

Lemma next_sequence_spec g c :
  (sequence_numbers g c = [] -> next_sequence g c = 1%Z) /\
  (forall m, In m (sequence_numbers g c) ->
     (forall z, In z (sequence_numbers g c) -> (z <= m)%Z) ->
     next_sequence g c = (m + 1)%Z).
Proof.
  unfold next_sequence. destruct (find_one_max g c) as [d|] eqn:E.
  - apply find_one_max_Some in E as [Hin Hmax]. split.
    + unfold sequence_numbers. intros Hnil.
      apply map_eq_nil in Hnil. by rewrite Hnil in Hin.
    + intros m Hm Hub. apply In_sequence_numbers in Hm as (d' & Hd' & <-).
      specialize (Hmax d' Hd').
      assert (sequence_number d <= sequence_number d')%Z; [|lia].
      apply Hub. unfold sequence_numbers. by apply in_map.
  - apply find_one_max_None in E. unfold sequence_numbers. rewrite E.
    split; [done|]. by intros m [].
Qed.

Lemma get_chat_history_perm g limit c :
  Permutation (get_chat_history g limit c)
    (cursor_limit limit (PySort.sort seq_desc (find g c))).
Proof. apply PySort.sort_perm. Qed.

Lemma get_chat_history_sorted g limit c :
  Sorted (fun a b => (sequence_number a <= sequence_number b)%Z)
    (get_chat_history g limit c).
Proof.
  pose proof (PySort.sort_sorted seq_asc seq_asc_total
    (cursor_limit limit (PySort.sort seq_desc (find g c)))) as Hs.
  unfold get_chat_history.
  induction Hs as [|d l Hs IH Hhd]; constructor; [done|].
  destruct Hhd as [|d' l' Hle]; constructor.
  unfold PySort.le_prop, seq_asc in Hle. by apply Z.leb_le.
Qed.

Lemma cursor_limit_In n l d : In d (cursor_limit n l) -> In d l.
Proof.
  unfold cursor_limit. destruct n; [done|].
  rewrite <- !list_elem_of_In. apply subseteq_take.
Qed.

Lemma get_chat_history_subset g limit c d :
  In d (get_chat_history g limit c) -> In d (find g c).
Proof.
  intros Hd. apply (Permutation_in _ (get_chat_history_perm g limit c)) in Hd.
  eapply Permutation_in; [apply PySort.sort_perm|].
  by eapply cursor_limit_In.
Qed.

Lemma get_chat_history_length g limit c :
  0 < limit -> length (get_chat_history g limit c) <= limit.
Proof.
  intros Hl. rewrite (Permutation_length (get_chat_history_perm g limit c)).
  destruct limit; [lia|]. unfold cursor_limit. rewrite length_take. lia.
Qed.

(** A message that is left out is older than every message returned. *)
Lemma get_chat_history_highest g limit c d d' :
  0 < limit ->
  In d (find g c) -> ~ In d (get_chat_history g limit c) ->
  In d' (get_chat_history g limit c) ->
  (sequence_number d <= sequence_number d')%Z.
Proof.
  intros Hl Hd Hnd Hd'.
  pose proof (get_chat_history_perm g limit c) as Hp.
  apply (Permutation_in _ Hp) in Hd'.
  assert (Hnd' : ~ In d (cursor_limit limit (PySort.sort seq_desc (find g c)))).
  { intros H. apply Hnd. eapply Permutation_in; [|done].
    by apply Permutation_sym. }
  destruct limit as [|n]; [lia|]. unfold cursor_limit in *.
  set (l := PySort.sort seq_desc (find g c)) in *.
  assert (Hs : StronglySorted (PySort.le_prop seq_desc)
                 (take (S n) l ++ drop (S n) l)).
  { rewrite take_drop.
    apply PySort.sort_strongly_sorted;
      [apply seq_desc_total|apply seq_desc_trans]. }
  assert (Hin : In d (take (S n) l ++ drop (S n) l)).
  { rewrite take_drop. eapply Permutation_in; [|done].
    apply Permutation_sym, PySort.sort_perm. }
  apply in_app_or in Hin as [Hin|Hin]; [done|].
  pose proof (PySort.strongly_sorted_split seq_desc _ _ Hs d' d Hd' Hin) as H.
  unfold seq_desc in H. by apply Z.leb_le.
Qed.

Lemma NoDup_map_inj {A B} (f : A -> B) l a b :
  NoDup (map f l) -> In a l -> In b l -> f a = f b -> a = b.
Proof.
  induction l as [|x l IH]; simpl; [done|].
  intros Hnd. apply NoDup_cons in Hnd as [Hx Hnd].
  rewrite list_elem_of_In in Hx.
  intros [->|Ha] [->|Hb] Heq; auto.
  - destruct Hx. rewrite Heq. by apply in_map.
  - destruct Hx. rewrite <- Heq. by apply in_map.
Qed.

(** ** The history of a collection the service built *)

Lemma insert_last {A} (le : A -> A -> bool) x l :
  (forall y, In y l -> le x y = false) -> PySort.insert le x l = l ++ [x].
Proof.
  induction l as [|y l IH]; intros H; simpl; [done|].
  rewrite (H y) by by left. f_equal. apply IH. intros z Hz. apply H. by right.
Qed.

Definition seq_lt (a b : chat_doc) : Prop :=
  (sequence_number a < sequence_number b)%Z.

Lemma strongly_sorted_snoc {A} (R : A -> A -> Prop) l x :
  StronglySorted R (l ++ [x]) ->
  StronglySorted R l /\ forall y, In y l -> R y x.
Proof.
  induction l as [|z l IH]; simpl; intros Hs.
  - split; [constructor|by intros y []].
  - apply StronglySorted_inv in Hs as [Hs Hall].
    destruct (IH Hs) as [Hl Hx]. split.
    + constructor; [done|]. rewrite List.Forall_forall in *.
      intros y Hy. apply Hall. apply in_or_app. by left.
    + intros y [<-|Hy]; [|by apply Hx].
      rewrite List.Forall_forall in Hall. apply Hall.
      apply in_or_app. right. by left.
Qed.

Lemma strongly_sorted_drop {A} (R : A -> A -> Prop) n l :
  StronglySorted R l -> StronglySorted R (drop n l).
Proof.
  revert l. induction n as [|n IH]; intros l Hs; [by rewrite drop_0|].
  destruct l as [|x l]; [done|]. simpl.
  apply StronglySorted_inv in Hs as [Hs _]. by apply IH.
Qed.

(** Sorting a list that ascends by sequence number, highest first,
    reverses it; sorting the reversed list, lowest first, gives it
    back. *)
Lemma sort_desc_ascending l :
  StronglySorted seq_lt l -> PySort.sort seq_desc l = rev l.
Proof.
  induction 1 as [|x l Hs IH Hall]; [done|].
  change (PySort.sort seq_desc (x :: l))
    with (PySort.insert seq_desc x (PySort.sort seq_desc l)).
  rewrite IH. simpl. apply insert_last. intros y Hy.
  apply in_rev in Hy. rewrite List.Forall_forall in Hall.
  specialize (Hall y Hy). unfold seq_lt in Hall. unfold seq_desc.
  apply Z.leb_gt. lia.
Qed.

Lemma sort_asc_reversed l :
  StronglySorted seq_lt l -> PySort.sort seq_asc (rev l) = l.
Proof.
  induction l as [|x l IH] using rev_ind; [done|]. intros Hs.
  apply strongly_sorted_snoc in Hs as [Hs Hx].
  rewrite rev_app_distr. simpl.
  change (PySort.sort seq_asc (x :: rev l))
    with (PySort.insert seq_asc x (PySort.sort seq_asc (rev l))).
  rewrite IH by done. apply insert_last. intros y Hy.
  specialize (Hx y Hy). unfold seq_lt in Hx. unfold seq_asc.
  apply Z.leb_gt. lia.
Qed.

Lemma find_ascending g c :
  increasing (sequence_numbers g c) -> StronglySorted seq_lt (find g c).
Proof.
  unfold increasing, sequence_numbers.
  induction (find g c) as [|x l IH]; simpl; intros Hs; [constructor|].
  apply StronglySorted_inv in Hs as [Hs Hall].
  constructor; [by apply IH|].
  rewrite List.Forall_forall in *. intros y Hy. apply Hall. by apply in_map.
Qed.

(** With a limit of at least 1, the history is the last [limit] messages
    of the game, in the order in which they were added. *)
Lemma get_chat_history_latest g limit c :
  increasing (sequence_numbers g c) -> 0 < limit ->
  get_chat_history g limit c
    = drop (length (find g c) - limit) (find g c).
Proof.
  intros Hinc Hl. apply find_ascending in Hinc.
  unfold get_chat_history. rewrite (sort_desc_ascending _ Hinc).
  destruct limit as [|n]; [lia|]. unfold cursor_limit.
  rewrite firstn_rev. apply sort_asc_reversed.
  by apply strongly_sorted_drop.
Qed.

(** C9.  In every collection the service builds, and for every game: the
    stored sequence numbers are positive, pairwise distinct and strictly
    increasing in insertion order; [add_chat_message] appends one message,
    at its first attempt, whose sequence number is one plus the current
    maximum of the game (1 when the game has no message); and for a limit
    of at least 1 [get_chat_history] returns exactly the last [limit]
    messages of the game, all of them when there are fewer: [limit]
    messages or the whole history, in strictly ascending sequence order,
    every message left out having a smaller sequence number than every
    message returned. *)
Theorem chat_sequence_numbers c g :
  reachable c ->
  (Forall (fun z => (1 <= z)%Z) (sequence_numbers g c) /\
   NoDup (sequence_numbers g c) /\
   increasing (sequence_numbers g c)) /\
  (forall fuel u a now, 0 < fuel ->
     exists d, add_chat_message fuel g u a now c = Some (c ++ [d]) /\
       game_id d = g /\ user_input d = u /\ ai_response d = a /\
       (sequence_numbers g c = [] -> sequence_number d = 1%Z) /\
       (forall m, In m (sequence_numbers g c) ->
          (forall z, In z (sequence_numbers g c) -> (z <= m)%Z) ->
          sequence_number d = (m + 1)%Z)) /\
  (forall limit, 0 < limit ->
     get_chat_history g limit c
       = drop (length (find g c) - limit) (find g c) /\
     length (get_chat_history g limit c)
       = Nat.min limit (length (find g c)) /\
     StronglySorted
       (fun a b => (sequence_number a < sequence_number b)%Z)
       (get_chat_history g limit c) /\
     (forall d d', In d (find g c) ->
        ~ In d (get_chat_history g limit c) ->
        In d' (get_chat_history g limit c) ->
        (sequence_number d < sequence_number d')%Z)).
Proof.
  intros Hr. destruct (reachable_well_numbered c Hr g) as [Hinc Hpos].
  pose proof (increasing_NoDup _ Hinc) as Hnd.
  split_and!; [done|done|done| |].
  - intros fuel u a now Hf. eexists. split_and!;
      [by apply add_chat_message_first_attempt|done|done|done| |]; simpl;
      apply next_sequence_spec.
  - intros limit Hl.
    pose proof (get_chat_history_latest g limit c Hinc Hl) as Heq.
    split_and!.
    + exact Heq.
    + rewrite Heq, length_drop. lia.
    + rewrite Heq. apply strongly_sorted_drop. by apply find_ascending.
    + intros d d' Hd Hnd' Hd'.
      pose proof (get_chat_history_highest g limit c d d' Hl Hd Hnd' Hd').
      assert (sequence_number d <> sequence_number d'); [|lia].
      intros Heq'. apply Hnd'.
      apply get_chat_history_subset in Hd' as Hd''.
      by rewrite (NoDup_map_inj sequence_number (find g c) d d' Hnd Hd Hd''
                    Heq').
Qed.

(** Two messages of one game, stored 100.250 ms and 200.750 ms after the
    epoch. *)
Definition two_messages : list chat_doc :=
  [ {| game_id := "g"; sequence_number := 1; user_input := "look";
       ai_response := "a door"; timestamp := 100 |};
    {| game_id := "g"; sequence_number := 2; user_input := "open";
       ai_response := "it creaks"; timestamp := 200 |} ].

Lemma two_messages_reachable : reachable two_messages.
Proof.
  eapply (reach_add _ _ 1 "g" "open" "it creaks" (fun _ => 200750%Z)).
  - eapply (reach_add _ _ 1 "g" "look" "a door" (fun _ => 100250%Z));
      [apply reach_empty|reflexivity].
  - reflexivity.
Qed.

Lemma chat_sequence_numbers_witness :
  reachable two_messages /\
  sequence_numbers "g" two_messages = [1; 2]%Z /\
  NoDup (sequence_numbers "g" two_messages) /\
  map user_input (get_chat_history "g" 1 two_messages) = ["open"].
Proof.
  pose proof (chat_sequence_numbers two_messages "g" two_messages_reachable)
    as ((_ & Hnd & _) & _ & Hget).
  split_and!; [apply two_messages_reachable|reflexivity|exact Hnd|].
  destruct (Hget 1) as (Heq & _); [lia|]. rewrite Heq. reflexivity.
Defined.

(** C9 at the limit 0.  The claim, like the comment of line 256 (the
    latest N by sequence number), lets [get_chat_history] return at most
    [limit] messages.  MongoDB reads [cursor.limit(0)] as no limit: the
    whole history is returned where the limit allows no message. *)
Lemma get_chat_history_limit_zero :
  reachable two_messages /\
  get_chat_history "g" 0 two_messages = two_messages /\
  length (get_chat_history "g" 0 two_messages) = 2 /\
  ~ length (get_chat_history "g" 0 two_messages) <= 0.
Proof.
  split_and!; [apply two_messages_reachable|reflexivity|reflexivity|].
  vm_compute. lia.
Qed.

End Mongo.

(* ===================================================================== *)
(** * Waiting for an image job (comfy_manager.py, lines 368-384) *)
(* ===================================================================== *)

Module Comfy.

(** What [wait_for_completion] does besides returning. *)
Inductive event : Type :=
  | Sleep (seconds : Z)
  | LogWarning (msg : string).

Definition is_sleep (e : event) : bool :=
  match e with Sleep _ => true | LogWarning _ => false end.

Definition sleeps (evs : list event) : nat :=
  length (List.filter is_sleep evs).

Section wait.
(** [clock n] is the n-th reading of [time.time()], in seconds: reading 0
    is [start_time], reading [S p] is taken by the loop test of pass [p].
    [completed p id] and [pending p id] are what pass [p] finds in
    [completed_jobs] and [pending_jobs], which the WebSocket thread
    writes. *)
Variable clock : nat -> Q.
Variables completed pending : nat -> string -> bool.
(** [self.timeout] *)
Variable self_timeout : Z.

Definition Qltb (x y : Q) : bool := negb (Qle_bool y x).

Definition elapsed (pass : nat) : Q := (clock (S pass) - clock 0)%Q.

Fixpoint wait_loop (fuel pass : nat) (prompt_id : string) (timeout : Z)
  : option (bool * list event) :=
  match fuel with
  | O => None
  | S fuel' =>
      if Qltb (elapsed pass) (inject_Z timeout) then
        if completed pass prompt_id then Some (true, [])
        else if negb (pending pass prompt_id) then Some (false, [])
        else
          '(b, evs) ← wait_loop fuel' (S pass) prompt_id timeout;
          Some (b, Sleep 1 :: evs)
      else
        Some (false, [LogWarning ("작업 대기 시간 초과: " +:+ prompt_id)])
  end.

(** [if not timeout: timeout = self.timeout] *)
Definition effective_timeout (timeout : option Z) : Z :=
  match timeout with
  | None => self_timeout
  | Some t => if (t =? 0)%Z then self_timeout else t
  end.

Definition wait_for_completion (fuel : nat) (prompt_id : string)
  (timeout : option Z) : option (bool * list event) :=
  wait_loop fuel 0 prompt_id (effective_timeout timeout).

End wait.

Example wait_example :
  wait_for_completion (fun n => inject_Z (Z.of_nat n))
    (fun p _ => Nat.leb 2 p) (fun p _ => Nat.ltb p 2) 300 10 "job" (Some 5%Z)
  = Some (true, [Sleep 1; Sleep 1]).
Proof. reflexivity. Qed.

Lemma Qltb_lt x y : Qltb x y = true <-> (x < y)%Q.
Proof.
  unfold Qltb. rewrite negb_true_iff, <- not_true_iff_false, Qle_bool_iff.
  split; [apply Qnot_le_lt|apply Qlt_not_le].
Qed.

Lemma Qltb_ge x y : Qltb x y = false <-> (y <= x)%Q.
Proof.
  unfold Qltb. rewrite negb_false_iff. apply Qle_bool_iff.
Qed.

(** When every [time.sleep(1)] lets at least one second pass, pass [p] is
    tested at least [p] seconds after the start. *)
Lemma elapsed_lower (clock : nat -> Q) :
  (clock 0%nat <= clock 1%nat)%Q ->
  (forall p : nat, (clock (S p) + 1 <= clock (S (S p)))%Q) ->
  forall p, (inject_Z (Z.of_nat p) <= elapsed clock p)%Q.
Proof.
  intros H0 Hs p. unfold elapsed. induction p as [|p IH].
  - change (inject_Z (Z.of_nat 0)) with 0%Q. lra.
  - rewrite Nat2Z.inj_succ, <- Z.add_1_r, inject_Z_plus.
    change (inject_Z 1) with 1%Q. specialize (Hs p). lra.
Qed.

Definition timeout_warning (prompt_id : string) : event :=
  LogWarning ("작업 대기 시간 초과: " +:+ prompt_id).

(** How a run of the loop ends after [n] sleeps. *)
Definition ends_at (clock : nat -> Q) (completed pending : nat -> string -> bool)
  (prompt_id : string) (timeout : Z) (n : nat) (b : bool) (tail : list event)
  : Prop :=
  ((elapsed clock n < inject_Z timeout)%Q /\
   completed n prompt_id = true /\ b = true /\ tail = []) \/
  ((elapsed clock n < inject_Z timeout)%Q /\
   completed n prompt_id = false /\ pending n prompt_id = false /\
   b = false /\ tail = []) \/
  ((inject_Z timeout <= elapsed clock n)%Q /\
   b = false /\ tail = [timeout_warning prompt_id]).

Lemma wait_loop_spec (clock : nat -> Q) completed pending prompt_id timeout :
  (clock 0%nat <= clock 1%nat)%Q ->
  (forall p : nat, (clock (S p) + 1 <= clock (S (S p)))%Q) ->
  forall k pass fuel,
    pass + k = Z.to_nat timeout -> (0 <= timeout)%Z -> k < fuel ->
    exists n b tail,
      wait_loop clock completed pending fuel pass prompt_id timeout
        = Some (b, repeat (Sleep 1) (n - pass) ++ tail) /\
      pass <= n <= Z.to_nat timeout /\
      (forall p, pass <= p < n ->
         (elapsed clock p < inject_Z timeout)%Q /\
         completed p prompt_id = false /\ pending p prompt_id = true) /\
      ends_at clock completed pending prompt_id timeout n b tail.
Proof.
  intros H0 Hs. induction k as [|k IH]; intros pass fuel Hk Ht Hf;
    (destruct fuel as [|fuel]; [lia|]); simpl.
  - (* pass = timeout: the test fails *)
    pose proof (elapsed_lower clock H0 Hs pass) as Hlow.
    assert (Hge : (inject_Z timeout <= elapsed clock pass)%Q).
    { assert (Z.of_nat pass = timeout) as <- by lia. done. }
    apply Qltb_ge in Hge as Hb. rewrite Hb.
    exists pass, false, [timeout_warning prompt_id].
    rewrite Nat.sub_diag. split_and!; [done|lia|lia|intros; lia|].
    right. right. done.
  - destruct (Qltb (elapsed clock pass) (inject_Z timeout)) eqn:Hb.
    + apply Qltb_lt in Hb.
      destruct (completed pass prompt_id) eqn:Hc.
      { exists pass, true, []. rewrite Nat.sub_diag.
        split_and!; [done|lia|lia|intros; lia|]. left. done. }
      destruct (pending pass prompt_id) eqn:Hp; simpl.
      2: { exists pass, false, []. rewrite Nat.sub_diag.
           split_and!; [done|lia|lia|intros; lia|]. right. left. done. }
      destruct (IH (S pass) fuel) as (n & b & tail & Hrun & Hn & Hall & Hend);
        [lia|done|lia|].
      rewrite Hrun. simpl. exists n, b, tail. split_and!; [|lia|lia| |done].
      * replace (n - pass) with (S (n - S pass)) by lia. done.
      * intros p Hp'. destruct (decide (p = pass)) as [->|Hne]; [done|].
        apply Hall. lia.
    + apply Qltb_ge in Hb.
      exists pass, false, [timeout_warning prompt_id].
      rewrite Nat.sub_diag. split_and!; [done|lia|lia|intros; lia|].
      right. right. done.
Qed.

(** C7, as amended.  The wait is a sleep-and-requery poll that terminates
    when the clock advances.  For every job id and every positive timeout,
    on a clock that does not run backwards before the first test and on
    which each [time.sleep(1)] and the test after it take one second or
    more: [wait_for_completion] returns; it has slept [n] times one second
    with [n] at most the timeout; every test before the last one was made
    less than the timeout after the start and found the job pending and
    not completed, so the function returns within the timeout plus the
    time of its last sleep and test; and it returns [True] at the first
    test that finds the job in [completed_jobs], [False] at the first test
    that finds it in neither dictionary, and [False], with a warning
    logged, at the first test at which the elapsed time has reached the
    timeout. *)
Theorem wait_for_completion_terminates
  (clock : nat -> Q) completed pending self_timeout prompt_id (timeout : Z)
  fuel :
  (0 < timeout)%Z ->
  (clock 0%nat <= clock 1%nat)%Q ->
  (forall p : nat, (clock (S p) + 1 <= clock (S (S p)))%Q) ->
  Z.to_nat timeout < fuel ->
  exists n b tail,
    wait_for_completion clock completed pending self_timeout fuel prompt_id
      (Some timeout) = Some (b, repeat (Sleep 1) n ++ tail) /\
    n <= Z.to_nat timeout /\
    sleeps (repeat (Sleep 1) n ++ tail) = n /\
    (forall p, p < n ->
       (elapsed clock p < inject_Z timeout)%Q /\
       completed p prompt_id = false /\ pending p prompt_id = true) /\
    ends_at clock completed pending prompt_id timeout n b tail.
Proof.
  intros Ht H0 Hs Hf. unfold wait_for_completion, effective_timeout.
  assert ((timeout =? 0)%Z = false) as -> by lia.
  destruct (wait_loop_spec clock completed pending prompt_id timeout H0 Hs
              (Z.to_nat timeout) 0 fuel)
    as (n & b & tail & Hrun & Hn & Hall & Hend); [lia|lia|lia|].
  rewrite Nat.sub_0_r in Hrun. exists n, b, tail.
  split_and!; [done|lia| |intros p Hp; apply Hall; lia|done].
  unfold sleeps. rewrite List.filter_app, length_app.
  assert (List.filter is_sleep (repeat (Sleep 1) n) = repeat (Sleep 1) n)
    as ->.
  { clear. induction n as [|n IH]; simpl; [done|]. by rewrite IH. }
  rewrite repeat_length.
  assert (List.filter is_sleep tail = []) as ->; [|simpl; lia].
  destruct Hend as [(_ & _ & _ & ->)|[(_ & _ & _ & _ & ->)|(_ & _ & ->)]];
    done.
Qed.

(** A clock that ticks once per second, and a job that completes while
    the second pass sleeps. *)
Lemma wait_for_completion_terminates_witness :
  let clock := fun n : nat => inject_Z (Z.of_nat n) in
  let completed := fun (p : nat) (_ : string) => Nat.leb 2 p in
  let pending := fun (p : nat) (_ : string) => Nat.ltb p 2 in
  (0 < 5)%Z /\
  (forall p : nat, (clock (S p) + 1 <= clock (S (S p)))%Q) /\
  exists n b tail,
    wait_for_completion clock completed pending 300 10 "job" (Some 5%Z)
      = Some (b, repeat (Sleep 1) n ++ tail) /\
    n <= 5 /\ sleeps (repeat (Sleep 1) n ++ tail) = n.
Proof.
  intros clock completed pending.
  assert (Hs : forall p : nat, (clock (S p) + 1 <= clock (S (S p)))%Q).
  { intros p. unfold clock.
    rewrite !Nat2Z.inj_succ, <- !Z.add_1_r, !inject_Z_plus.
    change (inject_Z 1) with 1%Q. lra. }
  split; [lia|]. split; [exact Hs|].
  destruct (wait_for_completion_terminates clock completed pending
              300 "job" 5 10) as (n & b & tail & Hrun & Hn & Hsl & _);
    [lia|by vm_compute|exact Hs|simpl; lia|].
  exists n, b, tail. split_and!; [exact Hrun|exact Hn|exact Hsl].
Defined.

(** A clock on which the first test is made 1 ms after the start and
    each sleep with its test takes 1.001 s. *)
Definition slow_clock (n : nat) : Q :=
  match n with
  | O => 0
  | S k => (1 # 1000) + inject_Z (Z.of_nat k) * (1001 # 1000)
  end.

Lemma frozen_clock_never_returns completed fuel pass prompt_id timeout :
  (0 < timeout)%Z ->
  (forall p, completed p prompt_id = false) ->
  wait_loop (fun _ => 0%Q) completed (fun _ _ => true) fuel pass prompt_id
    timeout = None.
Proof.
  intros Ht Hc. revert pass. induction fuel as [|fuel IH]; intros pass; [done|].
  simpl. rewrite Hc, IH.
  assert (Qltb (elapsed (fun _ => 0%Q) pass) (inject_Z timeout) = true) as ->;
    [|done].
  apply Qltb_lt. unfold elapsed.
  assert (0 < inject_Z timeout)%Q; [|lra].
  change 0%Q with (inject_Z 0). rewrite <- Zlt_Qlt. done.
Qed.

(** C7 as stated fails.  A job stays pending and the timeout is 5 s.  On
    [slow_clock], which meets the conditions of the amended claim, the
    function sleeps five times and returns [False] at the test made
    5.006 s after the start: later than the timeout.  On a clock that
    stands still it does not return at all, whatever the number of passes
    allowed. *)
Lemma wait_outlasts_timeout :
  let completed := fun (_ : nat) (_ : string) => false in
  let pending := fun (_ : nat) (_ : string) => true in
  wait_for_completion slow_clock completed pending 300 10 "job" (Some 5%Z)
    = Some (false, repeat (Sleep 1) 5 ++ [timeout_warning "job"]) /\
  (elapsed slow_clock 4 < 5)%Q /\
  (elapsed slow_clock 5 == 5006 # 1000)%Q /\
  ~ (elapsed slow_clock 5 <= 5)%Q /\
  (forall fuel,
     wait_for_completion (fun _ => 0%Q) completed pending 300 fuel "job"
       (Some 5%Z) = None).
Proof.
  intros completed pending. split_and!.
  - reflexivity.
  - by vm_compute.
  - by vm_compute.
  - by vm_compute.
  - intros fuel. unfold wait_for_completion, effective_timeout.
    change (5 =? 0)%Z with false. cbv iota.
    by apply frozen_clock_never_returns.
Qed.

End Comfy.

(* ===================================================================== *)
(** * The game master (agents/gamemaster.py) and its memories *)
(* ===================================================================== *)

Module GameMaster.
Import Py.

(** ** The stores *)

(** A document of a game's Chroma collection: its text and the metadata
    the service writes ([type], [source], [game_id], [role], [timestamp],
    [sequence_number], [chunk_id], [image_url]). *)
Record vdoc : Type := VDoc {
  page_content : string;
  doc_type : string;
  doc_source : string;
  doc_game_id : string;
  doc_role : option string;
  doc_timestamp : option string;
  doc_sequence_number : option Z;
  doc_chunk_id : option nat;
  doc_image_url : option json
}.

(** A message of the LangChain conversation memory. *)
Inductive chat_message : Type :=
  | HumanMessage (content : string)
  | AIMessage (content : json).

Inductive level : Type := INFO | WARNING | ERROR.

(** A call of the language model: the game-master chain with its four
    inputs, or a direct [llm.invoke(prompt)]. *)
Inductive llm_call : Type :=
  | GmChainRun (game_context chat_summary relevant_context user_input : string)
  | LlmInvoke (prompt : string).

(** A request to the game API. *)
Inductive http_request : Type :=
  | HttpGet (url : string)
  | HttpPatch (url : string) (payload : json).

(** The state the service keeps and the trace of what it did:
    [memory_manager.game_memories] (the messages of each game),
    [context_manager.session_contexts], the documents behind each handle
    of [vector_memory_manager.vector_stores], the requests sent, the
    language-model calls made, the log, and the number of clock
    readings. *)
Record world : Type := World {
  game_memories : gmap string (list chat_message);
  session_contexts : gmap string (list (string * json));
  vector_stores : gmap string (list vdoc);
  requests_sent : list http_request;
  llm_calls : list llm_call;
  logs : list (level * string);
  clock_reads : nat
}.

Definition set_game_memories (f : gmap string (list chat_message) ->
                                  gmap string (list chat_message))
  (w : world) : world :=
  World (f (game_memories w)) (session_contexts w) (vector_stores w)
    (requests_sent w) (llm_calls w) (logs w) (clock_reads w).

Definition set_session_contexts (f : gmap string (list (string * json)) ->
                                     gmap string (list (string * json)))
  (w : world) : world :=
  World (game_memories w) (f (session_contexts w)) (vector_stores w)
    (requests_sent w) (llm_calls w) (logs w) (clock_reads w).

Definition set_vector_stores (f : gmap string (list vdoc) ->
                                  gmap string (list vdoc))
  (w : world) : world :=
  World (game_memories w) (session_contexts w) (f (vector_stores w))
    (requests_sent w) (llm_calls w) (logs w) (clock_reads w).

Definition add_request (r : http_request) (w : world) : world :=
  World (game_memories w) (session_contexts w) (vector_stores w)
    (requests_sent w ++ [r]) (llm_calls w) (logs w) (clock_reads w).

Definition add_llm_call (c : llm_call) (w : world) : world :=
  World (game_memories w) (session_contexts w) (vector_stores w)
    (requests_sent w) (llm_calls w ++ [c]) (logs w) (clock_reads w).

Definition add_log (l : level) (msg : string) (w : world) : world :=
  World (game_memories w) (session_contexts w) (vector_stores w)
    (requests_sent w) (llm_calls w) (logs w ++ [(l, msg)]) (clock_reads w).

Definition tick (w : world) : world :=
  World (game_memories w) (session_contexts w) (vector_stores w)
    (requests_sent w) (llm_calls w) (logs w) (S (clock_reads w)).

(** ** The services the game master calls

    What the Python runtime, the language model, the game API and Chroma
    answer is not decided by this code: the answers are inputs. *)
Record services : Type := Services {
  (** [json.loads] *)
  json_loads : string -> except json;
  (** [str(v)] of a value that is not a string, as an f-string prints it *)
  py_str : json -> string;
  (** [json.dumps(v, ensure_ascii=False)] *)
  json_dumps : json -> string;
  (** [str(e)] *)
  str_exn : exn -> string;
  (** [traceback.format_exc()] in the handler of [e] *)
  format_exc : exn -> string;
  (** the index [random.choice] draws *)
  random_index : nat;
  (** [datetime.now().isoformat()], by the number of the reading *)
  now_iso : nat -> string;
  (** [self.gm_chain.run(game_context=, chat_summary=, relevant_context=,
      user_input=)] *)
  gm_chain_run : string -> string -> string -> string -> except string;
  (** [self.llm.invoke(prompt)] *)
  llm_invoke : string -> except string;
  (** [requests.get(url)], [raise_for_status()], [response.json()] *)
  http_get : string -> except json;
  (** [requests.patch(url, json=payload)], [raise_for_status()],
      [response.json()] *)
  http_patch : string -> json -> except json;
  (** [self.api_config["base_url"]] *)
  base_url : string;
  (** [_initialize_game_vector_store]: the documents behind a new handle
      (those of the existing collection, or the base scenarios and the
      restored history), or the failure of the initialization *)
  chroma_open : string -> except (list vdoc);
  (** [vector_store.similarity_search(query, k=k)] *)
  similarity_search : list vdoc -> string -> nat -> except (list vdoc);
  (** the failure, if any, of [vector_store.get(where=...)] *)
  chroma_get_error : list vdoc -> option exn;
  (** the failure, if any, of [vector_store.add_documents(documents)] *)
  chroma_add_error : list vdoc -> list vdoc -> option exn;
  (** [self.text_splitter.split_text] *)
  split_text : string -> list string;
  (** whether LangChain accepts a value as the content of a message *)
  content_ok : json -> bool
}.

(** ** Computations: state, exceptions, handlers

    A computation reads and writes the [world] and returns or raises.
    The state reached when an exception is raised is the state the
    handler starts from: nothing is undone. *)
Definition M (A : Type) : Type := world -> except A * world.

#[global] Instance M_ret : MRet M := fun A a w => (Ok a, w).
#[global] Instance M_bind : MBind M := fun A B f m w =>
  match m w with
  | (Ok a, w') => f a w'
  | (Raise e, w') => (Raise e, w')
  end.

Definition raise {A} (e : exn) : M A := fun w => (Raise e, w).

Definition lift {A} (r : except A) : M A := fun w => (r, w).

Definition get_world : M world := fun w => (Ok w, w).

Definition update (f : world -> world) : M unit := fun w => (Ok tt, f w).

(** [try: body except <classes> as e: handler] *)
Definition try_except {A} (body : M A) (classes : exn -> bool)
  (handler : exn -> M A) : M A := fun w =>
  match body w with
  | (Ok a, w') => (Ok a, w')
  | (Raise e, w') => if classes e then handler e w' else (Raise e, w')
  end.

(** [try: body except C1 as e: h1 except C2 as e: h2]: the first clause
    whose class matches handles the exception. *)
Definition try_except2 {A} (body : M A)
  (classes1 : exn -> bool) (handler1 : exn -> M A)
  (classes2 : exn -> bool) (handler2 : exn -> M A) : M A := fun w =>
  match body w with
  | (Ok a, w') => (Ok a, w')
  | (Raise e, w') =>
      if classes1 e then handler1 e w'
      else if classes2 e then handler2 e w'
      else (Raise e, w')
  end.

Definition Exception (e : exn) : bool := true.

Definition is_RequestException (e : exn) : bool :=
  match e with RequestException _ _ => true | _ => false end.

Definition is_JSONDecodeError (e : exn) : bool :=
  match e with JSONDecodeError _ => true | _ => false end.

Definition logger (l : level) (msg : string) : M unit := update (add_log l msg).

(** The [[TIMING]] lines report the duration of a step; the duration is
    left out of the logged text. *)
Definition log_timing (step : string) : M unit :=
  logger INFO ("[TIMING] " +:+ step).

(** ** Conversations read back from the vector store *)

(** An entry of [all_conversations] (process_game_request, lines
    121-125). *)
Record conversation : Type := Conversation {
  content : string;
  timestamp : string;
  sequence : Z
}.

(** An entry of [conversation_history] (_handle_character_death, lines
    386-390). *)
Record death_entry : Type := DeathEntry {
  entry_content : string;
  entry_timestamp : string;
  entry_role : string
}.

Definition to_conversation (d : vdoc) : conversation :=
  {| content := page_content d;
     timestamp := default "" (doc_timestamp d);
     sequence := default 0%Z (doc_sequence_number d) |}.

Definition to_death_entry (d : vdoc) : death_entry :=
  {| entry_content := page_content d;
     entry_timestamp := default "" (doc_timestamp d);
     entry_role := default "unknown" (doc_role d) |}.

(** The order of the keys [(x['timestamp'], x['sequence'])]. *)
Definition conversation_le (a b : conversation) : bool :=
  if String.eqb (timestamp a) (timestamp b)
  then (sequence a <=? sequence b)%Z
  else String.ltb (timestamp a) (timestamp b).

(** The order of the keys [x['timestamp']]. *)
Definition death_entry_le (a b : death_entry) : bool :=
  String.leb (entry_timestamp a) (entry_timestamp b).

(** The documents [vector_store.get(where={"type": "conversation"})]
    returns. *)
Definition conversation_docs (store : list vdoc) : list vdoc :=
  List.filter (fun d => String.eqb (doc_type d) "conversation") store.

(** Lines 118-127: the conversations of the store, sorted. *)
Definition all_conversations_of (store : list vdoc) : list conversation :=
  PySort.sort conversation_le (map to_conversation (conversation_docs store)).

(** Lines 381-392. *)
Definition conversation_history_of (store : list vdoc) : list death_entry :=
  PySort.sort death_entry_le (map to_death_entry (conversation_docs store)).

(** ** The hybrid chat summary (process_game_request, lines 131-155) *)

Definition RECENT_LIMIT : nat := 10.

(** [l[-n:]] and [l[:-n]] for a positive [n] *)
Definition last_n {A} (n : nat) (l : list A) : list A :=
  drop (length l - n) l.
Definition but_last_n {A} (n : nat) (l : list A) : list A :=
  take (length l - n) l.

Definition vector_part (relevant_context : list vdoc) (context_info : string)
  : list string :=
  match relevant_context with
  | [] => []
  | _ => ["[과거 관련 대화 (벡터 검색)]" +:+ LF +:+ context_info +:+ LF]
  end.

Definition chat_summary_parts (all_conversations : list conversation)
  (relevant_context : list vdoc) (context_info : string) : list string :=
  let total_count := length all_conversations in
  if (RECENT_LIMIT <? total_count)%nat then
    let old_conversations := but_last_n RECENT_LIMIT all_conversations in
    let recent_conversations := last_n RECENT_LIMIT all_conversations in
    vector_part relevant_context context_info ++
    match recent_conversations with
    | [] => []
    | _ =>
        let recent_texts := map content recent_conversations in
        ["[최근 대화 (" +:+ pretty (length recent_conversations) +:+ "턴)]"
           +:+ LF +:+ join LF recent_texts]
    end
  else
    match all_conversations with
    | [] => []
    | _ =>
        let all_texts := map content all_conversations in
        ["[대화 내역 (" +:+ pretty (length all_conversations) +:+ "턴)]"
           +:+ LF +:+ join LF all_texts]
    end.

Definition chat_summary_of (all_conversations : list conversation)
  (relevant_context : list vdoc) (context_info : string) : string :=
  match chat_summary_parts all_conversations relevant_context context_info with
  | [] => "새로운 게임 세션입니다."
  | parts => join LF parts
  end.

Section game_master.
Context (sv : services).

(** An interpolated value of an f-string. *)
Definition fstr (v : json) : string :=
  match v with
  | JStr s => s
  | _ => py_str sv v
  end.

(** [datetime.now().isoformat()] *)
Definition now : M string :=
  w ← get_world; update tick;; mret (now_iso sv (clock_reads w)).

Definition http (r : http_request) : M json :=
  update (add_request r);;
  lift (match r with
        | HttpGet url => http_get sv url
        | HttpPatch url payload => http_patch sv url payload
        end).

(** ** memory/game_memory.py *)

(** [TRPGMemoryManager.add_message]: [get_memory] creates the memory of a
    game on first use; the user message is added, then the AI message,
    whose content LangChain validates. *)
Definition add_message (game_id human_input : string) (ai_response : json)
  : M unit :=
  update (set_game_memories (fun m =>
    <[game_id := default [] (m !! game_id) ++ [HumanMessage human_input]]> m));;
  if content_ok sv ai_response then
    update (set_game_memories (fun m =>
      <[game_id := default [] (m !! game_id) ++ [AIMessage ai_response]]> m))
  else raise ValidationError.

(** [SessionContextManager.set_context] *)
Definition set_context (game_id key : string) (value : json) : M unit :=
  update (set_session_contexts (fun m =>
    <[game_id := dict_set key value (default [] (m !! game_id))]> m)).

(** [SessionContextManager.get_context(game_id, key)]: [None] for a key
    that is not set. *)
Definition get_context (game_id key : string) : M json :=
  update (set_session_contexts (fun m =>
    <[game_id := default [] (m !! game_id)]> m));;
  w ← get_world;
  mret (default JNull
          (ctx ← session_contexts w !! game_id; dict_get key ctx)).

(** ** memory/vector_memory.py *)

Definition _initialize_game_vector_store (game_id : string) : M unit :=
  match chroma_open sv game_id with
  | Ok docs => update (set_vector_stores <[game_id := docs]>)
  | Raise e =>
      logger ERROR ("Failed to initialize vector store for " +:+ game_id
                    +:+ ": " +:+ str_exn sv e);;
      raise e
  end.

Definition get_vector_memory (game_id : string) : M unit :=
  w ← get_world;
  match vector_stores w !! game_id with
  | None => _initialize_game_vector_store game_id
  | Some _ => mret tt
  end.

Definition search_relevant_context (game_id query : string) (k : nat)
  : M (list vdoc) :=
  get_vector_memory game_id;;
  w ← get_world;
  match vector_stores w !! game_id with
  | None => raise (KeyError game_id)
  | Some vector_store =>
      match similarity_search sv vector_store query k with
      | Ok results =>
          logger INFO ("Retrieved " +:+ pretty (length results)
                       +:+ " relevant documents for query: "
                       +:+ py_prefix 50 query +:+ "...");;
          mret results
      | Raise e =>
          logger ERROR ("Error searching vector store: " +:+ str_exn sv e);;
          mret []
      end
  end.

(** [add_scenario_data(game_id, content, metadata)] for the metadata
    [{"type": "conversation", "source": source, "game_id": game_id,
    "role": role}], with [image_url] when given. *)
Definition add_scenario_data (game_id content source role : string)
  (image_url : option json) : M unit :=
  ts ← now;
  let chunks := split_text sv content in
  let documents :=
    imap (fun i chunk =>
            {| page_content := chunk; doc_type := "conversation";
               doc_source := source; doc_game_id := game_id;
               doc_role := Some role; doc_timestamp := Some ts;
               doc_sequence_number := None; doc_chunk_id := Some i;
               doc_image_url := image_url |}) chunks in
  get_vector_memory game_id;;
  w ← get_world;
  match vector_stores w !! game_id with
  | None => raise (KeyError game_id)
  | Some vector_store =>
      match chroma_add_error sv vector_store documents with
      | Some e => raise e
      | None =>
          update (set_vector_stores <[game_id := vector_store ++ documents]>);;
          logger INFO ("Added " +:+ pretty (length documents)
                       +:+ " scenario chunks to game " +:+ game_id)
      end
  end.

(** [vector_store.get(where={"type": "conversation"})] *)
Definition get_conversation_docs (vector_store : list vdoc)
  : M (list vdoc) :=
  match chroma_get_error sv vector_store with
  | Some e => raise e
  | None => mret (conversation_docs vector_store)
  end.

(** ** agents/gamemaster.py *)

(** [_prepare_game_context]: the game and its characters are fetched from
    the API; [RequestException] and [JSONDecodeError] are handled, any
    other exception leaves the function. *)
Definition fetch_failed (e : exn) : bool :=
  is_RequestException e || is_JSONDecodeError e.

Definition character_lines (char : json) : except (list string) :=
  name ← py_get char "name" (JStr "알 수 없음");
  id ← py_get char "id" JNull;
  class ← py_get char "class" (JStr "알 수 없음");
  level ← py_get char "level" (JInt 0);
  health ← py_get char "health" (JInt 0);
  maxHealth ← py_get char "maxHealth" (JInt 0);
  stats ← py_get char "stats" (JDict []);
  inventory ← py_get char "inventory" (JList []);
  Ok ["- 이름: " +:+ fstr name +:+ " (ID: " +:+ fstr id +:+ ")";
      "  - 직업: " +:+ fstr class +:+ ", 레벨: " +:+ fstr level;
      "  - 체력: " +:+ fstr health +:+ "/" +:+ fstr maxHealth;
      "  - 능력치: " +:+ json_dumps sv stats;
      "  - 인벤토리: " +:+ json_dumps sv inventory].

Definition _prepare_game_context (game_id : string) : M string :=
  game_parts ←
    try_except
      (data ← http (HttpGet (base_url sv +:+ "/api/games/" +:+ game_id
                             +:+ "/title"));
       title ← lift (py_get data "title" (JStr "알 수 없는 제목"));
       genre ← lift (py_get data "genre" (JStr "알 수 없는 장르"));
       scenario ← lift (py_get data "scenario" (JDict []));
       hook ← lift (py_get scenario "hook" (JStr ""));
       role ← lift (py_get scenario "role" (JStr ""));
       mission ← lift (py_get scenario "mission" (JStr ""));
       mret ["=== 게임 정보 ===";
             "- 제목: " +:+ fstr title;
             "- 장르: " +:+ fstr genre;
             LF +:+ "=== 시나리오 ===";
             "- 도입: " +:+ fstr hook;
             "- 당신의 역할: " +:+ fstr role;
             "- 임무: " +:+ fstr mission])
      fetch_failed
      (fun e =>
         if is_RequestException e then
           logger ERROR ("게임 정보 API 호출 실패: " +:+ str_exn sv e);;
           mret ["게임 정보를 불러오는 데 실패했습니다."]
         else
           logger ERROR "게임 정보 API 응답 파싱 실패";;
           mret ["게임 정보 형식이 올바르지 않습니다."]);
  character_parts ←
    try_except
      (characters ← http (HttpGet (base_url sv +:+ "/api/games/" +:+ game_id
                                   +:+ "/characters"));
       if truthy characters then
         chars ← lift (py_iter characters);
         lines ← lift (mapM character_lines chars);
         set_context game_id "characters" characters;;
         mret ((LF +:+ "=== 캐릭터 정보 ===") :: concat lines)
       else mret [])
      fetch_failed
      (fun e =>
         (if is_RequestException e then
            logger ERROR ("캐릭터 정보 API 호출 실패: " +:+ str_exn sv e)
          else logger ERROR "캐릭터 정보 API 응답 파싱 실패");;
         mret []);
  mret (join LF (game_parts ++ character_parts)).

(** [len(v) == 0] *)
Definition py_len_is_zero (v : json) : except bool :=
  match v with
  | JList l => Ok (match l with [] => true | _ => false end)
  | JDict d => Ok (match d with [] => true | _ => false end)
  | JStr s => Ok (String.eqb s "")
  | _ => Raise TypeError
  end.

(** [v[0]] *)
Definition py_first (v : json) : except json :=
  match v with
  | JList (x :: _) => Ok x
  | JList [] => Raise IndexError
  | JStr (String c _) => Ok (JStr (String c ""))
  | JStr EmptyString => Raise IndexError
  | JDict _ => Raise (KeyError "0")
  | _ => Raise TypeError
  end.

(** [v[0] = x], on the values whose [v[0]] can be read *)
Definition py_set_first (v x : json) : except json :=
  match v with
  | JList (_ :: l) => Ok (JList (x :: l))
  | JList [] => Raise IndexError
  | _ => Raise TypeError
  end.

Definition allowed_fields : list string :=
  ["name"; "class"; "level"; "stats"; "inventory"; "avatar"; "health"].

(** [merged_data.get(field)], read as the JSON the request will carry; a
    value that cannot be walked to its end is circular. *)
Definition merged_get (h : DeepMerge.heap) (merged_data : DeepMerge.hval)
  (field : string) : except json :=
  match merged_data with
  | DeepMerge.HRef l =>
      match h !! l with
      | Some d =>
          match dict_get field d with
          | Some v =>
              match DeepMerge.readback (S (length h)) h v with
              | Some t => Ok t
              | None => Raise ValueError
              end
          | None => Ok JNull
          end
      | None => Raise InvalidRef
      end
  | _ => Raise AttributeError
  end.

(** Lines 341-346: the fields of the update that the API accepts, with
    their merged values. *)
Fixpoint payload_of (h : DeepMerge.heap) (merged_data : DeepMerge.hval)
  (update_payload : list (string * json)) (fields : list string)
  : except (list (string * json)) :=
  match fields with
  | [] => Ok []
  | field :: rest =>
      if dict_has field update_payload then
        v ← merged_get h merged_data field;
        payload ← payload_of h merged_data update_payload rest;
        Ok ((field, v) :: payload)
      else payload_of h merged_data update_payload rest
  end.

(** [_update_character_info]: returns the updated character, or [None]. *)
Definition _update_character_info (game_id : string)
  (update_data : list (string * json)) : M json :=
  let api_url := base_url sv +:+ "/api/characters/game/" +:+ game_id in
  all_characters ← get_context game_id "characters";
  no_characters ← lift (if negb (truthy all_characters) then Ok true
                        else py_len_is_zero all_characters);
  if (no_characters : bool) then
    logger WARNING ("캐릭터 정보가 없어 업데이트를 건너뜁니다: game_id="
                    +:+ game_id);;
    mret JNull
  else
    original_char_data ← lift (py_first all_characters);
    (* merged_data = copy.deepcopy(original_char_data) *)
    let '(merged_data, h) := DeepMerge.alloc original_char_data [] in
    let update_payload := update_data in
    '(merged_data, h) ← lift (DeepMerge._deep_merge (JDict update_payload)
                                merged_data h);
    payload_to_send ← lift (payload_of h merged_data update_payload
                              allowed_fields);
    match payload_to_send with
    | [] =>
        logger WARNING ("업데이트할 필드가 없습니다: "
                        +:+ py_str sv (JDict update_data));;
        mret JNull
    | _ =>
        try_except
          (logger INFO ("캐릭터 정보 업데이트 요청: game_id=" +:+ game_id
                        +:+ ", payload=" +:+ py_str sv (JDict payload_to_send));;
           updated_char ← http (HttpPatch api_url (JDict payload_to_send));
           logger INFO ("캐릭터 정보 업데이트 성공: " +:+ py_str sv updated_char);;
           all_characters ← lift (py_set_first all_characters updated_char);
           set_context game_id "characters" all_characters;;
           mret updated_char)
          is_RequestException
          (fun e =>
             logger ERROR ("캐릭터 정보 업데이트 API 호출 실패: "
                           +:+ str_exn sv e);;
             match e with
             | RequestException _ (Some text) =>
                 logger ERROR ("응답 내용: " +:+ text)
             | _ => mret tt
             end;;
             mret JNull)
    end.

(** [_handle_error] *)
Definition error_responses : list string :=
  ["죄송합니다. 잠시 문제가 발생했습니다. 다시 시도해 주세요.";
   "게임 진행 중 오류가 발생했습니다. 다른 행동을 시도해보세요.";
   "시스템에 일시적인 문제가 있습니다. 곧 다시 정상화될 예정입니다."].

Definition _handle_error (error : exn) : M json :=
  let message :=
    default "" (error_responses !! (random_index sv mod 3)) in
  ts ← now;
  mret (JDict [("success", JBool false);
               ("message", JStr message);
               ("options", JList [JStr "다시 시도"; JStr "상태 확인";
                                  JStr "도움말"]);
               ("error", JStr (str_exn sv error));
               ("timestamp", JStr ts)]).

(** [_handle_character_death] *)
Definition death_prompt_of (name class level : json)
  (history_text final_action : string) (death_context : json) : string :=
  "캐릭터가 사망했습니다. 다음 정보를 바탕으로 죽음의 원인과 캐릭터의 여정을 요약해주세요." +:+ LF +:+ LF +:+
  "=== 캐릭터 정보 ===" +:+ LF +:+
  "이름: " +:+ fstr name +:+ LF +:+
  "직업: " +:+ fstr class +:+ LF +:+
  "레벨: " +:+ fstr level +:+ LF +:+ LF +:+
  "=== 최근 게임 진행 ===" +:+ LF +:+
  history_text +:+ LF +:+ LF +:+
  "=== 마지막 행동 ===" +:+ LF +:+
  final_action +:+ LF +:+ LF +:+
  "=== 죽음의 순간 ===" +:+ LF +:+
  fstr death_context +:+ LF +:+ LF +:+
  "다음 형식으로 응답해주세요:" +:+ LF +:+
  "1. 죽음의 원인을 2-3문장으로 설명" +:+ LF +:+
  "2. 캐릭터의 여정을 3-4문장으로 요약 (시작부터 끝까지)" +:+ LF +:+
  "3. 감동적이고 극적인 마무리 문장" +:+ LF +:+ LF +:+
  "전체를 하나의 자연스러운 이야기로 작성하세요.".

Definition death_rule : string :=
  "═══════════════════════════════════════".

Definition final_message_of (name : json) (death_summary : string)
  (maxHealth : json) : string :=
  LF +:+ death_rule +:+ LF +:+
  "        " +:+ fstr name +:+ "의 마지막" +:+ LF +:+
  death_rule +:+ LF +:+ LF +:+
  death_summary +:+ LF +:+ LF +:+
  "체력: 0/" +:+ fstr maxHealth +:+ LF +:+ LF +:+
  "게임이 종료되었습니다." +:+ LF +:+
  death_rule +:+ LF.

Definition fallback_death_message (name : json) : string :=
  fstr name +:+ "는 쓰러졌습니다..." +:+ LF +:+ LF +:+ "게임이 종료되었습니다.".

(** The test [if not vector_store:] of line 376 holds for a game without
    handle and for a store that holds no document: both are initialised
    (again) before the history is read. *)
Definition _handle_character_death (game_id : string) (character : json)
  (final_action : string) (death_context : json) : M json :=
  try_except
    (w ← get_world;
     match vector_stores w !! game_id with
     | Some (_ :: _) => mret tt
     | _ => _initialize_game_vector_store game_id
     end;;
     w ← get_world;
     vector_store ← match vector_stores w !! game_id with
                    | Some store => mret store
                    | None => raise AttributeError
                    end;
     results ← get_conversation_docs vector_store;
     let conversation_history :=
       PySort.sort death_entry_le (map to_death_entry results) in
     let history_text :=
       join LF (map entry_content (last_n 20 conversation_history)) in
     name ← lift (py_get character "name" (JStr "알 수 없음"));
     class ← lift (py_get character "class" (JStr "알 수 없음"));
     level ← lift (py_get character "level" (JInt 1));
     let death_prompt :=
       death_prompt_of name class level history_text final_action
         death_context in
     update (add_llm_call (LlmInvoke death_prompt));;
     death_summary ← lift (llm_invoke sv death_prompt);
     name ← lift (py_get character "name" (JStr "모험가"));
     maxHealth ← lift (py_get character "maxHealth" (JInt 0));
     let final_message := final_message_of name death_summary maxHealth in
     character_name ← lift (py_get character "name" JNull);
     logger INFO ("캐릭터 사망 처리 완료: " +:+ fstr character_name
                  +:+ " (game_id=" +:+ game_id +:+ ")");;
     ts ← now;
     mret (JDict [("success", JBool true);
                  ("message", JStr final_message);
                  ("options", JList []);
                  ("need_image", JBool false);
                  ("game_over", JBool true);
                  ("character_death", JBool true);
                  ("character_name", character_name);
                  ("timestamp", JStr ts)]))
    Exception
    (fun e =>
       logger ERROR ("죽음 처리 중 에러: " +:+ str_exn sv e);;
       name ← lift (py_get character "name" (JStr "캐릭터"));
       ts ← now;
       mret (JDict [("success", JBool true);
                    ("message", JStr (fallback_death_message name));
                    ("options", JList []);
                    ("need_image", JBool false);
                    ("game_over", JBool true);
                    ("timestamp", JStr ts)])).

(** Lines 169-195: the response of the model, parsed. *)
Definition fallback_blank : json :=
  JDict [("message", JStr "죄송합니다. 응답을 생성할 수 없습니다. 다시 시도해주세요.");
         ("options", JList [JStr "다시 시도"; JStr "상황 확인"]);
         ("need_image", JBool false)].

Definition fallback_unparsed (gm_response : string) : json :=
  JDict [("message", JStr (if String.eqb gm_response "" then "응답 생성 실패"
                           else gm_response));
         ("options", JList [JStr "계속 진행"; JStr "상황 확인";
                            JStr "다른 행동"]);
         ("need_image", JBool false)].

Definition fallback_error : json :=
  JDict [("message", JStr "시스템 오류가 발생했습니다.");
         ("options", JList [JStr "다시 시도"]);
         ("need_image", JBool false)].

Definition parse_response (gm_response : string) : M json :=
  try_except2
    (if blank gm_response then
       logger ERROR "LLM 응답이 비어있습니다";;
       mret fallback_blank
     else lift (json_loads sv gm_response))
    is_JSONDecodeError
    (fun e =>
       logger ERROR ("JSON 파싱 실패: " +:+ str_exn sv e +:+ ", 원본 응답: "
                     +:+ py_prefix 200 gm_response);;
       mret (fallback_unparsed gm_response))
    Exception
    (fun e =>
       logger ERROR ("응답 처리 중 예외 발생: " +:+ str_exn sv e);;
       mret fallback_error).

(** Line 205: [updated_char and updated_char.get('health', 1) <= 0] *)
Definition health_depleted (updated_char : json) : except bool :=
  if truthy updated_char then
    health ← py_get updated_char "health" (JInt 1);
    py_le_zero health
  else Ok false.

(** Lines 197-209: the character update and the death branch.  The
    result is the response of [_handle_character_death] when the branch
    is taken. *)
Definition character_update (game_id user_input : string)
  (response_data : json) : M (option json) :=
  has_update ← lift (py_contains "update_character" response_data);
  if (has_update : bool) then
    update_info ← lift (py_getitem response_data "update_character");
    match update_info with
    | JDict (entry :: entries) =>
        updated_char ← _update_character_info game_id (entry :: entries);
        dead ← lift (health_depleted updated_char);
        if (dead : bool) then
          message ← lift (py_getitem response_data "message");
          death_response ← _handle_character_death game_id updated_char
                             user_input message;
          mret (Some death_response)
        else mret None
    | _ =>
        logger WARNING ("update_character 값이 유효하지 않습니다: "
                        +:+ fstr update_info);;
        mret None
    end
  else mret None.

Definition _add_user_input_to_vector_storage (game_id user_input : string)
  : M unit :=
  try_except
    (add_scenario_data game_id ("사용자: " +:+ user_input)
       "user_input" "user" None;;
     logger INFO ("사용자 입력 저장 완료: "
                  +:+ py_prefix 50 user_input +:+ "..."))
    Exception
    (fun e =>
       logger WARNING ("Failed to add user input to vector storage: "
                       +:+ str_exn sv e)).

Definition ai_response_content (ai_response image_url : json) : string :=
  let content := "GM: " +:+ fstr ai_response in
  if truthy image_url
  then content +:+ LF +:+ "[이미지: " +:+ fstr image_url +:+ "]"
  else content.

Definition _add_ai_response_to_vector_storage (game_id : string)
  (ai_response image_url : json) : M unit :=
  try_except
    (add_scenario_data game_id (ai_response_content ai_response image_url)
       "ai_response" "assistant"
       (if truthy image_url then Some image_url else None);;
     logger INFO ("AI 응답 저장 완료 (이미지 URL: " +:+ fstr image_url +:+ ")"))
    Exception
    (fun e =>
       logger WARNING ("Failed to add AI response to vector storage: "
                       +:+ str_exn sv e)).

(** Lines 231-238 *)
Definition image_info_of (response_data : json) : except json :=
  need_image ← py_get response_data "need_image" (JBool false);
  if truthy need_image then
    image_prompt ← py_get response_data "image_prompt" JNull;
    if truthy image_prompt then
      prompt ← py_getitem response_data "image_prompt";
      Ok (JDict [("should_generate", JBool true);
                 ("prompt", prompt);
                 ("reason", JStr "Scene visualization")])
    else Ok JNull
  else Ok JNull.

(** Lines 211-254: the exchange is stored and the result is built. *)
Definition store_and_answer (game_id user_input : string)
  (response_data : json) (relevant_context : list vdoc) : M json :=
  message ← lift (py_getitem response_data "message");
  add_message game_id user_input message;;
  log_timing "메모리 저장";;
  _add_user_input_to_vector_storage game_id user_input;;
  has_message ← lift (if truthy response_data
                      then py_contains "message" response_data
                      else Ok false);
  (if (has_message : bool) then
     message ← lift (py_getitem response_data "message");
     image_url ← lift (py_get response_data "image_url" JNull);
     _add_ai_response_to_vector_storage game_id message image_url
   else
     logger WARNING ("response_data가 비어있거나 message 키가 없습니다: "
                     +:+ fstr response_data));;
  log_timing "벡터DB 저장";;
  image_info ← lift (image_info_of response_data);
  message ← lift (py_getitem response_data "message");
  options ← lift (py_get response_data "options" (JList []));
  need_image ← lift (py_get response_data "need_image" (JBool false));
  ts ← now;
  let result :=
    JDict [("success", JBool true);
           ("message", message);
           ("options", options);
           ("need_image", need_image);
           ("image_info", image_info);
           ("relevant_context_found",
              JBool (match relevant_context with [] => false | _ => true end));
           ("timestamp", JStr ts)] in
  log_timing "전체 처리 시간";;
  logger INFO ("GameMaster processed request for game " +:+ game_id);;
  mret result.

(** Lines 112-129: the conversations of the game, read from its store.
    The test [if vector_store:] of line 116 fails for a game without
    handle and for a store that holds no document (the length of a Chroma
    store is the number of its documents): such a store is not read. *)
Definition read_all_conversations (game_id : string)
  : M (list conversation) :=
  w ← get_world;
  match vector_stores w !! game_id with
  | Some ((_ :: _) as vector_store) =>
      try_except
        (results ← get_conversation_docs vector_store;
         mret (PySort.sort conversation_le (map to_conversation results)))
        Exception
        (fun e =>
           logger WARNING ("ChromaDB 대화 조회 실패: " +:+ str_exn sv e);;
           mret [])
  | _ => mret []
  end.

(** Lines 90-167: the context is assembled and the model is called. *)
Definition ask_model (game_id user_input : string)
  : M (string * list vdoc) :=
  game_context ← _prepare_game_context game_id;
  log_timing "게임 컨텍스트 준비";;
  get_vector_memory game_id;;
  relevant_context ← search_relevant_context game_id user_input 10;
  log_timing "벡터 컨텍스트 검색";;
  let context_info :=
    match relevant_context with
    | [] => ""
    | _ => join LF (map page_content relevant_context)
    end in
  log_timing "컨텍스트 변환";;
  all_conversations ← read_all_conversations game_id;
  let chat_summary :=
    chat_summary_of all_conversations relevant_context context_info in
  log_timing "하이브리드 메모리 구성";;
  logger INFO "[TIMING] AI 모델 호출 시작 - 여기서 /api/generate 요청 발생";;
  update (add_llm_call (GmChainRun game_context chat_summary context_info
                          user_input));;
  gm_response ← lift (gm_chain_run sv game_context chat_summary context_info
                        user_input);
  log_timing "AI 모델 응답";;
  mret (gm_response, relevant_context).

(** The body of the [try] of [process_game_request]. *)
Definition process_body (game_id user_input : string) : M json :=
  '(gm_response, relevant_context) ← ask_model game_id user_input;
  response_data ← parse_response gm_response;
  death ← character_update game_id user_input response_data;
  match death with
  | Some death_response => mret death_response
  | None => store_and_answer game_id user_input response_data relevant_context
  end.

Definition process_game_request (game_id user_input : string) : M json :=
  try_except
    (process_body game_id user_input)
    Exception
    (fun e =>
       logger ERROR ("Error processing game request: " +:+ str_exn sv e);;
       logger ERROR ("상세 에러:" +:+ LF +:+ format_exc sv e);;
       _handle_error e).

End game_master.

(** ** A concrete service, to run the model *)

Definition exn_name (e : exn) : string :=
  match e with
  | AttributeError => "AttributeError"
  | TypeError => "TypeError"
  | KeyError key => "'" +:+ key +:+ "'"
  | IndexError => "IndexError"
  | ValueError => "ValueError"
  | ValidationError => "ValidationError"
  | JSONDecodeError msg => msg
  | RequestException msg _ => msg
  | OtherException msg => msg
  | InvalidRef => "InvalidRef"
  end.

Definition hero : json :=
  JDict [("id", JInt 7); ("name", JStr "Ann"); ("class", JStr "rogue");
         ("level", JInt 2); ("health", JInt 4); ("maxHealth", JInt 10);
         ("stats", JDict [("str", JInt 5)]); ("inventory", JList [])].

(** A service whose model answers [reply], which [json.loads] decodes to
    [parsed]; the API holds one character and answers a PATCH with
    [patched]; [invoke] is the answer of the direct model call and
    [add_error] the failure of every write to the vector store. *)
Definition demo (reply : string) (parsed : except json) (patched : json)
  (invoke : except string) (add_error : option exn) : services :=
  {| json_loads := fun _ => parsed;
     py_str := fun _ => "<value>";
     json_dumps := fun _ => "<json>";
     str_exn := exn_name;
     format_exc := exn_name;
     random_index := 4;
     now_iso := fun n => "2025-01-01T00:00:0" +:+ pretty n;
     gm_chain_run := fun _ _ _ _ => Ok reply;
     llm_invoke := fun _ => invoke;
     http_get := fun url =>
       if String.eqb url "http://api/api/games/g1/characters"
       then Ok (JList [hero])
       else Ok (JDict [("title", JStr "The Keep")]);
     http_patch := fun _ _ => Ok patched;
     base_url := "http://api";
     chroma_open := fun _ => Ok [];
     similarity_search := fun _ _ _ => Ok [];
     chroma_get_error := fun _ => None;
     chroma_add_error := fun _ _ => add_error;
     split_text := fun text => [text];
     content_ok := fun v => match v with JStr _ => true | _ => false end |}.

Definition empty_world : world :=
  {| game_memories := ∅; session_contexts := ∅; vector_stores := ∅;
     requests_sent := []; llm_calls := []; logs := []; clock_reads := 0 |}.

Definition narration : json :=
  JDict [("message", JStr "You open the door.");
         ("options", JList [JStr "enter"]);
         ("need_image", JBool false)].

Example normal_run :
  let sv := demo "{...}" (Ok narration) JNull (Ok "") None in
  let '(r, w) := process_game_request sv "g1" "open the door" empty_world in
  (r = Ok (JDict [("success", JBool true);
                 ("message", JStr "You open the door.");
                 ("options", JList [JStr "enter"]);
                 ("need_image", JBool false);
                 ("image_info", JNull);
                 ("relevant_context_found", JBool false);
                 ("timestamp", JStr "2025-01-01T00:00:02")])) /\
  game_memories w !! "g1" =
    Some [HumanMessage "open the door"; AIMessage (JStr "You open the door.")] /\
  (map page_content <$> vector_stores w !! "g1") =
    Some ["사용자: open the door"; "GM: You open the door."].
Proof. vm_compute. repeat split. Qed.

(** ** The order of the conversations *)

Lemma conversation_le_total a b :
  conversation_le a b = true \/ conversation_le b a = true.
Proof.
  unfold conversation_le. rewrite (String.eqb_sym (timestamp b)).
  destruct (String.eqb (timestamp a) (timestamp b)) eqn:E.
  - rewrite !Z.leb_le. lia.
  - apply String.eqb_neq in E.
    destruct (string_ltb_total (timestamp a) (timestamp b)) as [?|[?|?]];
      [by left|done|by right].
Qed.

Lemma conversation_le_trans a b c :
  conversation_le a b = true -> conversation_le b c = true ->
  conversation_le a c = true.
Proof.
  unfold conversation_le.
  destruct (String.eqb (timestamp a) (timestamp b)) eqn:E1.
  - apply String.eqb_eq in E1. rewrite E1.
    destruct (String.eqb (timestamp b) (timestamp c)); [|done].
    rewrite !Z.leb_le. lia.
  - destruct (String.eqb (timestamp b) (timestamp c)) eqn:E2.
    + apply String.eqb_eq in E2. rewrite <- E2, E1. done.
    + intros H1 H2. pose proof (string_ltb_trans _ _ _ H1 H2) as H3.
      destruct (String.eqb (timestamp a) (timestamp c)) eqn:E3; [|done].
      apply String.eqb_eq in E3. rewrite E3 in H1.
      pose proof (string_ltb_trans _ _ _ H1 H2) as H4.
      by rewrite string_ltb_irrefl in H4.
Qed.

Lemma conversation_le_timestamp a b :
  conversation_le a b = true -> String.leb (timestamp a) (timestamp b) = true.
Proof.
  unfold conversation_le. rewrite string_leb_ltb.
  destruct (String.eqb (timestamp a) (timestamp b)) eqn:E.
  - apply String.eqb_eq in E. auto.
  - auto.
Qed.

Lemma death_entry_le_total a b :
  death_entry_le a b = true \/ death_entry_le b a = true.
Proof. apply String.leb_total. Qed.

Lemma all_conversations_sorted store :
  StronglySorted (PySort.le_prop conversation_le) (all_conversations_of store).
Proof.
  apply PySort.sort_strongly_sorted;
    [apply conversation_le_total|apply conversation_le_trans].
Qed.

(** ** The chat summary, by the number of conversations *)

Lemma last_n_length {A} n (l : list A) :
  n <= length l -> length (last_n n l) = n.
Proof. intros H. unfold last_n. rewrite length_drop. lia. Qed.

Lemma but_last_n_last_n {A} n (l : list A) :
  but_last_n n l ++ last_n n l = l.
Proof. apply take_drop. Qed.

Definition recent_header : string := "[최근 대화 (10턴)]".

Lemma chat_summary_parts_many all relevant_context context_info :
  RECENT_LIMIT < length all ->
  chat_summary_parts all relevant_context context_info =
    vector_part relevant_context context_info ++
    [recent_header +:+ LF +:+ join LF (map content (last_n 10 all))].
Proof.
  intros Hlen. unfold chat_summary_parts.
  apply Nat.ltb_lt in Hlen as Hb. rewrite Hb. f_equal.
  unfold RECENT_LIMIT in *.
  pose proof (last_n_length 10 all) as Hl.
  destruct (last_n 10 all) as [|x l] eqn:E; [simpl in Hl; lia|].
  rewrite Hl by lia. reflexivity.
Qed.

Lemma chat_summary_parts_few all relevant_context context_info :
  length all <= RECENT_LIMIT ->
  chat_summary_parts all relevant_context context_info =
    match all with
    | [] => []
    | _ => ["[대화 내역 (" +:+ pretty (length all) +:+ "턴)]" +:+ LF
              +:+ join LF (map content all)]
    end.
Proof.
  intros Hlen. unfold chat_summary_parts.
  assert ((RECENT_LIMIT <? length all)%nat = false) as ->; [|done].
  apply Nat.ltb_ge. lia.
Qed.

(** ** Reasoning on computations *)

Lemma bind_Ok {A B} (m : M A) (k : A -> M B) w b w' :
  (m ≫= k) w = (Ok b, w') ->
  exists a w1, m w = (Ok a, w1) /\ k a w1 = (Ok b, w').
Proof.
  unfold mbind, M_bind. destruct (m w) as [[a|e] w1]; [|done]. eauto.
Qed.

Lemma bind_Raise {A B} (m : M A) (k : A -> M B) w e w' :
  (m ≫= k) w = (Raise e, w') ->
  m w = (Raise e, w') \/
  exists a w1, m w = (Ok a, w1) /\ k a w1 = (Raise e, w').
Proof.
  unfold mbind, M_bind. destruct (m w) as [[a|e0] w1]; [eauto|].
  intros [= -> ->]. by left.
Qed.

Lemma bind_run {A B} (m : M A) (k : A -> M B) w a w1 :
  m w = (Ok a, w1) -> (m ≫= k) w = k a w1.
Proof. intros H. unfold mbind, M_bind. by rewrite H. Qed.

Lemma lift_Ok {A} (r : except A) w a w' :
  lift r w = (Ok a, w') -> r = Ok a /\ w' = w.
Proof. unfold lift. by intros [= -> ->]. Qed.

Lemma update_run f w : update f w = (Ok tt, f w).
Proof. reflexivity. Qed.

(** A computation leaves a component of the state as it is. *)
Definition keeps {A X} (field : world -> X) (m : M A) : Prop :=
  forall w, field (m w).2 = field w.

Section keeps.
Context {X : Type} (field : world -> X).

Lemma keeps_ret {A} (a : A) : keeps field (mret a).
Proof. by intros w. Qed.

Lemma keeps_raise {A} e : keeps field (@raise A e).
Proof. by intros w. Qed.

Lemma keeps_lift {A} (r : except A) : keeps field (lift r).
Proof. by intros w. Qed.

Lemma keeps_get_world : keeps field get_world.
Proof. by intros w. Qed.

Lemma keeps_update f :
  (forall w, field (f w) = field w) -> keeps field (update f).
Proof. intros H w. apply H. Qed.

Lemma keeps_bind {A B} (m : M A) (k : A -> M B) :
  keeps field m -> (forall a, keeps field (k a)) -> keeps field (m ≫= k).
Proof.
  intros Hm Hk w. unfold mbind, M_bind. specialize (Hm w).
  destruct (m w) as [[a|e] w1]; simpl in *; [|done].
  by rewrite Hk.
Qed.

Lemma keeps_try_except {A} (body : M A) classes handler :
  keeps field body -> (forall e, keeps field (handler e)) ->
  keeps field (try_except body classes handler).
Proof.
  intros Hb Hh w. unfold try_except. specialize (Hb w).
  destruct (body w) as [[a|e] w1]; simpl in *; [done|].
  destruct (classes e); [|done]. by rewrite Hh.
Qed.

Lemma keeps_try_except2 {A} (body : M A) c1 h1 c2 h2 :
  keeps field body -> (forall e, keeps field (h1 e)) ->
  (forall e, keeps field (h2 e)) ->
  keeps field (try_except2 body c1 h1 c2 h2).
Proof.
  intros Hb H1 H2 w. unfold try_except2. specialize (Hb w).
  destruct (body w) as [[a|e] w1]; simpl in *; [done|].
  destruct (c1 e); [by rewrite H1|].
  destruct (c2 e); [by rewrite H2|done].
Qed.

Lemma keeps_run {A} (m : M A) w r w' :
  keeps field m -> m w = (r, w') -> field w' = field w.
Proof. intros H E. specialize (H w). by rewrite E in H. Qed.
End keeps.

(** Steps that settle most [keeps] goals on the functions above. *)
Ltac keeps_step :=
  first
    [ apply keeps_ret | apply keeps_raise | apply keeps_lift
    | apply keeps_get_world
    | apply keeps_update; intros []; reflexivity
    | apply keeps_bind; [|intros]
    | apply keeps_try_except; [|intros]
    | apply keeps_try_except2; [|intros|intros] ].

Ltac keeps_cases :=
  match goal with
  | |- keeps _ (match ?x with _ => _ end) => destruct x
  | |- keeps _ (if ?b then _ else _) => destruct b
  | |- keeps _ (let '(_, _) := ?x in _) => destruct x
  end.

Ltac keeps_auto := repeat first [keeps_step | keeps_cases].

(** ** Only [add_message] writes the conversation memory *)

Create HintDb keeps.

Ltac keeps_memories :=
  repeat first
    [ solve [auto with keeps] | keeps_step | keeps_cases ].

Section memory_frame.
Context (sv : services).

Lemma logger_keeps_memories l msg : keeps game_memories (logger l msg).
Proof. unfold logger. keeps_auto. Qed.
Hint Resolve logger_keeps_memories : keeps.

Lemma log_timing_keeps_memories step : keeps game_memories (log_timing step).
Proof. unfold log_timing. auto with keeps. Qed.
Hint Resolve log_timing_keeps_memories : keeps.

Lemma now_keeps_memories : keeps game_memories (now sv).
Proof. unfold now. keeps_auto. Qed.
Hint Resolve now_keeps_memories : keeps.

Lemma http_keeps_memories r : keeps game_memories (http sv r).
Proof. unfold http. keeps_auto. Qed.
Hint Resolve http_keeps_memories : keeps.

Lemma set_context_keeps_memories g k v :
  keeps game_memories (set_context g k v).
Proof. unfold set_context. keeps_auto. Qed.
Hint Resolve set_context_keeps_memories : keeps.

Lemma get_context_keeps_memories g k : keeps game_memories (get_context g k).
Proof. unfold get_context. keeps_auto. Qed.
Hint Resolve get_context_keeps_memories : keeps.

Lemma initialize_keeps_memories g :
  keeps game_memories (_initialize_game_vector_store sv g).
Proof. unfold _initialize_game_vector_store. keeps_memories. Qed.
Hint Resolve initialize_keeps_memories : keeps.

Lemma get_vector_memory_keeps_memories g :
  keeps game_memories (get_vector_memory sv g).
Proof. unfold get_vector_memory. keeps_memories. Qed.
Hint Resolve get_vector_memory_keeps_memories : keeps.

Lemma search_keeps_memories g q k :
  keeps game_memories (search_relevant_context sv g q k).
Proof. unfold search_relevant_context. keeps_memories. Qed.
Hint Resolve search_keeps_memories : keeps.

Lemma add_scenario_data_keeps_memories g c s r i :
  keeps game_memories (add_scenario_data sv g c s r i).
Proof. unfold add_scenario_data. keeps_memories. Qed.
Hint Resolve add_scenario_data_keeps_memories : keeps.

Lemma get_conversation_docs_keeps_memories store :
  keeps game_memories (get_conversation_docs sv store).
Proof. unfold get_conversation_docs. keeps_memories. Qed.
Hint Resolve get_conversation_docs_keeps_memories : keeps.

Lemma prepare_keeps_memories g :
  keeps game_memories (_prepare_game_context sv g).
Proof. unfold _prepare_game_context. keeps_memories. Qed.
Hint Resolve prepare_keeps_memories : keeps.

Lemma update_character_keeps_memories g d :
  keeps game_memories (_update_character_info sv g d).
Proof. unfold _update_character_info. keeps_memories. Qed.
Hint Resolve update_character_keeps_memories : keeps.

Lemma handle_death_keeps_memories g c a d :
  keeps game_memories (_handle_character_death sv g c a d).
Proof. unfold _handle_character_death. keeps_memories. Qed.
Hint Resolve handle_death_keeps_memories : keeps.

Lemma parse_response_keeps_memories r :
  keeps game_memories (parse_response sv r).
Proof. unfold parse_response. keeps_memories. Qed.
Hint Resolve parse_response_keeps_memories : keeps.

Lemma character_update_keeps_memories g u rd :
  keeps game_memories (character_update sv g u rd).
Proof. unfold character_update. keeps_memories. Qed.
Hint Resolve character_update_keeps_memories : keeps.

Lemma read_all_conversations_keeps_memories g :
  keeps game_memories (read_all_conversations sv g).
Proof. unfold read_all_conversations. keeps_memories. Qed.
Hint Resolve read_all_conversations_keeps_memories : keeps.

Lemma ask_model_keeps_memories g u : keeps game_memories (ask_model sv g u).
Proof. unfold ask_model. keeps_memories. Qed.

Lemma add_user_input_keeps_memories g u :
  keeps game_memories (_add_user_input_to_vector_storage sv g u).
Proof. unfold _add_user_input_to_vector_storage. keeps_memories. Qed.

Lemma add_ai_response_keeps_memories g m i :
  keeps game_memories (_add_ai_response_to_vector_storage sv g m i).
Proof. unfold _add_ai_response_to_vector_storage. keeps_memories. Qed.

End memory_frame.


(** ** Running the steps of a request *)

Lemma now_run sv w : now sv w = (Ok (now_iso sv (clock_reads w)), tick w).
Proof. reflexivity. Qed.

Lemma logger_run l msg w : logger l msg w = (Ok tt, add_log l msg w).
Proof. reflexivity. Qed.

Lemma log_timing_run step w :
  log_timing step w = (Ok tt, add_log INFO ("[TIMING] " +:+ step) w).
Proof. reflexivity. Qed.

Lemma pair_of_fst {A B} (p : A * B) (a : A) : p.1 = a -> p = (a, p.2).
Proof. destruct p. simpl. by intros ->. Qed.

Lemma set_vector_stores_same g store w :
  vector_stores w !! g = Some store ->
  set_vector_stores <[g := store]> w = w.
Proof.
  intros Hs. destruct w. unfold set_vector_stores. simpl in *.
  by rewrite insert_id.
Qed.

(** ** The vector stores during a request *)

Ltac keeps_stores :=
  repeat first
    [ solve [auto with keeps_stores] | keeps_step | keeps_cases ].

Create HintDb keeps_stores.

Section store_frame.
Context (sv : services).

Lemma logger_keeps_stores l msg : keeps vector_stores (logger l msg).
Proof. unfold logger. keeps_auto. Qed.
Hint Resolve logger_keeps_stores : keeps_stores.

Lemma log_timing_keeps_stores step : keeps vector_stores (log_timing step).
Proof. unfold log_timing. auto with keeps_stores. Qed.
Hint Resolve log_timing_keeps_stores : keeps_stores.

Lemma now_keeps_stores : keeps vector_stores (now sv).
Proof. unfold now. keeps_auto. Qed.
Hint Resolve now_keeps_stores : keeps_stores.

Lemma http_keeps_stores r : keeps vector_stores (http sv r).
Proof. unfold http. keeps_auto. Qed.
Hint Resolve http_keeps_stores : keeps_stores.

Lemma set_context_keeps_stores g k v : keeps vector_stores (set_context g k v).
Proof. unfold set_context. keeps_auto. Qed.
Hint Resolve set_context_keeps_stores : keeps_stores.

Lemma get_context_keeps_stores g k : keeps vector_stores (get_context g k).
Proof. unfold get_context. keeps_auto. Qed.
Hint Resolve get_context_keeps_stores : keeps_stores.

Lemma add_message_keeps_stores g u m :
  keeps vector_stores (add_message sv g u m).
Proof. unfold add_message. keeps_stores. Qed.

Lemma update_character_keeps_stores g d :
  keeps vector_stores (_update_character_info sv g d).
Proof. unfold _update_character_info. keeps_stores. Qed.

Lemma parse_response_keeps_stores r :
  keeps vector_stores (parse_response sv r).
Proof. unfold parse_response. keeps_stores. Qed.

Lemma prepare_keeps_stores g : keeps vector_stores (_prepare_game_context sv g).
Proof. unfold _prepare_game_context. keeps_stores. Qed.

(** The language model is called by [process_game_request] and by
    [_handle_character_death] only. *)
Lemma prepare_keeps_llm_calls g : keeps llm_calls (_prepare_game_context sv g).
Proof. unfold _prepare_game_context, http, set_context, logger. keeps_auto. Qed.

Lemma update_character_keeps_llm_calls g d :
  keeps llm_calls (_update_character_info sv g d).
Proof.
  unfold _update_character_info, get_context, http, set_context, logger.
  keeps_auto.
Qed.

Lemma parse_response_keeps_llm_calls r :
  keeps llm_calls (parse_response sv r).
Proof. unfold parse_response, logger. keeps_auto. Qed.

(** [get_vector_memory] gives the game a handle, or raises. *)
Lemma get_vector_memory_run g w :
  get_vector_memory sv g w =
    match vector_stores w !! g with
    | Some _ => (Ok tt, w)
    | None =>
        match chroma_open sv g with
        | Ok docs => (Ok tt, set_vector_stores <[g := docs]> w)
        | Raise e =>
            (Raise e,
             add_log ERROR ("Failed to initialize vector store for " +:+ g
                            +:+ ": " +:+ str_exn sv e) w)
        end
    end.
Proof.
  unfold get_vector_memory, get_world, mbind, M_bind.
  destruct (vector_stores w !! g); [done|].
  unfold _initialize_game_vector_store. by destruct (chroma_open sv g).
Qed.

Lemma get_vector_memory_ready g w w' :
  get_vector_memory sv g w = (Ok tt, w') -> is_Some (vector_stores w' !! g).
Proof.
  rewrite get_vector_memory_run.
  destruct (vector_stores w !! g) as [store|] eqn:Hs.
  - intros [= <-]. by rewrite Hs.
  - destruct (chroma_open sv g) as [docs|e]; [|done].
    intros [= <-]. simpl. rewrite lookup_insert_eq. eauto.
Qed.

Lemma get_vector_memory_same g w store :
  vector_stores w !! g = Some store ->
  get_vector_memory sv g w = (Ok tt, w).
Proof. intros Hs. by rewrite get_vector_memory_run, Hs. Qed.

(** A search in a store that has a handle: the documents found, none when
    the search fails; one line is logged. *)
Lemma search_run g q k w store :
  vector_stores w !! g = Some store ->
  search_relevant_context sv g q k w =
    match similarity_search sv store q k with
    | Ok results =>
        (Ok results,
         add_log INFO ("Retrieved " +:+ pretty (length results)
                       +:+ " relevant documents for query: "
                       +:+ py_prefix 50 q +:+ "...") w)
    | Raise e =>
        (Ok [], add_log ERROR ("Error searching vector store: "
                               +:+ str_exn sv e) w)
    end.
Proof.
  intros Hs. unfold search_relevant_context.
  rewrite (bind_run _ _ _ tt w (get_vector_memory_same g w store Hs)).
  unfold get_world, mbind, M_bind. rewrite Hs.
  by destruct (similarity_search sv store q k).
Qed.

Lemma search_keeps_ready g q k w r w' store :
  vector_stores w !! g = Some store ->
  search_relevant_context sv g q k w = (r, w') ->
  vector_stores w' = vector_stores w.
Proof.
  intros Hs. rewrite (search_run _ _ _ _ _ Hs).
  destruct (similarity_search sv store q k); by intros [= _ <-].
Qed.

(** The read of lines 112-129: a store that holds a document is read, and
    a failure of the read is logged and leaves no conversation. *)
Lemma read_all_conversations_run g w :
  read_all_conversations sv g w =
    match vector_stores w !! g with
    | Some ((_ :: _) as store) =>
        match chroma_get_error sv store with
        | None => (Ok (all_conversations_of store), w)
        | Some e =>
            (Ok [], add_log WARNING ("ChromaDB 대화 조회 실패: "
                                     +:+ str_exn sv e) w)
        end
    | _ => (Ok [], w)
    end.
Proof.
  unfold read_all_conversations, get_world, mbind, M_bind.
  destruct (vector_stores w !! g) as [[|d store]|]; [done| |done].
  unfold try_except, get_conversation_docs, mbind, M_bind.
  by destruct (chroma_get_error sv (d :: store)).
Qed.

Lemma read_all_conversations_spec g w r w' :
  read_all_conversations sv g w = (r, w') ->
  vector_stores w' = vector_stores w /\ llm_calls w' = llm_calls w.
Proof.
  rewrite read_all_conversations_run.
  destruct (vector_stores w !! g) as [[|d store]|];
    [by intros [= _ <-]| |by intros [= _ <-]].
  destruct (chroma_get_error sv (d :: store)); by intros [= _ <-].
Qed.

End store_frame.

(** ** The hybrid context (claim C1) *)

Definition context_info_of (relevant_context : list vdoc) : string :=
  match relevant_context with
  | [] => ""
  | _ => join LF (map page_content relevant_context)
  end.

(** The documents a search of the store finds for the request. *)
Definition found_in sv (store : list vdoc) (user_input : string)
  : list vdoc :=
  match similarity_search sv store user_input 10 with
  | Ok results => results
  | Raise _ => []
  end.

(** The conversations a request reads from the store. *)
Definition read_from sv (store : list vdoc) : list conversation :=
  match store with
  | [] => []
  | _ =>
      match chroma_get_error sv store with
      | None => all_conversations_of store
      | Some _ => []
      end
  end.

(** The first part of a request, run: once the game context is prepared
    and the game has a store, the store is searched and read, and the
    chain is called once with the summary built from both. *)
Lemma ask_model_run sv g u w game_context w1 store :
  _prepare_game_context sv g w = (Ok game_context, w1) ->
  match vector_stores w !! g with
  | Some s => s = store
  | None => chroma_open sv g = Ok store
  end ->
  let relevant_context := found_in sv store u in
  let context_info := context_info_of relevant_context in
  let chat_summary :=
    chat_summary_of (read_from sv store) relevant_context context_info in
  exists w',
    ask_model sv g u w =
      (match gm_chain_run sv game_context chat_summary context_info u with
       | Ok gm_response => Ok (gm_response, relevant_context)
       | Raise e => Raise e
       end, w') /\
    vector_stores w' = <[g := store]> (vector_stores w) /\
    game_memories w' = game_memories w1 /\
    llm_calls w' =
      llm_calls w ++ [GmChainRun game_context chat_summary context_info u] /\
    (forall x, In x (logs w1) -> In x (logs w')) /\
    (store <> [] -> forall e, chroma_get_error sv store = Some e ->
       In (WARNING, "ChromaDB 대화 조회 실패: " +:+ str_exn sv e) (logs w')).
Proof.
  intros Hprep Hopen rel ci cs.
  pose proof (keeps_run vector_stores _ _ _ _ (prepare_keeps_stores sv g) Hprep)
    as Hv1.
  pose proof (keeps_run llm_calls _ _ _ _ (prepare_keeps_llm_calls sv g) Hprep)
    as Hc1.
  unfold ask_model. rewrite (bind_run _ _ _ _ _ Hprep).
  rewrite (bind_run _ _ _ tt _ (log_timing_run _ _)).
  set (w2 := add_log INFO _ w1).
  assert (Hget : get_vector_memory sv g w2
                 = (Ok tt, set_vector_stores <[g := store]> w2)).
  { rewrite get_vector_memory_run. subst w2. cbn [vector_stores add_log].
    rewrite Hv1. destruct (vector_stores w !! g) as [s|] eqn:Hs.
    - subst s. rewrite set_vector_stores_same; [done|]. simpl. by rewrite Hv1.
    - by rewrite Hopen. }
  rewrite (bind_run _ _ _ tt _ Hget).
  set (w3 := set_vector_stores _ w2).
  assert (Hs3 : vector_stores w3 !! g = Some store).
  { subst w3. simpl. apply lookup_insert_eq. }
  rewrite (bind_run _ _ _ rel
             (add_log match similarity_search sv store u 10 with
                      | Ok _ => INFO
                      | Raise _ => ERROR
                      end
                match similarity_search sv store u 10 with
                | Ok results =>
                    "Retrieved " +:+ pretty (length results)
                    +:+ " relevant documents for query: "
                    +:+ py_prefix 50 u +:+ "..."
                | Raise e => "Error searching vector store: " +:+ str_exn sv e
                end w3)).
  2: { rewrite (search_run sv _ _ _ _ _ Hs3). subst rel. unfold found_in.
       by destruct (similarity_search sv store u 10). }
  set (w4 := add_log _ _ w3).
  rewrite (bind_run _ _ _ tt _ (log_timing_run _ _)).
  rewrite (bind_run _ _ _ tt _ (log_timing_run _ _)).
  set (w6 := add_log INFO _ (add_log INFO _ w4)).
  assert (Hs6 : vector_stores w6 !! g = Some store) by exact Hs3.
  assert (Hread : exists w7,
            read_all_conversations sv g w6 = (Ok (read_from sv store), w7) /\
            vector_stores w7 = vector_stores w6 /\
            game_memories w7 = game_memories w6 /\
            llm_calls w7 = llm_calls w6 /\
            (forall x, In x (logs w6) -> In x (logs w7)) /\
            (store <> [] -> forall e, chroma_get_error sv store = Some e ->
               In (WARNING, "ChromaDB 대화 조회 실패: " +:+ str_exn sv e)
                  (logs w7))).
  { rewrite read_all_conversations_run, Hs6. unfold read_from.
    destruct store as [|d store]; [eexists; split_and!; done|].
    destruct (chroma_get_error sv (d :: store)) as [e|].
    - eexists. split_and!; try done.
      + intros x Hx. simpl. apply in_or_app. by left.
      + intros _ e' [= <-]. simpl. apply in_or_app. right. by left.
    - eexists. split_and!; done. }
  destruct Hread as (w7 & Hread & Hv7 & Hm7 & Hc7 & Hl7 & Hw7).
  rewrite (bind_run _ _ _ _ _ Hread).
  rewrite (bind_run _ _ _ tt _ (log_timing_run _ _)).
  rewrite (bind_run _ _ _ tt _ (logger_run _ _ _)).
  rewrite (bind_run _ _ _ tt _ (update_run _ _)).
  subst cs ci. unfold context_info_of, lift, mbind, M_bind.
  assert (Hlogs : forall x, In x (logs w1) -> In x (logs w7)).
  { intros x Hx. apply Hl7. subst w6 w4 w3 w2. simpl.
    repeat (apply in_or_app; left). done. }
  match goal with |- context [gm_chain_run sv ?a ?b ?c ?d] =>
    destruct (gm_chain_run sv a b c d) as [reply|err] end.
  - eexists. split; [reflexivity|]. simpl. rewrite Hv7, Hm7, Hc7.
    split_and!; try done.
    + subst w6 w4 w3 w2. simpl. by rewrite Hv1.
    + subst w6 w4 w3 w2. simpl. by rewrite Hc1.
    + intros x Hx. repeat (apply in_or_app; left). auto.
    + intros Hne e0 He. repeat (apply in_or_app; left). eauto.
  - eexists. split; [reflexivity|]. simpl. rewrite Hv7, Hm7, Hc7.
    split_and!; try done.
    + subst w6 w4 w3 w2. simpl. by rewrite Hv1.
    + subst w6 w4 w3 w2. simpl. by rewrite Hc1.
    + intros x Hx. repeat (apply in_or_app; left). auto.
    + intros Hne e0 He. repeat (apply in_or_app; left). eauto.
Qed.


Lemma ask_model_store sv g u w x w' :
  ask_model sv g u w = (Ok x, w') ->
  exists game_context w1 store,
    _prepare_game_context sv g w = (Ok game_context, w1) /\
    match vector_stores w !! g with
    | Some s => s = store
    | None => chroma_open sv g = Ok store
    end.
Proof.
  unfold ask_model. intros H.
  apply bind_Ok in H as (game_context & w1 & Hprep & H).
  apply bind_Ok in H as ([] & w2 & Hl & H). injection Hl as <-.
  apply bind_Ok in H as ([] & w3 & Hget & _).
  rewrite get_vector_memory_run in Hget. cbn [vector_stores add_log] in Hget.
  rewrite (keeps_run vector_stores _ _ _ _ (prepare_keeps_stores sv g) Hprep)
    in Hget.
  destruct (vector_stores w !! g) as [s|]; [by exists game_context, w1, s|].
  destruct (chroma_open sv g) as [docs|e]; [|done].
  by exists game_context, w1, docs.
Qed.

Lemma ask_model_ready sv g u x w w' :
  ask_model sv g u w = (Ok x, w') -> is_Some (vector_stores w' !! g).
Proof.
  intros H.
  destruct (ask_model_store _ _ _ _ _ _ H) as (gc & w1 & store & Hprep & Hs).
  destruct (ask_model_run sv g u w gc w1 store Hprep Hs)
    as (w2 & Hrun & Hv & _).
  rewrite Hrun in H. injection H as _ <-. rewrite Hv, lookup_insert_eq. eauto.
Qed.

(** C1, as amended.  The hybrid context uses the fixed threshold 10.
    Whenever [process_game_request] reaches the language model, the game
    has a store; the search results are the documents a similarity search
    of this store finds for the user input with k = 10 (none when the
    search fails); [all] is the list of the conversation documents of the
    store, sorted by (timestamp, sequence) - and the empty list when the
    store holds no document or its read fails, a failure that is logged
    as a warning.  The chain is called once, with a chat summary that is:
    - if [all] has more than 10 entries: the vector-search part (a header
      and the texts of the search results, left out when nothing was
      found), then the header of the recent turns and the texts of exactly
      the 10 last entries of [all], verbatim and in order; every older
      entry sorts before every one of these 10 and appears in the summary
      only if the search found it;
    - if [all] has 10 entries or fewer: a header and the texts of all of
      them, verbatim and in order, or the new-session sentence when there
      is none; the search results are not in the summary.
    The threshold is the constant [RECENT_LIMIT = 10]. *)
Theorem hybrid_context_threshold sv game_id user_input w gm_response
  relevant_context w' :
  ask_model sv game_id user_input w = (Ok (gm_response, relevant_context), w') ->
  exists game_context store chat_summary,
    let context_info := context_info_of relevant_context in
    let all :=
      match store with
      | [] => []
      | _ =>
          match chroma_get_error sv store with
          | None =>
              PySort.sort conversation_le
                (map to_conversation (conversation_docs store))
          | Some _ => []
          end
      end in
    vector_stores w' !! game_id = Some store /\
    relevant_context =
      match similarity_search sv store user_input 10 with
      | Ok results => results
      | Raise _ => []
      end /\
    llm_calls w' =
      llm_calls w ++
      [GmChainRun game_context chat_summary context_info user_input] /\
    gm_chain_run sv game_context chat_summary context_info user_input
      = Ok gm_response /\
    RECENT_LIMIT = 10 /\
    (10 < length all ->
       let old := take (length all - 10) all in
       let recent := drop (length all - 10) all in
       all = old ++ recent /\ length recent = 10 /\
       (forall o r, In o old -> In r recent -> conversation_le o r = true) /\
       chat_summary =
         join LF
           (match relevant_context with
            | [] => []
            | _ => ["[과거 관련 대화 (벡터 검색)]" +:+ LF +:+ context_info +:+ LF]
            end ++
            ["[최근 대화 (10턴)]" +:+ LF +:+ join LF (map content recent)])) /\
    (length all <= 10 ->
       chat_summary =
         match all with
         | [] => "새로운 게임 세션입니다."
         | _ => "[대화 내역 (" +:+ pretty (length all) +:+ "턴)]" +:+ LF
                  +:+ join LF (map content all)
         end) /\
    (store <> [] -> forall e, chroma_get_error sv store = Some e ->
       In (WARNING, "ChromaDB 대화 조회 실패: " +:+ str_exn sv e) (logs w')).
Proof.
  intros H.
  destruct (ask_model_store _ _ _ _ _ _ H) as (gc & w1 & store & Hprep & Hs).
  destruct (ask_model_run sv game_id user_input w gc w1 store Hprep Hs)
    as (w2 & Hrun & Hv & _ & Hcalls & _ & Hwarn).
  rewrite Hrun in H.
  destruct (gm_chain_run sv gc _ _ user_input) as [reply|e] eqn:Hchain;
    [|done].
  injection H as <- <- <-.
  exists gc, store,
    (chat_summary_of (read_from sv store) (found_in sv store user_input)
       (context_info_of (found_in sv store user_input))).
  cbn zeta. fold (all_conversations_of store). fold (read_from sv store).
  set (all := read_from sv store). set (rel := found_in sv store user_input).
  split_and!; try done.
  - by rewrite Hv, lookup_insert_eq.
  - intros Hlen. split_and!.
    + by rewrite take_drop.
    + rewrite length_drop. lia.
    + assert (Hsorted : StronglySorted (PySort.le_prop conversation_le)
                          (take (length all - 10) all
                           ++ drop (length all - 10) all)).
      { rewrite take_drop. subst all. unfold read_from.
        destruct store; [constructor|].
        destruct (chroma_get_error sv _);
          [constructor|apply all_conversations_sorted]. }
      apply (PySort.strongly_sorted_split _ _ _ Hsorted).
    + unfold chat_summary_of.
      rewrite (chat_summary_parts_many all rel _ Hlen).
      unfold vector_part, last_n, recent_header. by destruct rel.
  - intros Hlen. unfold chat_summary_of.
    rewrite (chat_summary_parts_few all rel _ Hlen).
    destruct all; [done|]. simpl. done.
Qed.

(** [sv] with another Chroma: what a search finds, and the failure of a
    read. *)
Definition with_chroma
  (search : list vdoc -> string -> nat -> except (list vdoc))
  (get_error : list vdoc -> option exn) (sv : services) : services :=
  {| json_loads := json_loads sv;
     py_str := py_str sv;
     json_dumps := json_dumps sv;
     str_exn := str_exn sv;
     format_exc := format_exc sv;
     random_index := random_index sv;
     now_iso := now_iso sv;
     gm_chain_run := gm_chain_run sv;
     llm_invoke := llm_invoke sv;
     http_get := http_get sv;
     http_patch := http_patch sv;
     base_url := base_url sv;
     chroma_open := chroma_open sv;
     similarity_search := search;
     chroma_get_error := get_error;
     chroma_add_error := chroma_add_error sv;
     split_text := split_text sv;
     content_ok := content_ok sv |}.

(** A turn of game [g1]. *)
Definition turn (n : nat) : vdoc :=
  {| page_content := "turn " +:+ pretty n; doc_type := "conversation";
     doc_source := "user_input"; doc_game_id := "g1";
     doc_role := Some "user";
     doc_timestamp := Some ("2025-01-01T00:" +:+ pretty (10 + n));
     doc_sequence_number := None; doc_chunk_id := Some 0;
     doc_image_url := None |}.

(** A state in which the store of game [g1] holds the given documents. *)
Definition stored (docs : list vdoc) : world :=
  {| game_memories := ∅; session_contexts := ∅;
     vector_stores := {[ "g1" := docs ]};
     requests_sent := []; llm_calls := []; logs := []; clock_reads := 0 |}.

(** Twelve turns in the store of game [g1], the latest first. *)
Definition twelve_turns : world := stored (map turn (rev (seq 0 12))).

(** Twelve turns are stored and the search finds the first one: the
    summary is the text found, then the ten last turns. *)
Lemma hybrid_context_threshold_witness :
  let sv := with_chroma (fun store _ _ => Ok (List.filter
                           (fun d => String.eqb (page_content d) "turn 0")
                           store))
              (fun _ => None)
              (demo "{...}" (Ok narration) JNull (Ok "") None) in
  let run := ask_model sv "g1" "look" twelve_turns in
  run.1 = Ok ("{...}", [turn 0]) /\
  exists game_context,
    llm_calls run.2 =
      [GmChainRun game_context
         (join LF ["[과거 관련 대화 (벡터 검색)]"; "turn 0"; "";
                   "[최근 대화 (10턴)]"; "turn 2"; "turn 3"; "turn 4";
                   "turn 5"; "turn 6"; "turn 7"; "turn 8"; "turn 9";
                   "turn 10"; "turn 11"])
         "turn 0" "look"].
Proof.
  intros sv run.
  assert (E : run = (Ok ("{...}", [turn 0]), run.2)).
  { apply pair_of_fst. by vm_compute. }
  split; [by rewrite E|].
  destruct (hybrid_context_threshold sv "g1" "look" twelve_turns _ _ _ E)
    as (game_context & store & chat_summary & Hs & _ & Hcalls & _ & _ &
        Hmany & _).
  assert (store = map turn (rev (seq 0 12))) as ->.
  { assert (Hl : vector_stores run.2 !! "g1" = Some (map turn (rev (seq 0 12))))
      by (by vm_compute).
    congruence. }
  exists game_context. rewrite Hcalls.
  destruct Hmany as (_ & _ & _ & ->); [vm_compute; lia|].
  by vm_compute.
Defined.

(** C1 as stated fails: two conversation entries are stored, but the read
    of the store fails; the failure is logged, and the summary passed to
    the model is the new-session sentence, with neither entry in it. *)
Lemma unread_conversations_left_out :
  let sv := with_chroma (fun _ _ _ => Ok [])
              (fun _ => Some (OtherException "chroma down"))
              (demo "{...}" (Ok narration) JNull (Ok "") None) in
  let store := [turn 0; turn 1] in
  let run := process_game_request sv "g1" "look" (stored store) in
  length (conversation_docs store) = 2 /\
  (exists result, run.1 = Ok (JDict result) /\
                  dict_get "success" result = Some (JBool true)) /\
  In (WARNING, "ChromaDB 대화 조회 실패: chroma down") (logs run.2) /\
  exists game_context chat_summary,
    llm_calls run.2 = [GmChainRun game_context chat_summary "" "look"] /\
    chat_summary = "새로운 게임 세션입니다." /\
    str_contains "turn 0" chat_summary = false /\
    str_contains "turn 1" chat_summary = false.
Proof.
  intros sv store run. split_and!.
  - reflexivity.
  - eexists. split; by vm_compute.
  - vm_compute. tauto.
  - eexists _, _. split; [by vm_compute|]. by vm_compute.
Qed.


(** ** The death handling, run *)

(** The store [_handle_character_death] reads: the one of the game when
    it holds a document, a store initialised anew otherwise. *)
Definition death_store sv (g : string) (w : world) : except (list vdoc) :=
  match vector_stores w !! g with
  | Some ((_ :: _) as store) => Ok store
  | _ => chroma_open sv g
  end.

(** The prompt of the additional call, for a character record. *)
Definition death_prompt_for sv (ch : list (string * json))
  (store : list vdoc) (final_action : string) (death_context : json)
  : string :=
  death_prompt_of sv
    (default (JStr "알 수 없음") (dict_get "name" ch))
    (default (JStr "알 수 없음") (dict_get "class" ch))
    (default (JInt 1) (dict_get "level" ch))
    (join LF (map entry_content (last_n 20 (conversation_history_of store))))
    final_action death_context.

Lemma handle_character_death_run sv g ch u m w :
  exists result w',
    _handle_character_death sv g (JDict ch) u m w = (Ok (JDict result), w') /\
    dict_get "success" result = Some (JBool true) /\
    dict_get "options" result = Some (JList []) /\
    dict_get "need_image" result = Some (JBool false) /\
    dict_get "game_over" result = Some (JBool true) /\
    match death_store sv g w with
    | Ok store =>
        vector_stores w' = <[g := store]> (vector_stores w) /\
        match chroma_get_error sv store with
        | None =>
            let prompt := death_prompt_for sv ch store u m in
            llm_calls w' = llm_calls w ++ [LlmInvoke prompt] /\
            match llm_invoke sv prompt with
            | Ok death_summary =>
                dict_get "message" result =
                  Some (JStr (final_message_of sv
                                (default (JStr "모험가") (dict_get "name" ch))
                                death_summary
                                (default (JInt 0) (dict_get "maxHealth" ch)))) /\
                dict_get "character_death" result = Some (JBool true)
            | Raise e =>
                dict_get "message" result =
                  Some (JStr (fallback_death_message sv
                                (default (JStr "캐릭터") (dict_get "name" ch)))) /\
                In (ERROR, "죽음 처리 중 에러: " +:+ str_exn sv e) (logs w')
            end
        | Some e =>
            llm_calls w' = llm_calls w /\
            dict_get "message" result =
              Some (JStr (fallback_death_message sv
                            (default (JStr "캐릭터") (dict_get "name" ch)))) /\
            In (ERROR, "죽음 처리 중 에러: " +:+ str_exn sv e) (logs w')
        end
    | Raise e =>
        vector_stores w' = vector_stores w /\
        llm_calls w' = llm_calls w /\
        dict_get "message" result =
          Some (JStr (fallback_death_message sv
                        (default (JStr "캐릭터") (dict_get "name" ch)))) /\
        In (ERROR, "죽음 처리 중 에러: " +:+ str_exn sv e) (logs w')
    end.
Proof.
  unfold _handle_character_death, try_except.
  match goal with
  | |- context [match mbind (fun w0 => mbind (fun _ : unit => ?rest) _)
                        get_world w with _ => _ end] =>
      set (tail := rest)
  end.
  (* the part that reads the store of the game and asks the model *)
  assert (Htail : forall w2 store,
            vector_stores w2 !! g = Some store ->
            match chroma_get_error sv store with
            | Some e => tail w2 = (Raise e, w2)
            | None =>
                let prompt := death_prompt_for sv ch store u m in
                match llm_invoke sv prompt with
                | Ok death_summary =>
                    exists result w',
                      tail w2 = (Ok (JDict result), w') /\
                      vector_stores w' = vector_stores w2 /\
                      llm_calls w' = llm_calls w2 ++ [LlmInvoke prompt] /\
                      dict_get "success" result = Some (JBool true) /\
                      dict_get "options" result = Some (JList []) /\
                      dict_get "need_image" result = Some (JBool false) /\
                      dict_get "game_over" result = Some (JBool true) /\
                      dict_get "message" result =
                        Some (JStr (final_message_of sv
                                      (default (JStr "모험가")
                                         (dict_get "name" ch))
                                      death_summary
                                      (default (JInt 0)
                                         (dict_get "maxHealth" ch)))) /\
                      dict_get "character_death" result = Some (JBool true)
                | Raise e =>
                    tail w2 = (Raise e, add_llm_call (LlmInvoke prompt) w2)
                end
            end).
  { intros w2 store Hs2. subst tail.
    rewrite (bind_run get_world _ w2 w2 w2 eq_refl). cbn beta.
    rewrite Hs2. rewrite (bind_run _ _ _ store w2 eq_refl).
    unfold get_conversation_docs.
    destruct (chroma_get_error sv store) as [e|]; [reflexivity|].
    rewrite (bind_run _ _ _ (conversation_docs store) w2 eq_refl).
    cbn zeta beta. unfold death_prompt_for, conversation_history_of.
    unfold lift, update, mbind, M_bind. cbn [py_get]. cbn beta iota.
    match goal with |- match llm_invoke sv ?p with _ => _ end =>
      destruct (llm_invoke sv p) as [death_summary|e] end; [|reflexivity].
    eexists _, _. split; [reflexivity|]. split_and!; done. }
  (* what is done with the outcome of that part *)
  assert (Hend : forall w2 store,
            vector_stores w2 !! g = Some store ->
            llm_calls w2 = llm_calls w ->
            vector_stores w2 = <[g := store]> (vector_stores w) ->
            exists result w',
              match tail w2 with
              | (Ok a, w') => (Ok a, w')
              | (Raise e, w') =>
                  if Exception e
                  then (logger ERROR ("죽음 처리 중 에러: " +:+ str_exn sv e);;
                        name ← lift (py_get (JDict ch) "name" (JStr "캐릭터"));
                        ts ← now sv;
                        mret (JDict [("success", JBool true);
                                     ("message",
                                      JStr (fallback_death_message sv name));
                                     ("options", JList []);
                                     ("need_image", JBool false);
                                     ("game_over", JBool true);
                                     ("timestamp", JStr ts)])) w'
                  else (Raise e, w')
              end = (Ok (JDict result), w') /\
              dict_get "success" result = Some (JBool true) /\
              dict_get "options" result = Some (JList []) /\
              dict_get "need_image" result = Some (JBool false) /\
              dict_get "game_over" result = Some (JBool true) /\
              vector_stores w' = <[g := store]> (vector_stores w) /\
              match chroma_get_error sv store with
              | None =>
                  let prompt := death_prompt_for sv ch store u m in
                  llm_calls w' = llm_calls w ++ [LlmInvoke prompt] /\
                  match llm_invoke sv prompt with
                  | Ok death_summary =>
                      dict_get "message" result =
                        Some (JStr (final_message_of sv
                                      (default (JStr "모험가")
                                         (dict_get "name" ch))
                                      death_summary
                                      (default (JInt 0)
                                         (dict_get "maxHealth" ch)))) /\
                      dict_get "character_death" result = Some (JBool true)
                  | Raise e =>
                      dict_get "message" result =
                        Some (JStr (fallback_death_message sv
                                      (default (JStr "캐릭터")
                                         (dict_get "name" ch)))) /\
                      In (ERROR, "죽음 처리 중 에러: " +:+ str_exn sv e)
                         (logs w')
                  end
              | Some e =>
                  llm_calls w' = llm_calls w /\
                  dict_get "message" result =
                    Some (JStr (fallback_death_message sv
                                  (default (JStr "캐릭터")
                                     (dict_get "name" ch)))) /\
                  In (ERROR, "죽음 처리 중 에러: " +:+ str_exn sv e) (logs w')
              end).
  { intros w2 store Hs2 Hc2 Hv2. specialize (Htail w2 store Hs2).
    destruct (chroma_get_error sv store) as [e|].
    - rewrite Htail. cbn [Exception].
      eexists _, _. split; [reflexivity|]. split_and!; try done.
      simpl. apply in_or_app. right. by left.
    - cbn zeta in Htail. cbn zeta.
      destruct (llm_invoke sv _) as [death_summary|e].
      + destruct Htail as (result & w' & -> & Hv & Hc & Hrest).
        exists result, w'. rewrite Hv, Hc, Hc2. split_and!; try tauto.
      + rewrite Htail. cbn [Exception].
        eexists _, _. split; [reflexivity|]. split_and!; try done.
        * simpl. by rewrite Hc2.
        * simpl. apply in_or_app. right. by left. }
  unfold death_store.
  rewrite (bind_run get_world _ w w w eq_refl). cbn beta.
  assert (Hinit : (exists d rest, vector_stores w !! g = Some (d :: rest)) \/
                  match vector_stores w !! g with
                  | Some (_ :: _) => False
                  | _ => True
                  end).
  { destruct (vector_stores w !! g) as [[|d rest]|]; eauto. }
  destruct Hinit as [(d & rest & Hs)|Hinit].
  - rewrite Hs. rewrite (bind_run _ _ _ tt w eq_refl).
    destruct (Hend w (d :: rest) Hs eq_refl) as (result & w' & Hrun & Hrest).
    { by rewrite insert_id. }
    exists result, w'. split; [exact Hrun|]. tauto.
  - assert (Hopen : match vector_stores w !! g with
                    | Some (_ :: _) => mret tt
                    | _ => _initialize_game_vector_store sv g
                    end = _initialize_game_vector_store sv g).
    { by destruct (vector_stores w !! g) as [[|d rest]|]. }
    rewrite Hopen.
    assert (Hstore : match vector_stores w !! g with
                     | Some ((_ :: _) as store) => Ok store
                     | _ => chroma_open sv g
                     end = chroma_open sv g).
    { by destruct (vector_stores w !! g) as [[|d rest]|]. }
    rewrite Hstore. clear Hopen Hstore.
    unfold _initialize_game_vector_store.
    destruct (chroma_open sv g) as [docs|e].
    + rewrite (bind_run _ _ _ tt _ (update_run _ _)).
      destruct (Hend (set_vector_stores <[g := docs]> w) docs)
        as (result & w' & Hrun & Hrest);
        [apply lookup_insert_eq|done|done|].
      exists result, w'. split; [exact Hrun|]. tauto.
    + unfold mbind at 1 2, M_bind at 1 2. cbn [logger update raise].
      cbn beta iota. cbn [Exception].
      eexists _, _. split; [reflexivity|]. split_and!; try done.
      simpl. apply in_or_app. right. by left.
Qed.


(** ** Sorted dialogue (claim C5) *)

Lemma sorted_weaken {A} (R1 R2 : A -> A -> Prop) l :
  (forall a b, R1 a b -> R2 a b) -> Sorted R1 l -> Sorted R2 l.
Proof.
  intros HR. induction 1 as [|x l Hs IH Hhd]; constructor; [done|].
  destruct Hhd; constructor. auto.
Qed.

(** C5, as amended.  The dialogue lists are sorted before they are used.
    - In [process_game_request], the list from which the chat summary
      passed to the model is built is the list of the conversation
      documents of the game's store (none when the store holds no
      document or its read fails), sorted by (timestamp, sequence), hence
      by timestamp, oldest first.
    - In [_handle_character_death], whenever the model is asked for the
      summary, the history in the prompt is made of the texts of the 20
      last entries of the list of the conversation documents of the
      game's store, sorted by timestamp, oldest first.
    - The chat history that [get_chat_history] reads from MongoDB is
      sorted by sequence number, lowest first. *)
Theorem dialogue_lists_sorted sv :
  (forall game_id user_input w gm_response relevant_context w',
     ask_model sv game_id user_input w
       = (Ok (gm_response, relevant_context), w') ->
     exists game_context store all,
       vector_stores w' !! game_id = Some store /\
       all = match store with
             | [] => []
             | _ =>
                 match chroma_get_error sv store with
                 | None =>
                     PySort.sort conversation_le
                       (map to_conversation (conversation_docs store))
                 | Some _ => []
                 end
             end /\
       Sorted (fun a b => String.leb (timestamp a) (timestamp b) = true) all /\
       llm_calls w' =
         llm_calls w ++
         [GmChainRun game_context
            (chat_summary_of all relevant_context
               (context_info_of relevant_context))
            (context_info_of relevant_context) user_input]) /\
  (forall game_id ch final_action death_context w r w',
     _handle_character_death sv game_id (JDict ch) final_action death_context w
       = (r, w') ->
     llm_calls w' <> llm_calls w ->
     exists store history,
       vector_stores w' !! game_id = Some store /\
       history = PySort.sort death_entry_le
                   (map to_death_entry (conversation_docs store)) /\
       Permutation history (map to_death_entry (conversation_docs store)) /\
       Sorted (fun a b =>
                 String.leb (entry_timestamp a) (entry_timestamp b) = true)
         history /\
       llm_calls w' =
         llm_calls w ++
         [LlmInvoke
            (death_prompt_of sv
               (default (JStr "알 수 없음") (dict_get "name" ch))
               (default (JStr "알 수 없음") (dict_get "class" ch))
               (default (JInt 1) (dict_get "level" ch))
               (join LF (map entry_content (drop (length history - 20) history)))
               final_action death_context)]) /\
  (forall g limit c,
     Sorted (fun a b => (Mongo.sequence_number a <= Mongo.sequence_number b)%Z)
       (Mongo.get_chat_history g limit c)).
Proof.
  split_and!.
  - intros game_id user_input w gm_response relevant_context w' H.
    destruct (ask_model_store _ _ _ _ _ _ H) as (gc & w1 & store & Hprep & Hs).
    destruct (ask_model_run sv game_id user_input w gc w1 store Hprep Hs)
      as (w2 & Hrun & Hv & _ & Hcalls & _).
    rewrite Hrun in H.
    destruct (gm_chain_run sv gc _ _ user_input) as [reply|e]; [|done].
    injection H as <- <- <-.
    exists gc, store, (read_from sv store). split_and!.
    + by rewrite Hv, lookup_insert_eq.
    + reflexivity.
    + unfold read_from. destruct store; [constructor|].
      destruct (chroma_get_error sv _); [constructor|].
      eapply sorted_weaken; [apply conversation_le_timestamp|].
      apply PySort.sort_sorted, conversation_le_total.
    + exact Hcalls.
  - intros game_id ch final_action death_context w r w' H Hasked.
    destruct (handle_character_death_run sv game_id ch final_action
                death_context w)
      as (result & w2 & Hrun & _ & _ & _ & _ & Hcase).
    rewrite Hrun in H. injection H as _ <-.
    destruct (death_store sv game_id w) as [store|e];
      [|by destruct Hcase as (_ & ? & _)].
    destruct Hcase as [Hv Hcase].
    destruct (chroma_get_error sv store) as [e|];
      [by destruct Hcase as (? & _)|].
    destruct Hcase as [Hcalls _].
    exists store, (conversation_history_of store). split_and!.
    + by rewrite Hv, lookup_insert_eq.
    + reflexivity.
    + apply PySort.sort_perm.
    + apply PySort.sort_sorted, death_entry_le_total.
    + exact Hcalls.
  - apply Mongo.get_chat_history_sorted.
Qed.

(** Two messages stored while the clock was set back by a tenth of a
    second between them. *)
Definition clock_set_back : list Mongo.chat_doc :=
  [ Mongo.ChatDoc "g" 1 "look" "a door" 1700000000200;
    Mongo.ChatDoc "g" 2 "open" "it creaks" 1700000000100 ].

(** C5 as stated fails for [get_chat_history]: its result is in sequence
    order, which is not the order of the timestamps here. *)
Lemma chat_history_not_by_timestamp :
  Mongo.add_chat_message 1 "g" "look" "a door"
    (fun _ => 1700000000200000%Z) []
    = Some [Mongo.ChatDoc "g" 1 "look" "a door" 1700000000200] /\
  Mongo.add_chat_message 1 "g" "open" "it creaks"
    (fun _ => 1700000000100000%Z)
    [Mongo.ChatDoc "g" 1 "look" "a door" 1700000000200]
    = Some clock_set_back /\
  Mongo.reachable clock_set_back /\
  Mongo.get_chat_history "g" 20 clock_set_back = clock_set_back /\
  map Mongo.timestamp (Mongo.get_chat_history "g" 20 clock_set_back)
    = [1700000000200%Z; 1700000000100%Z] /\
  ~ Sorted (fun a b => (Mongo.timestamp a <= Mongo.timestamp b)%Z)
      (Mongo.get_chat_history "g" 20 clock_set_back).
Proof.
  split_and!.
  - reflexivity.
  - reflexivity.
  - eapply (Mongo.reach_add _ _ 1 "g" "open" "it creaks"
              (fun _ => 1700000000100000%Z)).
    + eapply (Mongo.reach_add _ _ 1 "g" "look" "a door"
                (fun _ => 1700000000200000%Z));
        [apply Mongo.reach_empty|reflexivity].
    + reflexivity.
  - reflexivity.
  - reflexivity.
  - change (Mongo.get_chat_history "g" 20 clock_set_back) with clock_set_back.
    intros Hs. inversion Hs as [|? ? _ Hhd]; subst.
    inversion Hhd as [|? ? Hle]; subst. simpl in Hle. lia.
Qed.


(** ** The death test (claim C10) *)

(** A JSON value that Python orders at or below 0. *)
Definition nonpositive (v : json) : Prop :=
  match v with
  | JInt z => (z <= 0)%Z
  | JFloat f => PrimFloat.leb f 0%float = true
  | JBool b => b = false
  | _ => False
  end.

Lemma py_le_zero_true v : py_le_zero v = Ok true <-> nonpositive v.
Proof.
  destruct v as [ |b|z|f|s|l|d]; simpl; try (split; [done|tauto]).
  - destruct b; simpl; split; congruence.
  - split; [intros [= H]; by apply Z.leb_le|].
    intros H. f_equal. by apply Z.leb_le.
  - split; [by intros [= ->]|by intros ->].
Qed.

Lemma health_depleted_dict ch :
  health_depleted (JDict ch) = Ok true <->
  exists health, dict_get "health" ch = Some health /\ nonpositive health.
Proof.
  unfold health_depleted. destruct ch as [|kv ch'].
  { simpl. split; [done|]. by intros (? & ? & _). }
  set (d := kv :: ch'). change (truthy (JDict d)) with true.
  cbn [py_get mbind except_bind].
  destruct (dict_get "health" d) as [health|]; cbn [default from_option id].
  - rewrite py_le_zero_true. split; [by exists health|].
    by intros (h' & [= <-] & ?).
  - simpl. split; [done|]. by intros (? & ? & _).
Qed.

Lemma character_update_Some sv game_id user_input response_data w
  death_response w' :
  character_update sv game_id user_input response_data w
    = (Ok (Some death_response), w') ->
  exists update_data updated_char w1 message,
    py_getitem response_data "update_character" = Ok (JDict update_data) /\
    _update_character_info sv game_id update_data w = (Ok updated_char, w1) /\
    health_depleted updated_char = Ok true /\
    py_getitem response_data "message" = Ok message /\
    _handle_character_death sv game_id updated_char user_input message w1
      = (Ok death_response, w').
Proof.
  intros H. unfold character_update in H.
  apply bind_Ok in H as (has & w0 & Hhas & H).
  apply lift_Ok in Hhas as [Hhas ->].
  destruct has; [|done].
  apply bind_Ok in H as (info & w0 & Hinfo & H).
  apply lift_Ok in Hinfo as [Hinfo ->].
  destruct info as [ | | | | | |[|entry entries]];
    try (apply bind_Ok in H as ([] & ? & _ & H); done).
  apply bind_Ok in H as (updated_char & w1 & Hupd & H).
  apply bind_Ok in H as (dead & w2 & Hdead & H).
  apply lift_Ok in Hdead as [Hdead ->].
  destruct dead; [|done].
  apply bind_Ok in H as (message & w2 & Hmsg & H).
  apply lift_Ok in Hmsg as [Hmsg ->].
  apply bind_Ok in H as (dr & w3 & Hdeath & H).
  injection H as <- <-.
  by exists (entry :: entries), updated_char, w1, message.
Qed.

(** With a message in the response, a depleted character is handed to
    [_handle_character_death]. *)
Lemma character_update_death sv g u rd entry entries message ch w w1 r w2 :
  dict_get "update_character" rd = Some (JDict (entry :: entries)) ->
  dict_get "message" rd = Some message ->
  _update_character_info sv g (entry :: entries) w = (Ok (JDict ch), w1) ->
  health_depleted (JDict ch) = Ok true ->
  _handle_character_death sv g (JDict ch) u message w1 = (Ok r, w2) ->
  character_update sv g u (JDict rd) w = (Ok (Some r), w2).
Proof.
  intros Hget Hmsg Hupd Hdead Hdeath.
  unfold character_update. cbn [py_contains lift].
  unfold dict_has, py_getitem. rewrite Hget, Hmsg.
  rewrite (bind_run _ _ _ true w eq_refl).
  rewrite (bind_run _ _ _ (JDict (entry :: entries)) w eq_refl).
  rewrite (bind_run _ _ _ _ _ Hupd).
  unfold lift at 1. rewrite Hdead.
  rewrite (bind_run _ _ _ true w1 eq_refl).
  rewrite (bind_run _ _ _ message w1 eq_refl).
  by rewrite (bind_run _ _ _ _ _ Hdeath).
Qed.

(** C10, as amended.  The death branch is taken exactly when the updated
    character has a health at or below 0 and the response of the model
    has a message.  For a character record [ch]: the test of line 205
    holds if and only if [ch] binds ['health'] to a value at or below 0; a
    record without ['health'] counts as health 1 and fails the test.  In
    [process_game_request], after an update that returns the record [ch]:
    - [_handle_character_death] produces the response only if the test
      holds;
    - if the test holds and the response has a message,
      [_handle_character_death] is called with it, and its result is the
      response;
    - if the test holds and the response has no message, reading the
      message raises [KeyError] before [_handle_character_death] is
      called: the death branch is not taken;
    - if the test fails, the death branch is left aside. *)
Theorem death_branch_iff sv game_id user_input :
  (forall ch,
     health_depleted (JDict ch) = Ok true <->
     exists health, dict_get "health" ch = Some health /\ nonpositive health) /\
  (forall ch,
     dict_get "health" ch = None -> health_depleted (JDict ch) = Ok false) /\
  (forall response_data w death_response w',
     character_update sv game_id user_input response_data w
       = (Ok (Some death_response), w') ->
     exists update_data updated_char w1 message,
       py_getitem response_data "update_character" = Ok (JDict update_data) /\
       _update_character_info sv game_id update_data w = (Ok updated_char, w1) /\
       health_depleted updated_char = Ok true /\
       py_getitem response_data "message" = Ok message /\
       _handle_character_death sv game_id updated_char user_input message w1
         = (Ok death_response, w')) /\
  (forall rd entry entries w ch w1 message,
     dict_get "update_character" rd = Some (JDict (entry :: entries)) ->
     _update_character_info sv game_id (entry :: entries) w
       = (Ok (JDict ch), w1) ->
     health_depleted (JDict ch) = Ok true ->
     dict_get "message" rd = Some message ->
     exists death_response w2,
       _handle_character_death sv game_id (JDict ch) user_input message w1
         = (Ok (JDict death_response), w2) /\
       dict_get "game_over" death_response = Some (JBool true) /\
       character_update sv game_id user_input (JDict rd) w
         = (Ok (Some (JDict death_response)), w2)) /\
  (forall rd entry entries w updated_char w1,
     dict_get "update_character" rd = Some (JDict (entry :: entries)) ->
     _update_character_info sv game_id (entry :: entries) w
       = (Ok updated_char, w1) ->
     health_depleted updated_char = Ok true ->
     dict_get "message" rd = None ->
     character_update sv game_id user_input (JDict rd) w
       = (Raise (KeyError "message"), w1)) /\
  (forall rd entry entries w updated_char w1,
     dict_get "update_character" rd = Some (JDict (entry :: entries)) ->
     _update_character_info sv game_id (entry :: entries) w
       = (Ok updated_char, w1) ->
     health_depleted updated_char = Ok false ->
     character_update sv game_id user_input (JDict rd) w = (Ok None, w1)).
Proof.
  split_and!.
  - apply health_depleted_dict.
  - intros ch Hnone. unfold health_depleted.
    destruct (truthy (JDict ch)); [|done].
    cbn [py_get mbind except_bind]. by rewrite Hnone.
  - apply character_update_Some.
  - intros rd entry entries w ch w1 message Hget Hupd Hdead Hmsg.
    destruct (handle_character_death_run sv game_id ch user_input message w1)
      as (result & w2 & Hdeath & _ & _ & _ & Hover & _).
    exists result, w2. split_and!; [done|done|].
    by apply (character_update_death _ _ _ _ _ _ _ _ _ _ _ _
                Hget Hmsg Hupd Hdead).
  - intros rd entry entries w updated_char w1 Hget Hupd Hdead Hmsg.
    unfold character_update. cbn [py_contains lift].
    unfold dict_has, py_getitem. rewrite Hget, Hmsg.
    rewrite (bind_run _ _ _ true w eq_refl).
    rewrite (bind_run _ _ _ (JDict (entry :: entries)) w eq_refl).
    rewrite (bind_run _ _ _ _ _ Hupd).
    unfold lift at 1. rewrite Hdead.
    rewrite (bind_run _ _ _ true w1 eq_refl).
    reflexivity.
  - intros rd entry entries w updated_char w1 Hget Hupd Hdead.
    unfold character_update. cbn [py_contains lift].
    unfold dict_has, py_getitem. rewrite Hget.
    rewrite (bind_run _ _ _ true w eq_refl).
    rewrite (bind_run _ _ _ (JDict (entry :: entries)) w eq_refl).
    rewrite (bind_run _ _ _ _ _ Hupd).
    unfold lift. rewrite Hdead. reflexivity.
Qed.

(** The model answers with a wound that brings the health of the
    character to 0. *)
Definition fatal_blow : list (string * json) :=
  [("message", JStr "The blade strikes.");
   ("update_character", JDict [("health", JInt 0)])].

Definition fallen_hero : list (string * json) :=
  [("id", JInt 7); ("name", JStr "Ann"); ("health", JInt 0);
   ("maxHealth", JInt 10)].

(** The same wound, in an answer without message. *)
Definition silent_blow : list (string * json) :=
  [("update_character", JDict [("health", JInt 0)])].

(** C10 as stated fails: the update returns a character whose health is
    0, but the answer of the model has no message; reading it raises, the
    request is answered as an error, and [_handle_character_death] is not
    called: the model is called once, by the chain. *)
Lemma death_branch_needs_message :
  let sv := demo "{...}" (Ok (JDict silent_blow)) (JDict fallen_hero)
              (Ok "She fell bravely.") None in
  let run := process_game_request sv "g1" "fight" empty_world in
  let before_update :=
    (parse_response sv "{...}" (ask_model sv "g1" "fight" empty_world).2).2 in
  json_loads sv "{...}" = Ok (JDict silent_blow) /\
  (_update_character_info sv "g1" [("health", JInt 0)] before_update).1
    = Ok (JDict fallen_hero) /\
  dict_get "health" fallen_hero = Some (JInt 0) /\
  health_depleted (JDict fallen_hero) = Ok true /\
  (exists result,
     run.1 = Ok (JDict result) /\
     dict_get "success" result = Some (JBool false) /\
     dict_get "error" result = Some (JStr "'message'") /\
     dict_get "game_over" result = None) /\
  length (llm_calls run.2) = 1 /\
  forall prompt, ~ In (LlmInvoke prompt) (llm_calls run.2).
Proof.
  intros sv run before_update.
  split_and!; [done|by vm_compute|done|done| | |].
  - eexists. split; [by vm_compute|]. by vm_compute.
  - by vm_compute.
  - intros prompt. vm_compute. intros [H|[]]. discriminate H.
Qed.


(** ** The death branch (claim C3) *)

(** C3, as amended.  Character death is a branch and one more call of
    the model.  For every request in which the model's response is a dict
    with a message and a non-empty [update_character] dict, and the
    character update returns a record whose health is at or below 0:
    [process_game_request] returns the result of
    [_handle_character_death], a dict with [success] true, [game_over]
    true, an empty [options] list and [need_image] false.  The handler
    reads the store of the game, initialised anew when it holds no
    document.  When the store is there and its read succeeds, the model is
    called once more, with the prompt built from the character and the
    sorted history, and this is the only call made after the one of the
    chain; the message is built around the summary this call returns, and
    is the canned fallback message when the call fails.  When the store
    cannot be initialised or read, no further call is made and the message
    is the canned fallback message. *)
Theorem death_branch_response sv game_id user_input w gm_response
  relevant_context w1 rd w2 entry entries message ch w3 :
  ask_model sv game_id user_input w
    = (Ok (gm_response, relevant_context), w1) ->
  parse_response sv gm_response w1 = (Ok (JDict rd), w2) ->
  dict_get "update_character" rd = Some (JDict (entry :: entries)) ->
  dict_get "message" rd = Some message ->
  _update_character_info sv game_id (entry :: entries) w2
    = (Ok (JDict ch), w3) ->
  health_depleted (JDict ch) = Ok true ->
  exists result w4 chain_call,
    process_game_request sv game_id user_input w = (Ok (JDict result), w4) /\
    _handle_character_death sv game_id (JDict ch) user_input message w3
      = (Ok (JDict result), w4) /\
    dict_get "success" result = Some (JBool true) /\
    dict_get "options" result = Some (JList []) /\
    dict_get "need_image" result = Some (JBool false) /\
    dict_get "game_over" result = Some (JBool true) /\
    llm_calls w3 = llm_calls w ++ [chain_call] /\
    let fallback :=
      JStr (fallback_death_message sv
              (default (JStr "캐릭터") (dict_get "name" ch))) in
    match
      match vector_stores w3 !! game_id with
      | Some ((_ :: _) as store) => Ok store
      | _ => chroma_open sv game_id
      end
    with
    | Ok store =>
        match chroma_get_error sv store with
        | None =>
            let history :=
              PySort.sort death_entry_le
                (map to_death_entry (conversation_docs store)) in
            let prompt :=
              death_prompt_of sv
                (default (JStr "알 수 없음") (dict_get "name" ch))
                (default (JStr "알 수 없음") (dict_get "class" ch))
                (default (JInt 1) (dict_get "level" ch))
                (join LF (map entry_content
                            (drop (length history - 20) history)))
                user_input message in
            llm_calls w4 = llm_calls w3 ++ [LlmInvoke prompt] /\
            match llm_invoke sv prompt with
            | Ok death_summary =>
                dict_get "message" result =
                  Some (JStr (final_message_of sv
                                (default (JStr "모험가") (dict_get "name" ch))
                                death_summary
                                (default (JInt 0) (dict_get "maxHealth" ch))))
            | Raise _ => dict_get "message" result = Some fallback
            end
        | Some _ =>
            llm_calls w4 = llm_calls w3 /\
            dict_get "message" result = Some fallback
        end
    | Raise _ =>
        llm_calls w4 = llm_calls w3 /\
        dict_get "message" result = Some fallback
    end.
Proof.
  intros Hask Hparse Hget Hmsg Hupd Hdead.
  destruct (handle_character_death_run sv game_id ch user_input message w3)
    as (result & w4 & Hdeath & Hsucc & Hopt & Himg & Hover & Hcase).
  assert (Hcalls : exists chain_call, llm_calls w3 = llm_calls w ++ [chain_call]).
  { destruct (ask_model_store _ _ _ _ _ _ Hask)
      as (gc & w0 & store & Hprep & Hs).
    destruct (ask_model_run sv game_id user_input w gc w0 store Hprep Hs)
      as (w1' & Hrun & _ & _ & Hc & _).
    rewrite Hrun in Hask. injection Hask as _ ->.
    eexists.
    rewrite (keeps_run llm_calls _ _ _ _
               (update_character_keeps_llm_calls sv _ _) Hupd).
    rewrite (keeps_run llm_calls _ _ _ _
               (parse_response_keeps_llm_calls sv _) Hparse).
    exact Hc. }
  destruct Hcalls as [chain_call Hcalls].
  exists result, w4, chain_call.
  split_and!; [|done..|].
  - unfold process_game_request, try_except, process_body.
    rewrite (bind_run _ _ _ _ _ Hask). cbn beta iota.
    rewrite (bind_run _ _ _ _ _ Hparse).
    rewrite (bind_run _ _ _ _ _
               (character_update_death _ _ _ _ _ _ _ _ _ _ _ _
                  Hget Hmsg Hupd Hdead Hdeath)).
    reflexivity.
  - cbn zeta. unfold death_store in Hcase.
    destruct (match vector_stores w3 !! game_id with
              | Some ((_ :: _) as store) => Ok store
              | _ => chroma_open sv game_id
              end) as [store|e]; [|tauto].
    destruct Hcase as [_ Hcase].
    destruct (chroma_get_error sv store) as [e|]; [tauto|].
    cbn zeta in Hcase. destruct Hcase as [Hc Hcase]. split; [exact Hc|].
    unfold death_prompt_for, conversation_history_of, last_n in Hcase.
    destruct (llm_invoke sv _); tauto.
Qed.

(** The character of [demo] falls and the model tells her end. *)
Lemma death_branch_response_witness :
  let sv := demo "{...}" (Ok (JDict fatal_blow)) (JDict fallen_hero)
              (Ok "She fell bravely.") None in
  let run := process_game_request sv "g1" "fight" empty_world in
  health_depleted (JDict fallen_hero) = Ok true /\
  exists result,
    run.1 = Ok (JDict result) /\
    dict_get "game_over" result = Some (JBool true) /\
    dict_get "options" result = Some (JList []) /\
    dict_get "message" result =
      Some (JStr (final_message_of sv (JStr "Ann") "She fell bravely."
                    (JInt 10))) /\
    exists chain_call prompt,
      llm_calls run.2 = [chain_call; LlmInvoke prompt].
Proof.
  intros sv run. split; [reflexivity|].
  set (s1 := ask_model sv "g1" "fight" empty_world).
  set (s2 := parse_response sv "{...}" s1.2).
  set (s3 := _update_character_info sv "g1" [("health", JInt 0)] s2.2).
  destruct (death_branch_response sv "g1" "fight" empty_world "{...}" []
              s1.2 fatal_blow s2.2 ("health", JInt 0) []
              (JStr "The blade strikes.") fallen_hero s3.2)
    as (result & w4 & chain_call & Hrun & _ & _ & Hopt & _ & Hover & Hcalls &
        Hres).
  - apply pair_of_fst. by vm_compute.
  - apply pair_of_fst. by vm_compute.
  - reflexivity.
  - reflexivity.
  - apply pair_of_fst. by vm_compute.
  - reflexivity.
  - exists result. subst run. rewrite Hrun. split_and!; [done|done|done| |].
    + assert (Hs : vector_stores s3.2 !! "g1" = Some []) by (by vm_compute).
      rewrite Hs in Hres. cbn zeta in Hres.
      change (chroma_open sv "g1") with (@Ok (list vdoc) []) in Hres.
      cbn iota in Hres. change (chroma_get_error sv []) with (@None exn) in Hres.
      cbn iota in Hres. destruct Hres as [_ Hres]. exact Hres.
    + assert (Hs : vector_stores s3.2 !! "g1" = Some []) by (by vm_compute).
      rewrite Hs in Hres. cbn zeta in Hres.
      change (chroma_open sv "g1") with (@Ok (list vdoc) []) in Hres.
      cbn iota in Hres. change (chroma_get_error sv []) with (@None exn) in Hres.
      cbn iota in Hres. destruct Hres as [Hc _].
      eexists chain_call, _. cbn [snd]. rewrite Hc, Hcalls. reflexivity.
Defined.

(** C3 as stated fails: the update succeeds and the health is 0, but the
    additional call of the model raises; the response of
    [_handle_character_death] then carries the canned message, which no
    call of the model produced. *)
Lemma death_message_without_model :
  let sv := demo "{...}" (Ok (JDict fatal_blow)) (JDict fallen_hero)
              (Raise (OtherException "model down")) None in
  let run := process_game_request sv "g1" "fight" empty_world in
  let before_update :=
    (parse_response sv "{...}" (ask_model sv "g1" "fight" empty_world).2).2 in
  json_loads sv "{...}" = Ok (JDict fatal_blow) /\
  (_update_character_info sv "g1" [("health", JInt 0)] before_update).1
    = Ok (JDict fallen_hero) /\
  health_depleted (JDict fallen_hero) = Ok true /\
  (forall prompt, llm_invoke sv prompt = Raise (OtherException "model down")) /\
  exists result,
    run.1 = Ok (JDict result) /\
    dict_get "game_over" result = Some (JBool true) /\
    dict_get "message" result =
      Some (JStr ("Ann는 쓰러졌습니다..." +:+ LF +:+ LF
                  +:+ "게임이 종료되었습니다.")).
Proof.
  intros sv run before_update. split_and!; [done|by vm_compute|done|done|].
  eexists. split; [by vm_compute|]. by vm_compute.
Qed.


(** ** The exchange is stored (claim C4) *)

Lemma health_depleted_true_dict updated_char :
  health_depleted updated_char = Ok true -> exists ch, updated_char = JDict ch.
Proof.
  unfold health_depleted.
  destruct updated_char as [ |b|z|f|s|l|d]; [done| | | | | |eauto];
    by destruct (truthy _).
Qed.

Section store_writes.
Context (sv : services).

Lemma character_update_None_keeps_stores g u rd w w' :
  character_update sv g u rd w = (Ok None, w') ->
  vector_stores w' = vector_stores w.
Proof.
  unfold character_update. intros H.
  apply bind_Ok in H as (has & w0 & Hhas & H).
  apply lift_Ok in Hhas as [_ ->].
  destruct has; [|by injection H as <-].
  apply bind_Ok in H as (info & w0 & Hinfo & H).
  apply lift_Ok in Hinfo as [_ ->].
  destruct info as [ | | | | | |[|entry entries]];
    try (apply bind_Ok in H as ([] & ? & Hl & H);
         injection H as <-; by injection Hl as <-).
  apply bind_Ok in H as (updated_char & w1 & Hupd & H).
  apply (keeps_run vector_stores _ _ _ _
           (update_character_keeps_stores sv g _)) in Hupd.
  apply bind_Ok in H as (dead & w2 & Hdead & H).
  apply lift_Ok in Hdead as [_ ->].
  destruct dead; [|by injection H as <-].
  apply bind_Ok in H as (message & w2 & _ & H).
  apply bind_Ok in H as (dr & w3 & _ & H). done.
Qed.

Lemma map_imap_content (f : nat -> string -> vdoc) chunks :
  (forall i c, page_content (f i c) = c) ->
  map page_content (imap f chunks) = chunks.
Proof.
  revert f. induction chunks as [|c chunks IH]; intros f Hf; simpl; [done|].
  rewrite Hf. f_equal. apply IH. intros i c'. apply Hf.
Qed.

(** A write to a store that has a handle: the chunks of the text are
    appended, or the write raises and the store is as it was. *)
Lemma add_scenario_data_spec g text source role image w r w' store :
  vector_stores w !! g = Some store ->
  add_scenario_data sv g text source role image w = (r, w') ->
  (r = Ok tt /\
   exists docs, vector_stores w' !! g = Some (store ++ docs) /\
                map page_content docs = split_text sv text) \/
  ((exists e, r = Raise e) /\ vector_stores w' !! g = Some store).
Proof.
  intros Hs. unfold add_scenario_data.
  rewrite (bind_run _ _ _ _ _ (now_run sv w)).
  assert (Hs' : vector_stores (tick w) !! g = Some store) by done.
  rewrite (bind_run _ _ _ tt _ (get_vector_memory_same sv g _ store Hs')).
  unfold get_world, mbind, M_bind. rewrite Hs'.
  destruct (chroma_add_error sv store _) as [e|]; simpl.
  - intros [= <- <-]. right. split; [by exists e|done].
  - intros [= <- <-]. left. split; [done|]. eexists. split.
    + simpl. apply lookup_insert_eq.
    + generalize (split_text sv text). intros chunks.
      apply map_imap_content. done.
Qed.

End store_writes.

(** The outcome of a write to the vector store: the documents written
    carry the chunks of the text, or nothing is written and a warning
    with the given prefix is logged. *)
Definition stored_or_warned sv (docs : list vdoc) (text warning : string)
  (w' : world) : Prop :=
  map page_content docs = split_text sv text \/
  (docs = [] /\ exists e, In (WARNING, warning +:+ str_exn sv e) (logs w')).

Lemma guarded_write_spec sv g text source role image info warning w r w' store :
  vector_stores w !! g = Some store ->
  try_except
    (add_scenario_data sv g text source role image;; logger INFO info)
    Exception
    (fun e => logger WARNING (warning +:+ str_exn sv e)) w = (r, w') ->
  r = Ok tt /\ game_memories w' = game_memories w /\
  (forall x, In x (logs w) -> In x (logs w')) /\
  exists docs, vector_stores w' !! g = Some (store ++ docs) /\
               stored_or_warned sv docs text warning w'.
Proof.
  intros Hs. unfold try_except, mbind, M_bind.
  destruct (add_scenario_data sv g text source role image w) as [r1 w1] eqn:E.
  pose proof (keeps_run game_memories _ _ _ _
                (add_scenario_data_keeps_memories sv g text source role image)
                E) as Hmem.
  assert (Hlogs : forall x, In x (logs w) -> In x (logs w1)).
  { unfold add_scenario_data in E.
    rewrite (bind_run _ _ _ _ _ (now_run sv w)) in E.
    assert (Hs' : vector_stores (tick w) !! g = Some store) by done.
    rewrite (bind_run _ _ _ tt _ (get_vector_memory_same sv g _ store Hs'))
      in E.
    unfold get_world, mbind, M_bind in E. rewrite Hs' in E.
    destruct (chroma_add_error sv store _); simpl in E;
      injection E as _ <-; simpl; [done|].
    intros x Hx. apply in_or_app. by left. }
  destruct (add_scenario_data_spec sv _ _ _ _ _ _ _ _ _ Hs E)
    as [(-> & docs & Hdocs & Hchunks)|((e & ->) & Hsame)].
  - intros [= <- <-]. split_and!; [done|done| |].
    + intros x Hx. simpl. apply in_or_app. left. auto.
    + exists docs. split; [done|by left].
  - cbn [Exception]. intros [= <- <-]. split_and!; [done|done| |].
    + intros x Hx. simpl. apply in_or_app. left. auto.
    + exists []. rewrite app_nil_r. split; [done|]. right. split; [done|].
      exists e. simpl. apply in_or_app. right. by left.
Qed.

Lemma has_message_true rd message :
  py_getitem rd "message" = Ok message ->
  (if truthy rd then py_contains "message" rd else Ok false) = Ok true.
Proof.
  destruct rd as [ | | | | | |d]; try done. simpl. unfold dict_has.
  destruct (dict_get "message" d) eqn:E; [|done]. intros _.
  by destruct d.
Qed.

Definition user_warning : string :=
  "Failed to add user input to vector storage: ".
Definition ai_warning : string :=
  "Failed to add AI response to vector storage: ".

Lemma store_and_answer_spec sv g u rd rel w result w' store :
  vector_stores w !! g = Some store ->
  store_and_answer sv g u rd rel w = (Ok result, w') ->
  exists message image_url user_docs ai_docs fields,
    result = JDict fields /\
    dict_get "success" fields = Some (JBool true) /\
    dict_get "message" fields = Some message /\
    py_getitem rd "message" = Ok message /\
    game_memories w' !! g =
      Some (default [] (game_memories w !! g)
            ++ [HumanMessage u; AIMessage message]) /\
    vector_stores w' !! g = Some (store ++ user_docs ++ ai_docs) /\
    stored_or_warned sv user_docs ("사용자: " +:+ u) user_warning w' /\
    stored_or_warned sv ai_docs (ai_response_content sv message image_url)
      ai_warning w'.
Proof.
  intros Hs H. unfold store_and_answer in H.
  apply bind_Ok in H as (message & w0 & Hmsg & H).
  apply lift_Ok in Hmsg as [Hmsg ->].
  apply bind_Ok in H as ([] & w1 & Hadd & H).
  assert (Hmem1 : game_memories w1 !! g =
            Some (default [] (game_memories w !! g)
                  ++ [HumanMessage u; AIMessage message]) /\
          vector_stores w1 = vector_stores w /\ logs w1 = logs w).
  { unfold add_message in Hadd.
    rewrite (bind_run _ _ _ tt _ (update_run _ w)) in Hadd.
    destruct (content_ok sv message); [|done].
    injection Hadd as <-. simpl. rewrite lookup_insert_eq.
    rewrite lookup_insert_eq. simpl. by rewrite <- app_assoc. }
  destruct Hmem1 as (Hmem1 & Hvs1 & Hlog1).
  apply bind_Ok in H as ([] & w2 & Hl & H). injection Hl as <-.
  apply bind_Ok in H as ([] & w3 & Huser & H).
  unfold _add_user_input_to_vector_storage in Huser.
  eapply (guarded_write_spec sv g _ _ _ _ _ user_warning _ _ _ store)
    in Huser as (_ & Hmem3 & Hlogs3 & user_docs & Hvs3 & Huser);
    [|simpl; by rewrite Hvs1].
  apply bind_Ok in H as (has & w4 & Hhas & H).
  apply lift_Ok in Hhas as [Hhas ->].
  rewrite (has_message_true _ _ Hmsg) in Hhas. injection Hhas as <-.
  apply bind_Ok in H as ([] & w4 & Hai & H).
  apply bind_Ok in Hai as (message' & w5 & Hmsg' & Hai).
  apply lift_Ok in Hmsg' as [Hmsg' ->].
  rewrite Hmsg in Hmsg'. injection Hmsg' as <-.
  apply bind_Ok in Hai as (image_url & w5 & Hiu & Hai).
  apply lift_Ok in Hiu as [_ ->].
  unfold _add_ai_response_to_vector_storage in Hai.
  apply bind_Ok in H as ([] & w6 & Hl & H). injection Hl as <-.
  apply bind_Ok in H as (image_info & w7 & Hii & H).
  apply lift_Ok in Hii as [_ ->].
  apply bind_Ok in H as (message' & w7 & Hmsg' & H).
  apply lift_Ok in Hmsg' as [Hmsg' ->].
  rewrite Hmsg in Hmsg'. injection Hmsg' as <-.
  apply bind_Ok in H as (options & w7 & Hopt & H).
  apply lift_Ok in Hopt as [_ ->].
  apply bind_Ok in H as (need_image & w7 & Hni & H).
  apply lift_Ok in Hni as [_ ->].
  apply bind_Ok in H as (ts & w7 & Hnow & H).
  rewrite now_run in Hnow. injection Hnow as <- <-.
  apply bind_Ok in H as ([] & w8 & Hl & H). injection Hl as <-.
  apply bind_Ok in H as ([] & w9 & Hl & H). injection Hl as <-.
  injection H as <- <-.
  assert (Hrest : exists ai_docs,
            game_memories w4 = game_memories w3 /\
            (forall x, In x (logs w3) -> In x (logs w4)) /\
            vector_stores w4 !! g = Some ((store ++ user_docs) ++ ai_docs) /\
            stored_or_warned sv ai_docs
              (ai_response_content sv message image_url) ai_warning w4).
  { eapply (guarded_write_spec sv g _ _ _ _ _ ai_warning _ _ _
              (store ++ user_docs))
      in Hai as (_ & Hmem4 & Hlogs4 & ai_docs & Hvs4 & Hai); [|done].
    by exists ai_docs. }
  destruct Hrest as (ai_docs & Hmem4 & Hlogs4 & Hvs4 & Hai').
  exists message, image_url, user_docs, ai_docs. eexists.
  split; [reflexivity|]. split_and!; [done|done|done| | | |].
  - simpl. rewrite Hmem4, Hmem3. exact Hmem1.
  - simpl. rewrite Hvs4. by rewrite <- app_assoc.
  - destruct Huser as [?|(-> & e & He)]; [by left|right]. split; [done|].
    exists e. simpl. repeat (apply in_or_app; left). auto.
  - destruct Hai' as [?|(-> & e & He)]; [by left|right]. split; [done|].
    exists e. simpl. repeat (apply in_or_app; left). auto.
Qed.

(** C4, as amended.  For every call of [process_game_request] that
    returns the normal result ([success] true, no [game_over]): the user
    input and the message of the response have been added, in this order,
    to the conversation memory of the game ([add_message]); and the two
    writes to the vector store of the game have been made, first the user
    input, then the response: each of them either appended the chunks of
    its text to the store or failed and was logged as a warning, the
    result being returned all the same. *)
Theorem exchange_stored sv game_id user_input w result w' :
  process_game_request sv game_id user_input w = (Ok (JDict result), w') ->
  dict_get "success" result = Some (JBool true) ->
  dict_get "game_over" result = None ->
  exists message image_url store user_docs ai_docs,
    dict_get "message" result = Some message /\
    game_memories w' !! game_id =
      Some (default [] (game_memories w !! game_id)
            ++ [HumanMessage user_input; AIMessage message]) /\
    vector_stores w' !! game_id = Some (store ++ user_docs ++ ai_docs) /\
    stored_or_warned sv user_docs ("사용자: " +:+ user_input)
      user_warning w' /\
    stored_or_warned sv ai_docs (ai_response_content sv message image_url)
      ai_warning w'.
Proof.
  unfold process_game_request, try_except.
  destruct (process_body sv game_id user_input w) as [[r|e] w1] eqn:E.
  2: { cbn [Exception]. intros H Hsucc _.
       rewrite (bind_run _ _ _ tt _ (logger_run _ _ _)) in H.
       rewrite (bind_run _ _ _ tt _ (logger_run _ _ _)) in H.
       unfold _handle_error in H.
       rewrite (bind_run _ _ _ _ _ (now_run sv _)) in H.
       injection H as <- _. done. }
  intros [= -> ->] Hsucc Hover. unfold process_body in E.
  apply bind_Ok in E as ([gm_response rel] & w1 & Hask & E).
  apply bind_Ok in E as (rd & w2 & Hparse & E).
  apply bind_Ok in E as (death & w3 & Hcu & E).
  destruct death as [dr|].
  { injection E as -> ->.
    apply character_update_Some in Hcu
      as (? & uc & w4 & message & _ & _ & Hdep & _ & Hd).
    apply health_depleted_true_dict in Hdep as [ch ->].
    destruct (handle_character_death_run sv game_id ch user_input message w4)
      as (fields & w5 & Hd' & _ & _ & _ & Hgo & _).
    rewrite Hd' in Hd. injection Hd as <- _. congruence. }
  destruct (ask_model_ready sv _ _ _ _ _ Hask) as [store Hs1].
  assert (Hs3 : vector_stores w3 !! game_id = Some store).
  { rewrite (character_update_None_keeps_stores sv _ _ _ _ _ Hcu).
    by rewrite (keeps_run vector_stores _ _ _ _
                  (parse_response_keeps_stores sv _) Hparse). }
  assert (Hm3 : game_memories w3 = game_memories w).
  { rewrite (keeps_run game_memories _ _ _ _
               (character_update_keeps_memories sv _ _ _) Hcu).
    rewrite (keeps_run game_memories _ _ _ _
               (parse_response_keeps_memories sv _) Hparse).
    apply (keeps_run game_memories _ _ _ _
             (ask_model_keeps_memories sv _ _) Hask). }
  destruct (store_and_answer_spec sv _ _ _ _ _ _ _ _ Hs3 E)
    as (message & image_url & user_docs & ai_docs & fields & [= <-] & _ &
        Hmsg & _ & Hmem & Hvs & Hu & Ha).
  exists message, image_url, store, user_docs, ai_docs.
  rewrite Hm3 in Hmem. done.
Qed.

Lemma exchange_stored_witness :
  let sv := demo "{...}" (Ok narration) JNull (Ok "") None in
  let run := process_game_request sv "g1" "open the door" empty_world in
  (exists result,
     run.1 = Ok (JDict result) /\
     dict_get "success" result = Some (JBool true) /\
     dict_get "game_over" result = None) /\
  exists message,
    game_memories run.2 !! "g1" =
      Some [HumanMessage "open the door"; AIMessage message].
Proof.
  intros sv run.
  assert (Hrun : exists result,
            run = (Ok (JDict result), run.2) /\
            dict_get "success" result = Some (JBool true) /\
            dict_get "game_over" result = None).
  { eexists. split; [apply pair_of_fst; by vm_compute|]. by vm_compute. }
  destruct Hrun as (result & Hrun & Hsucc & Hover).
  split.
  - exists result. by rewrite Hrun.
  - destruct (exchange_stored sv "g1" "open the door" empty_world result
                run.2 Hrun Hsucc Hover)
      as (message & _ & _ & _ & _ & _ & Hmem & _).
    exists message. exact Hmem.
Defined.

(** C4 as stated fails: the vector store refuses the writes; the request
    returns its normal result, and the store of the game holds nothing of
    the exchange. *)
Lemma exchange_not_in_vector_store :
  let sv := demo "{...}" (Ok narration) JNull (Ok "")
              (Some (OtherException "chroma down")) in
  let run := process_game_request sv "g1" "open the door" empty_world in
  (exists result,
     run.1 = Ok (JDict result) /\
     dict_get "success" result = Some (JBool true) /\
     dict_get "message" result = Some (JStr "You open the door.") /\
     dict_get "game_over" result = None) /\
  vector_stores run.2 !! "g1" = Some [] /\
  In (WARNING, "Failed to add user input to vector storage: chroma down")
     (logs run.2) /\
  In (WARNING, "Failed to add AI response to vector storage: chroma down")
     (logs run.2).
Proof.
  intros sv run. split_and!.
  - eexists. split; [by vm_compute|]. by vm_compute.
  - by vm_compute.
  - vm_compute. tauto.
  - vm_compute. tauto.
Qed.


(** ** Exceptions (claim C6) *)

Lemma error_message_canned n :
  In (default "" (error_responses !! (n mod 3))) error_responses.
Proof.
  pose proof (Nat.mod_upper_bound n 3) as Hlt.
  destruct (n mod 3) as [|[|[|k]]]; simpl; [tauto|tauto|tauto|lia].
Qed.

(** The handler of lines 256-260, run. *)
Lemma process_game_request_raise sv g u w e w1 :
  process_body sv g u w = (Raise e, w1) ->
  process_game_request sv g u w =
    (Ok (JDict [("success", JBool false);
                ("message",
                 JStr (default "" (error_responses !! (random_index sv mod 3))));
                ("options", JList [JStr "다시 시도"; JStr "상태 확인";
                                   JStr "도움말"]);
                ("error", JStr (str_exn sv e));
                ("timestamp", JStr (now_iso sv (clock_reads w1)))]),
     tick (add_log ERROR ("상세 에러:" +:+ LF +:+ format_exc sv e)
             (add_log ERROR ("Error processing game request: "
                             +:+ str_exn sv e) w1))).
Proof.
  intros E. unfold process_game_request, try_except. by rewrite E.
Qed.

Lemma image_info_of_dict rd : exists v, image_info_of (JDict rd) = Ok v.
Proof.
  unfold image_info_of. cbn [py_get mbind except_bind].
  destruct (truthy (default (JBool false) (dict_get "need_image" rd)));
    [|eauto].
  unfold py_getitem.
  destruct (dict_get "image_prompt" rd) as [p|]; cbn [default from_option id].
  - destruct (truthy p); eauto.
  - cbn [truthy]. eauto.
Qed.

(** The second part of a request always answers, when the response has a
    message that the conversation memory accepts and the game has a
    store: a failure of a write to the store is no obstacle. *)
Lemma store_and_answer_returns sv g u rd rel w store message :
  vector_stores w !! g = Some store ->
  dict_get "message" rd = Some message ->
  content_ok sv message = true ->
  exists fields w',
    store_and_answer sv g u (JDict rd) rel w = (Ok (JDict fields), w') /\
    dict_get "success" fields = Some (JBool true) /\
    dict_get "message" fields = Some message /\
    dict_get "error" fields = None /\
    dict_get "game_over" fields = None.
Proof.
  intros Hs Hmsg Hok.
  assert (Hitem : py_getitem (JDict rd) "message" = Ok message).
  { unfold py_getitem. by rewrite Hmsg. }
  unfold store_and_answer.
  rewrite (bind_run _ _ _ message w (f_equal (fun r => (r, w)) Hitem)).
  assert (Hadd : exists wa,
            add_message sv g u message w = (Ok tt, wa) /\
            vector_stores wa = vector_stores w).
  { unfold add_message. rewrite (bind_run _ _ _ tt _ (update_run _ w)).
    rewrite Hok. eexists. split; [reflexivity|done]. }
  destruct Hadd as (wa & Hadd & Hva).
  rewrite (bind_run _ _ _ tt _ Hadd).
  rewrite (bind_run _ _ _ tt _ (log_timing_run _ _)).
  set (w0 := add_log INFO _ wa).
  destruct (_add_user_input_to_vector_storage sv g u w0) as [r1 w1] eqn:E1.
  pose proof E1 as E1'. unfold _add_user_input_to_vector_storage in E1'.
  apply (guarded_write_spec sv g _ _ _ _ _ user_warning _ _ _ store) in E1'
    as (-> & _ & _ & user_docs & Hs1 & _); [|subst w0; simpl; by rewrite Hva].
  rewrite (bind_run _ _ _ tt _ E1).
  rewrite (bind_run _ _ _ true w1
             (f_equal (fun r => (r, w1)) (has_message_true _ _ Hitem))).
  rewrite (bind_run _ _ _ tt
             (_add_ai_response_to_vector_storage sv g message
                (default JNull (dict_get "image_url" rd)) w1).2).
  2: { rewrite (bind_run _ _ _ message w1 (f_equal (fun r => (r, w1)) Hitem)).
       rewrite (bind_run _ _ _ (default JNull (dict_get "image_url" rd)) w1
                  eq_refl).
       destruct (_add_ai_response_to_vector_storage sv g message _ w1)
         as [r2 w2] eqn:E2.
       pose proof E2 as E2'.
       unfold _add_ai_response_to_vector_storage in E2'.
       apply (guarded_write_spec sv g _ _ _ _ _ ai_warning _ _ _
                (store ++ user_docs)) in E2' as (-> & _); done. }
  set (w2 := (_add_ai_response_to_vector_storage sv g message _ w1).2).
  rewrite (bind_run _ _ _ tt _ (log_timing_run _ _)).
  destruct (image_info_of_dict rd) as [image_info Hinfo].
  unfold lift. rewrite Hinfo, Hitem.
  eexists _, _. split; [reflexivity|]. done.
Qed.

(** The three fallbacks of lines 169-195. *)
Definition fallback_message (e : option exn) (gm_response : string) : string :=
  match e with
  | None => "죄송합니다. 응답을 생성할 수 없습니다. 다시 시도해주세요."
  | Some (JSONDecodeError _) => gm_response
  | Some _ => "시스템 오류가 발생했습니다."
  end.

Definition fallback_log sv (e : option exn) (gm_response : string) : string :=
  match e with
  | None => "LLM 응답이 비어있습니다"
  | Some (JSONDecodeError msg) =>
      "JSON 파싱 실패: " +:+ str_exn sv (JSONDecodeError msg)
      +:+ ", 원본 응답: " +:+ py_prefix 200 gm_response
  | Some e => "응답 처리 중 예외 발생: " +:+ str_exn sv e
  end.

(** An answer that is blank ([failure = None]) or that [json.loads]
    rejects ([failure = Some e]). *)
Definition undecoded sv (gm_response : string) (failure : option exn) : Prop :=
  match failure with
  | None => blank gm_response = true
  | Some e => blank gm_response = false /\ json_loads sv gm_response = Raise e
  end.

Lemma blank_empty s : blank s = false -> String.eqb s "" = false.
Proof. by destruct s. Qed.

Lemma parse_response_fallback sv gm_response failure w :
  undecoded sv gm_response failure ->
  exists options,
    parse_response sv gm_response w =
      (Ok (JDict [("message", JStr (fallback_message failure gm_response));
                  ("options", options);
                  ("need_image", JBool false)]),
       add_log ERROR (fallback_log sv failure gm_response) w).
Proof.
  unfold parse_response, try_except2, undecoded.
  destruct failure as [e|].
  - intros [Hb He]. rewrite Hb. unfold lift. rewrite He.
    destruct e; cbn [is_JSONDecodeError Exception]; eexists;
      unfold fallback_unparsed, fallback_error; rewrite ?(blank_empty _ Hb);
      reflexivity.
  - intros ->. eexists. reflexivity.
Qed.

(** C6, as amended.  No exception leaves [process_game_request]: it
    always returns a dict.
    - An exception that leaves the body of its [try] (one no inner handler
      caught) is logged twice as an error and answered with the dict of
      [_handle_error]: [success] false, one of the three canned messages,
      and [error] the string of the exception.  The state is the one the
      exception left, with the two log records and one clock reading more:
      nothing is retried and nothing is undone.  When the body returns,
      its result is returned, and it is a dict with [success] true.
    - A failure of the chain is such an exception: when the game context
      and the store are there, the request is answered with the error
      dict, and the chain has been called once.
    - The four inner handlers log the exception and continue with a
      fallback: a failed read of the store leaves no conversation and a
      warning; an answer that [json.loads] rejects is replaced by a
      fallback response, with an error logged; a failed write to the
      store leaves a warning; a failure in the death handling gives the
      canned death message, with an error logged.
    - With these handlers the request succeeds when the game context and
      the store are there, the chain answers and the conversation memory
      accepts text, even if the answer cannot be decoded and whatever the
      search, the read and the writes of the store do: the result has
      [success] true, the fallback message and no [error]. *)
Theorem process_game_request_catches sv game_id user_input w :
  (exists result w',
     process_game_request sv game_id user_input w = (Ok (JDict result), w')) /\
  (forall e w1,
     process_body sv game_id user_input w = (Raise e, w1) ->
     exists message,
       In message error_responses /\
       process_game_request sv game_id user_input w =
         (Ok (JDict [("success", JBool false);
                     ("message", JStr message);
                     ("options", JList [JStr "다시 시도"; JStr "상태 확인";
                                        JStr "도움말"]);
                     ("error", JStr (str_exn sv e));
                     ("timestamp", JStr (now_iso sv (clock_reads w1)))]),
          tick (add_log ERROR ("상세 에러:" +:+ LF +:+ format_exc sv e)
                  (add_log ERROR ("Error processing game request: "
                                  +:+ str_exn sv e) w1)))) /\
  (forall result w1,
     process_body sv game_id user_input w = (Ok result, w1) ->
     process_game_request sv game_id user_input w = (Ok result, w1) /\
     exists fields,
       result = JDict fields /\
       dict_get "success" fields = Some (JBool true) /\
       dict_get "error" fields = None) /\
  (forall game_context w1 docs e,
     _prepare_game_context sv game_id w = (Ok game_context, w1) ->
     chroma_open sv game_id = Ok docs ->
     (forall chat_summary context_info,
        gm_chain_run sv game_context chat_summary context_info user_input
          = Raise e) ->
     exists fields w' chain_call,
       process_game_request sv game_id user_input w = (Ok (JDict fields), w') /\
       dict_get "success" fields = Some (JBool false) /\
       dict_get "error" fields = Some (JStr (str_exn sv e)) /\
       llm_calls w' = llm_calls w ++ [chain_call] /\
       game_memories w' = game_memories w1) /\
  (forall w0 d store e,
     vector_stores w0 !! game_id = Some (d :: store) ->
     chroma_get_error sv (d :: store) = Some e ->
     read_all_conversations sv game_id w0 =
       (Ok [], add_log WARNING ("ChromaDB 대화 조회 실패: " +:+ str_exn sv e) w0)) /\
  (forall gm_response w0 e,
     blank gm_response = false ->
     json_loads sv gm_response = Raise e ->
     parse_response sv gm_response w0 =
       (Ok (if is_JSONDecodeError e then fallback_unparsed gm_response
            else fallback_error),
        add_log ERROR
          (if is_JSONDecodeError e
           then "JSON 파싱 실패: " +:+ str_exn sv e +:+ ", 원본 응답: "
                +:+ py_prefix 200 gm_response
           else "응답 처리 중 예외 발생: " +:+ str_exn sv e) w0)) /\
  (forall w0 store e,
     vector_stores w0 !! game_id = Some store ->
     (forall docs, chroma_add_error sv store docs = Some e) ->
     _add_user_input_to_vector_storage sv game_id user_input w0 =
       (Ok tt,
        add_log WARNING ("Failed to add user input to vector storage: "
                         +:+ str_exn sv e) (tick w0)) /\
     forall message image_url,
       _add_ai_response_to_vector_storage sv game_id message image_url w0 =
         (Ok tt,
          add_log WARNING ("Failed to add AI response to vector storage: "
                           +:+ str_exn sv e) (tick w0))) /\
  (forall ch message w0 e,
     (forall prompt, llm_invoke sv prompt = Raise e) ->
     exists result w' e',
       _handle_character_death sv game_id (JDict ch) user_input message w0
         = (Ok (JDict result), w') /\
       dict_get "success" result = Some (JBool true) /\
       dict_get "message" result =
         Some (JStr (fallback_death_message sv
                       (default (JStr "캐릭터") (dict_get "name" ch)))) /\
       In (ERROR, "죽음 처리 중 에러: " +:+ str_exn sv e') (logs w')) /\
  (forall game_context w1 docs gm_response failure,
     _prepare_game_context sv game_id w = (Ok game_context, w1) ->
     chroma_open sv game_id = Ok docs ->
     (forall chat_summary context_info,
        gm_chain_run sv game_context chat_summary context_info user_input
          = Ok gm_response) ->
     (forall text, content_ok sv (JStr text) = true) ->
     match failure with
     | None => blank gm_response = true
     | Some e =>
         blank gm_response = false /\ json_loads sv gm_response = Raise e
     end ->
     exists fields w',
       process_game_request sv game_id user_input w = (Ok (JDict fields), w') /\
       dict_get "success" fields = Some (JBool true) /\
       dict_get "error" fields = None /\
       dict_get "message" fields =
         Some (JStr match failure with
                    | None => "죄송합니다. 응답을 생성할 수 없습니다. 다시 시도해주세요."
                    | Some (JSONDecodeError _) => gm_response
                    | Some _ => "시스템 오류가 발생했습니다."
                    end)).
Proof.
  assert (Hstore : forall docs, chroma_open sv game_id = Ok docs ->
            exists store,
              match vector_stores w !! game_id with
              | Some s => s = store
              | None => chroma_open sv game_id = Ok store
              end).
  { intros docs Hopen. destruct (vector_stores w !! game_id) as [s|]; eauto. }
  assert (Hbody : forall result w1,
            process_body sv game_id user_input w = (Ok result, w1) ->
            exists fields,
              result = JDict fields /\
              dict_get "success" fields = Some (JBool true) /\
              dict_get "error" fields = None).
  { intros result w1 E. unfold process_body in E.
    apply bind_Ok in E as ([gm_response rel] & w2 & Hask & E).
    apply bind_Ok in E as (rd & w3 & Hparse & E).
    apply bind_Ok in E as (death & w4 & Hcu & E).
    destruct death as [dr|].
    - injection E as -> ->.
      apply character_update_Some in Hcu
        as (? & uc & w5 & message & _ & _ & Hdep & _ & Hd).
      apply health_depleted_true_dict in Hdep as [ch ->].
      destruct (handle_character_death_run sv game_id ch user_input message w5)
        as (fields & w6 & Hd' & Hsucc & _ & _ & _ & Hcase).
      rewrite Hd' in Hd. injection Hd as <- _.
      exists fields. split_and!; [done|done|].
      clear -Hd'. unfold _handle_character_death, try_except in Hd'.
      match type of Hd' with context [match ?body w5 with _ => _ end] =>
        destruct (body w5) as [[r0|e] w7] eqn:Eb end.
      + injection Hd' as -> _.
        do 13 (apply bind_Ok in Eb as (? & ? & _ & Eb)).
        by injection Eb as <- _.
      + cbn [Exception] in Hd'.
        do 3 (apply bind_Ok in Hd' as (? & ? & _ & Hd')).
        by injection Hd' as <- _.
    - unfold store_and_answer in E.
      do 14 (apply bind_Ok in E as (? & ? & _ & E)).
      injection E as <- _. eexists. done. }
  split_and!.
  - destruct (process_body sv game_id user_input w) as [[r|e] w1] eqn:E.
    + destruct (Hbody r w1 eq_refl) as (fields & -> & _).
      exists fields, w1. unfold process_game_request, try_except.
      by rewrite E.
    + rewrite (process_game_request_raise _ _ _ _ _ _ E). eauto.
  - intros e w1 E. rewrite (process_game_request_raise _ _ _ _ _ _ E).
    eexists. split; [apply error_message_canned|reflexivity].
  - intros result w1 E. split; [|exact (Hbody _ _ E)].
    unfold process_game_request, try_except. by rewrite E.
  - intros game_context w1 docs e Hprep Hopen Hchain.
    destruct (Hstore docs Hopen) as [store Hs].
    destruct (ask_model_run sv game_id user_input w game_context w1 store
                Hprep Hs) as (w2 & Hrun & _ & Hmem & Hcalls & _).
    rewrite Hchain in Hrun.
    assert (E : process_body sv game_id user_input w = (Raise e, w2)).
    { unfold process_body, mbind at 1, M_bind at 1. by rewrite Hrun. }
    rewrite (process_game_request_raise _ _ _ _ _ _ E).
    eexists _, _, _. split; [reflexivity|]. split_and!; try done.
  - intros w0 d store e Hs He.
    by rewrite read_all_conversations_run, Hs, He.
  - intros gm_response w0 e Hb He.
    unfold parse_response, try_except2. rewrite Hb. unfold lift. rewrite He.
    by destruct (is_JSONDecodeError e).
  - intros w0 store e Hs Hadd.
    assert (Hwrite : forall text source role image info warning,
              try_except
                (add_scenario_data sv game_id text source role image;;
                 logger INFO info)
                Exception
                (fun e => logger WARNING (warning +:+ str_exn sv e)) w0
              = (Ok tt, add_log WARNING (warning +:+ str_exn sv e) (tick w0))).
    { intros text source role image info warning.
      assert (Hraise : add_scenario_data sv game_id text source role image w0
                       = (Raise e, tick w0)).
      { unfold add_scenario_data.
        rewrite (bind_run _ _ _ _ _ (now_run sv w0)).
        assert (Hs' : vector_stores (tick w0) !! game_id = Some store) by done.
        rewrite (bind_run _ _ _ tt _ (get_vector_memory_same sv _ _ store Hs')).
        unfold get_world, mbind, M_bind. by rewrite Hs', Hadd. }
      unfold try_except, mbind at 1, M_bind at 1. by rewrite Hraise. }
    split; [apply Hwrite|]. intros message image_url. apply Hwrite.
  - intros ch message w0 e Hinv.
    destruct (handle_character_death_run sv game_id ch user_input message w0)
      as (result & w' & Hrun & Hsucc & _ & _ & _ & Hcase).
    destruct (death_store sv game_id w0) as [store|e0].
    + destruct Hcase as [_ Hcase].
      destruct (chroma_get_error sv store) as [e1|].
      * exists result, w', e1. tauto.
      * cbn zeta in Hcase. rewrite Hinv in Hcase.
        exists result, w', e. tauto.
    + exists result, w', e0. tauto.
  - intros game_context w1 docs gm_response failure Hprep Hopen Hchain Hok
      Hfail.
    destruct (Hstore docs Hopen) as [store Hs].
    destruct (ask_model_run sv game_id user_input w game_context w1 store
                Hprep Hs) as (w2 & Hrun & Hv2 & _).
    rewrite Hchain in Hrun.
    destruct (parse_response_fallback sv gm_response failure w2 Hfail)
      as (options & Hparse).
    set (rd := [("message", JStr (fallback_message failure gm_response));
                ("options", options); ("need_image", JBool false)]) in *.
    set (w3 := add_log ERROR _ w2) in *.
    assert (Hs3 : vector_stores w3 !! game_id = Some store).
    { subst w3. simpl. by rewrite Hv2, lookup_insert_eq. }
    destruct (store_and_answer_returns sv game_id user_input rd
                (found_in sv store user_input) w3 store
                (JStr (fallback_message failure gm_response)) Hs3 eq_refl
                (Hok _))
      as (fields & w' & Hanswer & Hsucc & Hmsg & Herr & _).
    exists fields, w'. split_and!; [|done|done|].
    + unfold process_game_request, try_except, process_body.
      rewrite (bind_run _ _ _ _ _ Hrun). cbn beta iota.
      rewrite (bind_run _ _ _ _ _ Hparse).
      assert (Hcu : character_update sv game_id user_input (JDict rd) w3
                    = (Ok None, w3)) by reflexivity.
      rewrite (bind_run _ _ _ _ _ Hcu).
      by rewrite Hanswer.
    + rewrite Hmsg. unfold fallback_message. by destruct failure as [[]|].
Qed.

(** C6 as stated fails: the model's answer is not JSON, [json.loads]
    raises, the handler of line 181 recovers, and the request succeeds
    with the raw answer as its message. *)
Lemma decode_error_is_recovered :
  let sv := demo "The door opens." (Raise (JSONDecodeError "Expecting value"))
              JNull (Ok "") None in
  let run := process_game_request sv "g1" "open the door" empty_world in
  json_loads sv "The door opens." = Raise (JSONDecodeError "Expecting value") /\
  In (ERROR, "JSON 파싱 실패: Expecting value, 원본 응답: The door opens.")
     (logs run.2) /\
  exists result,
    run.1 = Ok (JDict result) /\
    dict_get "success" result = Some (JBool true) /\
    dict_get "message" result = Some (JStr "The door opens.") /\
    dict_get "error" result = None.
Proof.
  intros sv run. split; [reflexivity|]. split.
  - vm_compute. tauto.
  - eexists. split; [by vm_compute|]. by vm_compute.
Qed.

End GameMaster.

(* ===================================================================== *)
(** * More on a request (agents/gamemaster.py, lines 84-260) *)
(* ===================================================================== *)

Module RequestFacts.
Import Py GameMaster.

(** The model answers with a JSON list; the API is the one of [demo]. *)
Definition no_message : json := JList [JStr "You open the door."].

(** The model answers with a number where the message should be. *)
Definition numeric_message : json :=
  JDict [("message", JInt 42); ("options", JList [])].

(** What a request may do to the handles of the vector stores: the store
    of its game is opened when it had no handle. *)
Definition opened (sv : services) (game_id : string)
  (stores : gmap string (list vdoc)) : gmap string (list vdoc) :=
  match stores !! game_id with
  | Some _ => stores
  | None =>
      match chroma_open sv game_id with
      | Ok docs => <[game_id := docs]> stores
      | Raise _ => stores
      end
  end.

(** What the death handling does to the handles: the store of the game
    is initialised, again if need be, when it has no handle or holds no
    document (line 376); a failed initialisation leaves the handles as
    they were. *)
Definition reopened (sv : services) (game_id : string)
  (stores : gmap string (list vdoc)) : gmap string (list vdoc) :=
  match stores !! game_id with
  | Some (_ :: _) => stores
  | _ =>
      match chroma_open sv game_id with
      | Ok docs => <[game_id := docs]> stores
      | Raise _ => stores
      end
  end.

Section request_facts.
Context (sv : services).

#[local] Hint Resolve logger_keeps_stores log_timing_keeps_stores
  now_keeps_stores http_keeps_stores set_context_keeps_stores
  get_context_keeps_stores : keeps_stores.

#[local] Hint Resolve logger_keeps_memories log_timing_keeps_memories
  now_keeps_memories http_keeps_memories set_context_keeps_memories
  get_context_keeps_memories : keeps.

Lemma get_conversation_docs_keeps_stores store :
  keeps vector_stores (get_conversation_docs sv store).
Proof. unfold get_conversation_docs. keeps_stores. Qed.

(** ** The answer of the model, decoded (lines 169-195) *)

Lemma blank_nonempty s : blank s = false -> String.eqb s "" = false.
Proof. by destruct s. Qed.

(** ** The shape of the results *)

Lemma store_and_answer_fields g u rd rel w fields w' :
  store_and_answer sv g u rd rel w = (Ok (JDict fields), w') ->
  dict_get "success" fields = Some (JBool true) /\
  dict_get "game_over" fields = None.
Proof.
  unfold store_and_answer. intros H.
  do 14 (apply bind_Ok in H as (? & ? & _ & H)).
  injection H as <- _. done.
Qed.

Lemma handle_error_fields e w r w' :
  _handle_error sv e w = (r, w') ->
  exists message,
    r = Ok (JDict [("success", JBool false);
                   ("message", JStr message);
                   ("options", JList [JStr "다시 시도"; JStr "상태 확인";
                                      JStr "도움말"]);
                   ("error", JStr (str_exn sv e));
                   ("timestamp", JStr (now_iso sv (clock_reads w)))]) /\
    game_memories w' = game_memories w /\
    vector_stores w' = vector_stores w.
Proof.
  unfold _handle_error. rewrite (bind_run _ _ _ _ _ (now_run sv w)).
  intros [= <- <-]. eauto.
Qed.

(** The handler of [process_game_request] (lines 256-260). *)
Lemma request_handler_run g u w e w1 :
  process_body sv g u w = (Raise e, w1) ->
  exists message w',
    process_game_request sv g u w =
      (Ok (JDict [("success", JBool false);
                  ("message", JStr message);
                  ("options", JList [JStr "다시 시도"; JStr "상태 확인";
                                     JStr "도움말"]);
                  ("error", JStr (str_exn sv e));
                  ("timestamp", JStr (now_iso sv (clock_reads w1)))]), w') /\
    game_memories w' = game_memories w1 /\
    vector_stores w' = vector_stores w1.
Proof.
  intros E. unfold process_game_request, try_except. rewrite E.
  cbn [Exception].
  rewrite (bind_run _ _ _ tt _ (logger_run _ _ _)).
  rewrite (bind_run _ _ _ tt _ (logger_run _ _ _)).
  match goal with |- context [_handle_error sv e ?w0] =>
    destruct (_handle_error sv e w0) as [r w'] eqn:Eh end.
  apply handle_error_fields in Eh as (message & -> & Hm & Hv).
  exists message, w'. split; [done|]. split; [by rewrite Hm|by rewrite Hv].
Qed.

(** ** The vector stores during a request *)

Lemma get_vector_memory_opened g w w' :
  get_vector_memory sv g w = (Ok tt, w') ->
  vector_stores w' = opened sv g (vector_stores w).
Proof.
  unfold get_vector_memory, get_world, mbind, M_bind, opened.
  destruct (vector_stores w !! g) as [store|] eqn:Hs.
  - by intros [= <-].
  - unfold _initialize_game_vector_store.
    destruct (chroma_open sv g) as [docs|e]; [|done].
    by intros [= <-].
Qed.

Lemma opened_ready g stores :
  is_Some (stores !! g) -> opened sv g stores = stores.
Proof. unfold opened. by intros [store ->]. Qed.

Lemma ask_model_opened g u x w w' :
  ask_model sv g u w = (Ok x, w') ->
  vector_stores w' = opened sv g (vector_stores w).
Proof.
  unfold ask_model. intros H.
  apply bind_Ok in H as (game_context & w1 & Hprep & H).
  apply (keeps_run vector_stores _ _ _ _ (prepare_keeps_stores sv g)) in Hprep.
  apply bind_Ok in H as ([] & w2 & Hl0 & H). injection Hl0 as <-.
  apply bind_Ok in H as ([] & w3 & Hready & H).
  pose proof (get_vector_memory_opened _ _ _ Hready) as Hopen.
  apply get_vector_memory_ready in Hready as [store Hs].
  apply bind_Ok in H as (rel & w4 & Hsearch & H).
  apply (search_keeps_ready _ _ _ _ _ _ _ _ Hs) in Hsearch.
  apply bind_Ok in H as ([] & w5 & Hl1 & H). injection Hl1 as <-.
  apply bind_Ok in H as ([] & w6 & Hl2 & H). injection Hl2 as <-.
  apply bind_Ok in H as (all & w7 & Hread & H).
  apply read_all_conversations_spec in Hread as [Hvs _].
  apply bind_Ok in H as ([] & w8 & Hl3 & H). injection Hl3 as <-.
  apply bind_Ok in H as ([] & w9 & Hl4 & H). injection Hl4 as <-.
  apply bind_Ok in H as ([] & w10 & Hcall & H). injection Hcall as <-.
  apply bind_Ok in H as (reply & w11 & Hrun & H).
  apply lift_Ok in Hrun as [_ ->].
  apply bind_Ok in H as ([] & w12 & Hl5 & H). injection Hl5 as <-.
  injection H as _ <-. simpl. rewrite Hvs. simpl. rewrite Hsearch, Hopen.
  simpl. by rewrite Hprep.
Qed.

Lemma handle_death_reopens g ch a d w r w' :
  _handle_character_death sv g (JDict ch) a d w = (r, w') ->
  vector_stores w' = reopened sv g (vector_stores w).
Proof.
  intros H.
  destruct (handle_character_death_run sv g ch a d w)
    as (result & w2 & Hrun & _ & _ & _ & _ & Hcase).
  rewrite Hrun in H. injection H as _ <-.
  unfold death_store in Hcase. unfold reopened.
  destruct (vector_stores w !! g) as [[|doc rest]|] eqn:Hs.
  - destruct (chroma_open sv g); tauto.
  - destruct Hcase as [-> _]. by rewrite insert_id.
  - destruct (chroma_open sv g); tauto.
Qed.

Lemma reopened_opened g stores :
  is_Some (opened sv g stores !! g) ->
  reopened sv g (opened sv g stores) = reopened sv g stores.
Proof.
  unfold opened, reopened.
  destruct (stores !! g) as [store|] eqn:Hs; [by rewrite Hs|].
  destruct (chroma_open sv g) as [docs|e] eqn:Hopen.
  - intros _. rewrite lookup_insert_eq.
    destruct docs; [by rewrite insert_insert_eq|done].
  - rewrite Hs. by intros [? ?].
Qed.

(** What [character_update] does when it takes the death branch. *)
Lemma character_update_Some_run g u rd w death_response w' :
  character_update sv g u rd w = (Ok (Some death_response), w') ->
  exists update_data updated_char w1 message,
    py_getitem rd "message" = Ok message /\
    _update_character_info sv g update_data w = (Ok updated_char, w1) /\
    _handle_character_death sv g updated_char u message w1
      = (Ok death_response, w').
Proof.
  intros H. unfold character_update in H.
  apply bind_Ok in H as (has & w0 & Hhas & H).
  apply lift_Ok in Hhas as [Hhas ->].
  destruct has; [|done].
  apply bind_Ok in H as (info & w0 & Hinfo & H).
  apply lift_Ok in Hinfo as [Hinfo ->].
  destruct info as [ | | | | | |[|entry entries]];
    try (apply bind_Ok in H as ([] & ? & _ & H); done).
  apply bind_Ok in H as (updated_char & w1 & Hupd & H).
  apply bind_Ok in H as (dead & w2 & Hdead & H).
  apply lift_Ok in Hdead as [Hdead ->].
  destruct dead; [|done].
  apply bind_Ok in H as (message & w2 & Hmsg & H).
  apply lift_Ok in Hmsg as [Hmsg ->].
  apply bind_Ok in H as (dr & w3 & Hdeath & H).
  injection H as <- <-.
  by exists (entry :: entries), updated_char, w1, message.
Qed.

(** X1.  The answer of the model is always turned into a response: the
    decoding of lines 169-195 never raises.  A blank answer gives the
    canned apology and [json.loads] is not consulted; an answer that
    [json.loads] decodes gives the decoded value, whatever its shape, and
    nothing is logged; an answer it rejects with [JSONDecodeError] becomes
    the message itself, with three stock options; any other failure gives
    the system-error response.  Each fallback logs one error and carries
    [need_image] false. *)
Theorem parse_response_recovers gm_response w :
  exists response_data w',
    parse_response sv gm_response w = (Ok response_data, w') /\
    ((blank gm_response = true /\ response_data = fallback_blank /\
      w' = add_log ERROR "LLM 응답이 비어있습니다" w) \/
     (blank gm_response = false /\
      json_loads sv gm_response = Ok response_data /\ w' = w) \/
     (blank gm_response = false /\
      (exists msg, json_loads sv gm_response = Raise (JSONDecodeError msg)) /\
      response_data =
        JDict [("message", JStr gm_response);
               ("options", JList [JStr "계속 진행"; JStr "상황 확인";
                                  JStr "다른 행동"]);
               ("need_image", JBool false)] /\
      length (logs w') = S (length (logs w))) \/
     (blank gm_response = false /\
      (exists e, json_loads sv gm_response = Raise e /\
                 is_JSONDecodeError e = false) /\
      response_data = fallback_error /\
      length (logs w') = S (length (logs w)))).
Proof.
  unfold parse_response, try_except2.
  destruct (blank gm_response) eqn:Hb.
  - rewrite (bind_run _ _ _ tt _ (logger_run _ _ _)).
    eexists _, _. split; [reflexivity|]. left. done.
  - unfold lift. destruct (json_loads sv gm_response) as [v|e] eqn:Hl.
    + eexists _, _. split; [reflexivity|]. right. left. done.
    + destruct (is_JSONDecodeError e) eqn:He.
      * rewrite (bind_run _ _ _ tt _ (logger_run _ _ _)).
        eexists _, _. split; [reflexivity|]. right. right. left.
        split_and!; [done| | |].
        -- destruct e; try done. eauto.
        -- unfold fallback_unparsed. by rewrite (blank_nonempty _ Hb).
        -- simpl. rewrite length_app. simpl. lia.
      * cbn [Exception].
        rewrite (bind_run _ _ _ tt _ (logger_run _ _ _)).
        eexists _, _. split; [reflexivity|]. right. right. right.
        split_and!; [done|by exists e|done|].
        simpl. rewrite length_app. simpl. lia.
Qed.

(** X2.  A decoded answer without a message is answered as an error.  When
    the model's answer decodes to a value from which ['message'] cannot be
    read (a list, a string, a number, or a dict without that key), the
    request returns the error dict of [_handle_error] with [success]
    false; nothing is added to the conversation memory, and no document is
    added to a vector store. *)
Theorem missing_message_is_an_error game_id user_input w gm_response
  relevant_context w1 rd w2 :
  ask_model sv game_id user_input w
    = (Ok (gm_response, relevant_context), w1) ->
  parse_response sv gm_response w1 = (Ok rd, w2) ->
  (forall message, py_getitem rd "message" <> Ok message) ->
  exists fields w',
    process_game_request sv game_id user_input w = (Ok (JDict fields), w') /\
    dict_get "success" fields = Some (JBool false) /\
    is_Some (dict_get "error" fields) /\
    game_memories w' = game_memories w /\
    vector_stores w' = opened sv game_id (vector_stores w).
Proof.
  intros Hask Hparse Hno.
  pose proof (keeps_run game_memories _ _ _ _
                (ask_model_keeps_memories sv _ _) Hask) as Hm1.
  pose proof (keeps_run game_memories _ _ _ _
                (parse_response_keeps_memories sv _) Hparse) as Hm2.
  pose proof (ask_model_opened _ _ _ _ _ Hask) as Hv1.
  pose proof (keeps_run vector_stores _ _ _ _
                (parse_response_keeps_stores sv _) Hparse) as Hv2.
  destruct (ask_model_ready sv _ _ _ _ _ Hask) as [store Hs1].
  destruct (character_update sv game_id user_input rd w2) as [cu w3] eqn:Hcu.
  pose proof (keeps_run game_memories _ _ _ _
                (character_update_keeps_memories sv _ _ _) Hcu) as Hm3.
  assert (Hbody : exists e w3',
            process_body sv game_id user_input w = (Raise e, w3') /\
            game_memories w3' = game_memories w /\
            vector_stores w3' = opened sv game_id (vector_stores w)).
  { unfold process_body. rewrite (bind_run _ _ _ _ _ Hask). cbn beta iota.
    rewrite (bind_run _ _ _ _ _ Hparse).
    unfold mbind at 1, M_bind at 1. rewrite Hcu.
    destruct cu as [[dr|]|e].
    - apply character_update_Some_run in Hcu
        as (? & ? & ? & message & Hmsg & _). by destruct (Hno message).
    - unfold store_and_answer, lift.
      destruct (py_getitem rd "message") as [message|e] eqn:Hmsg;
        [by destruct (Hno message)|].
      exists e, w3. split; [reflexivity|]. split; [congruence|].
      rewrite (character_update_None_keeps_stores sv _ _ _ _ _ Hcu).
      congruence.
    - exists e, w3. split; [reflexivity|]. split; [congruence|].
      rewrite <- Hv1, <- Hv2. clear Hm3.
      unfold character_update in Hcu.
      apply bind_Raise in Hcu as [Hcu|(has & w0 & Hhas & Hcu)];
        [by injection Hcu as _ <-|].
      apply lift_Ok in Hhas as [_ ->]. destruct has; [|done].
      apply bind_Raise in Hcu as [Hcu|(info & w0 & Hinfo & Hcu)];
        [by injection Hcu as _ <-|].
      apply lift_Ok in Hinfo as [_ ->].
      destruct info as [ | | | | | |[|entry entries]];
        try (apply bind_Raise in Hcu as [Hcu|([] & ? & _ & Hcu)]; done).
      apply bind_Raise in Hcu as [Hcu|(uc & w4 & Hupd & Hcu)].
      { apply (keeps_run vector_stores _ _ _ _
                 (update_character_keeps_stores sv _ _) Hcu). }
      apply (keeps_run vector_stores _ _ _ _
               (update_character_keeps_stores sv _ _)) in Hupd.
      apply bind_Raise in Hcu as [Hcu|(dead & w5 & Hdead & Hcu)];
        [by injection Hcu as _ <-|].
      apply lift_Ok in Hdead as [_ ->]. destruct dead; [|done].
      apply bind_Raise in Hcu as [Hcu|(message & w5 & Hmsg & Hcu)];
        [by injection Hcu as _ <-|].
      apply lift_Ok in Hmsg as [Hmsg ->]. by destruct (Hno message). }
  destruct Hbody as (e & w3' & Hbody & Hm & Hv).
  destruct (request_handler_run _ _ _ _ _ Hbody) as (message & w' & Hrun & Hm' & Hv').
  eexists _, w'. split; [exact Hrun|].
  split_and!; [done|by eexists|congruence|congruence].
Qed.

(** X3.  A game-over answer stores nothing of the exchange.  Whenever the
    request returns a dict that carries [game_over], the early return of
    line 207 was taken: nothing was added to the conversation memory, and
    the vector stores are as they were, except that the store of the game
    has been initialised if it had no handle or held no document (which
    puts in it what the initialisation finds or restores, and nothing of
    the exchange). *)
Theorem game_over_stores_nothing game_id user_input w fields w' :
  process_game_request sv game_id user_input w = (Ok (JDict fields), w') ->
  is_Some (dict_get "game_over" fields) ->
  game_memories w' = game_memories w /\
  vector_stores w' = reopened sv game_id (vector_stores w).
Proof.
  intros Hrun [x Hover].
  destruct (process_body sv game_id user_input w) as [[r|e] w1] eqn:E.
  2: { destruct (request_handler_run _ _ _ _ _ E) as (m & w2 & Hrun' & _).
       rewrite Hrun' in Hrun. injection Hrun as <- _. done. }
  unfold process_game_request, try_except in Hrun. rewrite E in Hrun.
  injection Hrun as -> ->. unfold process_body in E.
  apply bind_Ok in E as ([gm_response rel] & w1 & Hask & E).
  apply bind_Ok in E as (rd & w2 & Hparse & E).
  apply bind_Ok in E as (death & w3 & Hcu & E).
  destruct death as [dr|].
  2: { apply store_and_answer_fields in E as [_ Hno]. congruence. }
  injection E as -> ->.
  pose proof (keeps_run game_memories _ _ _ _
                (ask_model_keeps_memories sv _ _) Hask) as Hm1.
  pose proof (keeps_run game_memories _ _ _ _
                (parse_response_keeps_memories sv _) Hparse) as Hm2.
  pose proof (keeps_run game_memories _ _ _ _
                (character_update_keeps_memories sv _ _ _) Hcu) as Hm3.
  split; [congruence|].
  pose proof (ask_model_opened _ _ _ _ _ Hask) as Hv1.
  pose proof (keeps_run vector_stores _ _ _ _
                (parse_response_keeps_stores sv _) Hparse) as Hv2.
  destruct (ask_model_ready sv _ _ _ _ _ Hask) as [store Hs1].
  apply character_update_Some in Hcu
    as (upd & uc & w4 & message & _ & Hupd & Hdep & _ & Hdeath).
  apply health_depleted_true_dict in Hdep as [ch ->].
  apply (keeps_run vector_stores _ _ _ _
           (update_character_keeps_stores sv _ _)) in Hupd.
  apply handle_death_reopens in Hdeath.
  rewrite Hdeath, Hupd, Hv2, Hv1. apply reopened_opened.
  rewrite <- Hv1. eauto.
Qed.

(** X4.  A message that the conversation memory rejects leaves the user
    input behind.  [add_message] appends the user message before it builds
    the AI message; when LangChain refuses the content of the latter (a
    number, say, where text is expected), the request is answered as an
    error, and the memory of the game holds the user input with no answer
    after it: nothing is undone. *)
Theorem rejected_content_orphans_input game_id user_input w gm_response
  relevant_context w1 rd w2 w3 message :
  ask_model sv game_id user_input w
    = (Ok (gm_response, relevant_context), w1) ->
  parse_response sv gm_response w1 = (Ok rd, w2) ->
  character_update sv game_id user_input rd w2 = (Ok None, w3) ->
  py_getitem rd "message" = Ok message ->
  content_ok sv message = false ->
  exists fields w',
    process_game_request sv game_id user_input w = (Ok (JDict fields), w') /\
    dict_get "success" fields = Some (JBool false) /\
    dict_get "error" fields = Some (JStr (str_exn sv ValidationError)) /\
    game_memories w' !! game_id =
      Some (default [] (game_memories w !! game_id)
            ++ [HumanMessage user_input]).
Proof.
  intros Hask Hparse Hcu Hmsg Hbad.
  pose proof (keeps_run game_memories _ _ _ _
                (ask_model_keeps_memories sv _ _) Hask) as Hm1.
  pose proof (keeps_run game_memories _ _ _ _
                (parse_response_keeps_memories sv _) Hparse) as Hm2.
  pose proof (keeps_run game_memories _ _ _ _
                (character_update_keeps_memories sv _ _ _) Hcu) as Hm3.
  assert (Hbody : exists w4,
            process_body sv game_id user_input w = (Raise ValidationError, w4) /\
            game_memories w4 !! game_id =
              Some (default [] (game_memories w !! game_id)
                    ++ [HumanMessage user_input])).
  { unfold process_body. rewrite (bind_run _ _ _ _ _ Hask). cbn beta iota.
    rewrite (bind_run _ _ _ _ _ Hparse).
    rewrite (bind_run _ _ _ _ _ Hcu).
    unfold store_and_answer, lift. rewrite Hmsg.
    rewrite (bind_run _ _ _ message w3 eq_refl).
    unfold add_message. rewrite Hbad.
    eexists. split; [reflexivity|]. simpl.
    rewrite lookup_insert_eq. congruence. }
  destruct Hbody as (w4 & Hbody & Hmem).
  destruct (request_handler_run _ _ _ _ _ Hbody)
    as (m & w' & Hrun & Hm' & _).
  eexists _, w'. split; [exact Hrun|]. split_and!; [done|done|].
  by rewrite Hm'.
Qed.

End request_facts.

(** The model of [demo] answers with a JSON list. *)
Lemma missing_message_is_an_error_witness :
  let sv := demo "[...]" (Ok no_message) JNull (Ok "") None in
  let run := process_game_request sv "g1" "open the door" empty_world in
  (forall message, py_getitem no_message "message" <> Ok message) /\
  exists fields,
    run.1 = Ok (JDict fields) /\
    dict_get "success" fields = Some (JBool false) /\
    game_memories run.2 = game_memories empty_world.
Proof.
  intros sv run.
  assert (Hno : forall message, py_getitem no_message "message" <> Ok message)
    by done.
  split; [exact Hno|].
  set (s1 := ask_model sv "g1" "open the door" empty_world).
  set (s2 := parse_response sv "[...]" s1.2).
  destruct (missing_message_is_an_error sv "g1" "open the door" empty_world
              "[...]" [] s1.2 no_message s2.2)
    as (fields & w' & Hrun & Hsucc & _ & Hmem & _).
  - apply pair_of_fst. by vm_compute.
  - apply pair_of_fst. by vm_compute.
  - exact Hno.
  - exists fields. subst run. rewrite Hrun. done.
Defined.

(** The character of [demo] falls: the answer carries [game_over], the
    conversation memory is as it was, and the store of the game, which
    had no handle, is the empty store that [demo] opens. *)
Lemma game_over_stores_nothing_witness :
  let sv := demo "{...}" (Ok (JDict fatal_blow)) (JDict fallen_hero)
              (Ok "She fell bravely.") None in
  let run := process_game_request sv "g1" "fight" empty_world in
  (exists fields, run.1 = Ok (JDict fields) /\
                  is_Some (dict_get "game_over" fields)) /\
  game_memories run.2 = game_memories empty_world /\
  vector_stores run.2 = {[ "g1" := [] ]}.
Proof.
  intros sv run.
  assert (Hrun : exists fields,
            run = (Ok (JDict fields), run.2) /\
            is_Some (dict_get "game_over" fields)).
  { eexists. split; [apply pair_of_fst; by vm_compute|].
    eexists. by vm_compute. }
  destruct Hrun as (fields & Hrun & Hover).
  split; [exists fields; by rewrite Hrun|].
  destruct (game_over_stores_nothing sv "g1" "fight" empty_world fields run.2
              Hrun Hover) as [Hmem Hvs].
  split; [exact Hmem|]. rewrite Hvs. reflexivity.
Defined.

(** The model of [demo] answers with the number 42 as its message. *)
Lemma rejected_content_orphans_input_witness :
  let sv := demo "{...}" (Ok numeric_message) JNull (Ok "") None in
  let run := process_game_request sv "g1" "open the door" empty_world in
  content_ok sv (JInt 42) = false /\
  exists fields,
    run.1 = Ok (JDict fields) /\
    dict_get "success" fields = Some (JBool false) /\
    game_memories run.2 !! "g1" = Some [HumanMessage "open the door"].
Proof.
  intros sv run. split; [reflexivity|].
  set (s1 := ask_model sv "g1" "open the door" empty_world).
  set (s2 := parse_response sv "{...}" s1.2).
  set (s3 := character_update sv "g1" "open the door" numeric_message s2.2).
  destruct (rejected_content_orphans_input sv "g1" "open the door" empty_world
              "{...}" [] s1.2 numeric_message s2.2 s3.2 (JInt 42))
    as (fields & w' & Hrun & Hsucc & _ & Hmem).
  - apply pair_of_fst. by vm_compute.
  - apply pair_of_fst. by vm_compute.
  - apply pair_of_fst. by vm_compute.
  - reflexivity.
  - reflexivity.
  - exists fields. subst run. rewrite Hrun. done.
Defined.

End RequestFacts.

(* ===================================================================== *)
(** * The game API (agents/gamemaster.py, lines 262-369) *)
(* ===================================================================== *)

Module GameApi.
Import Py GameMaster.

(** ** Walking a merged record *)

Lemma size_below (F : gset nat) n : (forall x, x ∈ F -> x < n) -> size F <= n.
Proof.
  intros H. rewrite <- (size_set_seq (C := gset nat) 0 n).
  apply subseteq_size. intros x Hx. apply elem_of_set_seq.
  specialize (H x Hx). lia.
Qed.

(** A tree is read back as the value it holds, once the fuel covers its
    objects. *)
Lemma readback_tree_entries h :
  (forall v t F, DeepMerge.tree h v t F ->
     forall fuel, size F <= fuel -> DeepMerge.readback fuel h v = Some t) /\
  (forall d items F, DeepMerge.entries h d items F ->
     forall fuel, size F <= fuel ->
       mapM (fun kv => t ← DeepMerge.readback fuel h (snd kv);
                       Some (fst kv, t)) d = Some items).
Proof.
  apply DeepMerge.tree_entries_ind; try (intros; by destruct fuel).
  - intros l d items F Hl _ IH Hnl fuel Hsize.
    rewrite size_union in Hsize by set_solver.
    rewrite size_singleton in Hsize.
    destruct fuel as [|fuel]; [lia|]. simpl. rewrite Hl. simpl.
    rewrite IH by lia. done.
  - intros k v t d items F1 F2 _ IHt _ IHe Hdisj fuel Hsize.
    rewrite size_union in Hsize by done.
    simpl. rewrite IHt by lia. simpl. rewrite IHe by lia. done.
Qed.

Lemma readback_tree h v t F :
  DeepMerge.tree h v t F ->
  DeepMerge.readback (S (length h)) h v = Some t.
Proof.
  intros Ht. apply (proj1 (readback_tree_entries h) _ _ _ Ht).
  pose proof (size_below F (length h)) as Hs.
  assert (size F <= length h); [|lia].
  apply Hs. intros x Hx. by eapply DeepMerge.tree_dom.
Qed.

(** ** The payload of an update (lines 341-346) *)

(** The fields of the update that the API accepts, in the order of
    [allowed_fields]. *)
Definition payload_fields (update_data : list (string * json)) : list string :=
  List.filter (fun field => dict_has field update_data) allowed_fields.

(** Their values in the merged record. *)
Definition payload_for (merged_data update_data : list (string * json))
  : list (string * json) :=
  map (fun field => (field, default JNull (dict_get field merged_data)))
    (payload_fields update_data).

Lemma merged_get_tree h l md F field :
  DeepMerge.tree h (DeepMerge.HRef l) (JDict md) F ->
  merged_get h (DeepMerge.HRef l) field
    = Ok (default JNull (dict_get field md)).
Proof.
  intros Ht. inversion Ht as [ | | | | | |l0 d its F0 Hl He Hnl]; subst.
  unfold merged_get. rewrite Hl.
  destruct (dict_get field d) as [v|] eqn:Hv.
  - destruct (DeepMerge.entries_update _ _ _ _ _ _ He Hv)
      as (t & Fk & Hget & Htk & _).
    rewrite Hget. by rewrite (readback_tree _ _ _ _ Htk).
  - by rewrite (DeepMerge.entries_get_None _ _ _ _ _ He Hv).
Qed.

Lemma payload_of_tree h l md F update_data fields :
  DeepMerge.tree h (DeepMerge.HRef l) (JDict md) F ->
  payload_of h (DeepMerge.HRef l) update_data fields =
    Ok (map (fun field => (field, default JNull (dict_get field md)))
          (List.filter (fun field => dict_has field update_data) fields)).
Proof.
  intros Ht. induction fields as [|field rest IH]; [done|].
  cbn [payload_of List.filter].
  destruct (dict_has field update_data); [|done].
  rewrite (merged_get_tree _ _ _ _ _ Ht), IH. done.
Qed.

Section game_api.
Context (sv : services).

(** ** Reading the context of a game that has one *)

Lemma touch_context g w ctx :
  session_contexts w !! g = Some ctx ->
  set_session_contexts (fun m => <[g := default [] (m !! g)]> m) w = w.
Proof.
  intros Hc. destruct w. unfold set_session_contexts. simpl in *.
  rewrite Hc. simpl. by rewrite insert_id.
Qed.

Lemma get_context_run g key w ctx :
  session_contexts w !! g = Some ctx ->
  get_context g key w = (Ok (default JNull (dict_get key ctx)), w).
Proof.
  intros Hc. unfold get_context.
  rewrite (bind_run _ _ _ tt w); [|by rewrite update_run, (touch_context _ _ ctx)].
  unfold get_world, mbind, M_bind. by rewrite Hc.
Qed.

Lemma bind_lift {A B} (a : A) (k : A -> M B) w :
  (lift (Ok a) ≫= k) w = k a w.
Proof. reflexivity. Qed.

(** ** [_update_character_info], step by step *)

(** Lines 352-369: the request and what follows it. *)
Definition send_update (game_id : string) (all_characters : json)
  (payload_to_send : list (string * json)) : M json :=
  let api_url := base_url sv +:+ "/api/characters/game/" +:+ game_id in
  try_except
    (logger INFO ("캐릭터 정보 업데이트 요청: game_id=" +:+ game_id
                  +:+ ", payload=" +:+ py_str sv (JDict payload_to_send));;
     updated_char ← http sv (HttpPatch api_url (JDict payload_to_send));
     logger INFO ("캐릭터 정보 업데이트 성공: " +:+ py_str sv updated_char);;
     all_characters ← lift (py_set_first all_characters updated_char);
     set_context game_id "characters" all_characters;;
     mret updated_char)
    is_RequestException
    (fun e =>
       logger ERROR ("캐릭터 정보 업데이트 API 호출 실패: "
                     +:+ str_exn sv e);;
       match e with
       | RequestException _ (Some text) =>
           logger ERROR ("응답 내용: " +:+ text)
       | _ => mret tt
       end;;
       mret JNull).

Definition no_field_warning (update_data : list (string * json)) : string :=
  "업데이트할 필드가 없습니다: " +:+ py_str sv (JDict update_data).

(** What the function does for a game whose first character is a record:
    it raises when the merge does; it logs a warning and returns [None]
    when the update names no accepted field; otherwise it sends the
    payload. *)
Lemma update_character_info_unfold g update_data w ctx original rest :
  session_contexts w !! g = Some ctx ->
  dict_get "characters" ctx = Some (JList (JDict original :: rest)) ->
  _update_character_info sv g update_data w =
    match DeepMerge.merged (JDict update_data) (JDict original) with
    | Raise e => (Raise e, w)
    | Ok merged_data =>
        match payload_for (match merged_data with
                           | JDict md => md
                           | _ => []
                           end) update_data with
        | [] => (Ok JNull, add_log WARNING (no_field_warning update_data) w)
        | payload =>
            send_update g (JList (JDict original :: rest)) payload w
        end
    end.
Proof.
  intros Hc Hchars. unfold _update_character_info.
  rewrite (bind_run _ _ _ _ _ (get_context_run g "characters" w ctx Hc)).
  rewrite Hchars. cbn [default from_option id truthy negb py_len_is_zero lift].
  rewrite (bind_run _ _ _ false w eq_refl).
  cbn [py_first]. rewrite (bind_run _ _ _ (JDict original) w eq_refl).
  destruct (DeepMerge.alloc_tree (JDict original) []) as (F & Ht & _).
  destruct (DeepMerge.alloc (JDict original) []) as [v h] eqn:Ea.
  simpl in Ht.
  pose proof (DeepMerge.deep_merge_dict_refines update_data h v _ F Ht) as Hr.
  destruct (DeepMerge.merged (JDict update_data) (JDict original))
    as [t'|e] eqn:Hm.
  - destruct Hr as (h' & F' & Hrun & Ht' & _).
    rewrite Hrun. rewrite (bind_run _ _ _ (v, h') w eq_refl).
    change (DeepMerge.merged (JDict update_data) (JDict original))
      with (DeepMerge.merged_items DeepMerge.merged update_data
              (JDict original)) in Hm.
    destruct (DeepMerge.merged_items_dict_result _ _ _ Hm) as (md & ->).
    inversion Ht' as [ | | | | | |l0 d its F0 Hl He Hnl]; subst.
    rewrite (payload_of_tree _ _ _ _ _ _ Ht').
    rewrite bind_lift.
    fold (payload_fields update_data). fold (payload_for md update_data).
    destruct (payload_for md update_data) as [|p ps]; reflexivity.
  - rewrite Hr. reflexivity.
Qed.

Lemma payload_for_nil md update_data :
  payload_for md update_data = [] <-> payload_fields update_data = [].
Proof.
  unfold payload_for. split; [apply map_eq_nil|by intros ->].
Qed.

Lemma py_set_first_raises v x e :
  py_set_first v x = Raise e -> is_RequestException e = false.
Proof.
  destruct v as [ | | | | |[|? ?]| ]; simpl; by intros [= <-].
Qed.

Lemma send_update_request g all payload w r w' :
  send_update g all payload w = (r, w') ->
  requests_sent w' =
    requests_sent w ++ [HttpPatch (base_url sv +:+ "/api/characters/game/"
                                   +:+ g) (JDict payload)].
Proof.
  unfold send_update, try_except, http, logger, update, lift, set_context,
    mbind, M_bind, mret, M_ret.
  destruct (http_patch sv _ _) as [updated|e].
  - destruct (py_set_first all updated) as [all'|e] eqn:Hset.
    + by intros [= _ <-].
    + rewrite (py_set_first_raises _ _ _ Hset). by intros [= _ <-].
  - destruct (is_RequestException e); [|by intros [= _ <-]].
    destruct e as [ | | | | | | |msg [text|]| | ]; by intros [= _ <-].
Qed.

(** X5.  What [_update_character_info] sends.  For a game whose stored
    first character is a record: the update is merged into a copy of that
    record; if the merge raises, the exception leaves the function and no
    request is sent; otherwise the payload holds, for each of the fields
    name, class, level, stats, inventory, avatar, health that the update
    names, in this order, the value of the field in the merged record (for
    a nested dict such as stats, the whole merged dict, not the delta).
    With an empty payload no request is sent and [None] is returned; with
    a non-empty one exactly one request is sent, a PATCH of the payload to
    [/api/characters/game/<game_id>]. *)
Theorem update_payload_is_merged_projection game_id update_data w ctx
  original rest r w' :
  session_contexts w !! game_id = Some ctx ->
  dict_get "characters" ctx = Some (JList (JDict original :: rest)) ->
  _update_character_info sv game_id update_data w = (r, w') ->
  match DeepMerge.merged (JDict update_data) (JDict original) with
  | Raise e => r = Raise e /\ requests_sent w' = requests_sent w
  | Ok merged_data =>
      exists md, merged_data = JDict md /\
        map fst (payload_for md update_data) =
          List.filter (fun field => dict_has field update_data)
            ["name"; "class"; "level"; "stats"; "inventory"; "avatar";
             "health"] /\
        (forall field value, In (field, value) (payload_for md update_data) ->
           value = default JNull (dict_get field md)) /\
        match payload_for md update_data with
        | [] => r = Ok JNull /\ requests_sent w' = requests_sent w
        | payload =>
            requests_sent w' =
              requests_sent w ++
              [HttpPatch (base_url sv +:+ "/api/characters/game/" +:+ game_id)
                 (JDict payload)]
        end
  end.
Proof.
  intros Hc Hchars. rewrite (update_character_info_unfold _ _ _ _ _ _ Hc Hchars).
  destruct (DeepMerge.merged (JDict update_data) (JDict original))
    as [t'|e] eqn:Hm.
  2: { by intros [= <- <-]. }
  change (DeepMerge.merged (JDict update_data) (JDict original))
    with (DeepMerge.merged_items DeepMerge.merged update_data
            (JDict original)) in Hm.
  destruct (DeepMerge.merged_items_dict_result _ _ _ Hm) as (md & ->).
  intros Hrun. exists md. split_and!; [done| | |].
  - unfold payload_for. rewrite map_map. simpl. apply map_id.
  - unfold payload_for. intros field value Hin.
    apply in_map_iff in Hin as (f & [= <- <-] & _). done.
  - destruct (payload_for md update_data) as [|p ps] eqn:Hp.
    + by injection Hrun as <- <-.
    + by apply send_update_request in Hrun.
Qed.

(** X6.  What an update does to the stored characters.  When the PATCH is
    answered, the function returns the answer of the API and the first
    stored character becomes that answer (not the record merged locally),
    the other characters staying as they were.  When the PATCH fails with
    a [RequestException], the function logs the failure, returns [None]
    and leaves the session contexts as they were.  Any other exception
    leaves the function, the contexts being unchanged. *)
Theorem update_outcome_and_context game_id update_data w ctx original rest
  md p ps r w' :
  session_contexts w !! game_id = Some ctx ->
  dict_get "characters" ctx = Some (JList (JDict original :: rest)) ->
  DeepMerge.merged (JDict update_data) (JDict original) = Ok (JDict md) ->
  payload_for md update_data = p :: ps ->
  _update_character_info sv game_id update_data w = (r, w') ->
  match http_patch sv (base_url sv +:+ "/api/characters/game/" +:+ game_id)
          (JDict (p :: ps)) with
  | Ok updated_char =>
      r = Ok updated_char /\
      session_contexts w' =
        <[game_id := dict_set "characters" (JList (updated_char :: rest)) ctx]>
          (session_contexts w)
  | Raise e =>
      session_contexts w' = session_contexts w /\
      if is_RequestException e
      then r = Ok JNull /\
           In (ERROR, "캐릭터 정보 업데이트 API 호출 실패: " +:+ str_exn sv e)
              (logs w')
      else r = Raise e
  end.
Proof.
  intros Hc Hchars Hm Hp.
  rewrite (update_character_info_unfold _ _ _ _ _ _ Hc Hchars), Hm, Hp.
  unfold send_update, try_except, http, logger, update, lift, set_context,
    mbind, M_bind, mret, M_ret.
  destruct (http_patch sv _ _) as [updated|e].
  - cbn [py_set_first]. intros [= <- <-]. split; [done|].
    simpl. by rewrite Hc.
  - destruct (is_RequestException e) eqn:He; [|by intros [= <- <-]].
    destruct e as [ | | | | | | |msg [text|]| | ]; try done;
      intros [= <- <-]; (split_and!; [done|done|]); simpl.
    + apply in_or_app. left. apply in_or_app. right. by left.
    + apply in_or_app. right. by left.
Qed.

(** ** [_prepare_game_context] and the failures of the API *)

Definition title_url (game_id : string) : string :=
  base_url sv +:+ "/api/games/" +:+ game_id +:+ "/title".

Definition characters_url (game_id : string) : string :=
  base_url sv +:+ "/api/games/" +:+ game_id +:+ "/characters".

(** X7.  [_prepare_game_context] survives the failures it names, and only
    those.  When both requests fail with a [RequestException] or a
    [JSONDecodeError], it returns a context of one line saying that the
    game information could not be loaded (or is malformed), having sent
    the two GET requests in order and logged two errors, and the session
    contexts are as they were.  When the title request is answered with
    JSON that is not an object, [data.get] raises [AttributeError], which
    no clause catches: the exception leaves the function after the first
    request, and the characters are never asked for. *)
Theorem prepare_context_failures game_id w :
  (forall e1 e2,
     http_get sv (title_url game_id) = Raise e1 -> fetch_failed e1 = true ->
     http_get sv (characters_url game_id) = Raise e2 ->
     fetch_failed e2 = true ->
     exists w',
       _prepare_game_context sv game_id w =
         (Ok (if is_RequestException e1
              then "게임 정보를 불러오는 데 실패했습니다."
              else "게임 정보 형식이 올바르지 않습니다."), w') /\
       session_contexts w' = session_contexts w /\
       requests_sent w' =
         requests_sent w ++ [HttpGet (title_url game_id);
                             HttpGet (characters_url game_id)] /\
       length (logs w') = 2 + length (logs w)) /\
  (forall data,
     http_get sv (title_url game_id) = Ok data ->
     (forall d, data <> JDict d) ->
     _prepare_game_context sv game_id w =
       (Raise AttributeError, add_request (HttpGet (title_url game_id)) w)).
Proof.
  split.
  - intros e1 e2 H1 Hf1 H2 Hf2.
    unfold _prepare_game_context, try_except, http, logger, update, lift,
      mbind, M_bind, mret, M_ret.
    fold (title_url game_id). fold (characters_url game_id).
    rewrite H1, Hf1, H2, Hf2.
    destruct (is_RequestException e1), (is_RequestException e2);
      (eexists; split; [reflexivity|]); simpl;
      rewrite ?length_app; simpl;
      (split_and!; [done|by rewrite <- app_assoc|lia]).
  - intros data Hd Hnd.
    unfold _prepare_game_context, try_except, http, update, lift,
      mbind, M_bind, mret, M_ret.
    fold (title_url game_id). rewrite Hd.
    destruct data as [ | | | | | |d]; try reflexivity.
    by destruct (Hnd d).
Qed.

End game_api.

(** The character of [demo], wounded: the update names [health] and a
    field [gold] that the API does not accept. *)
Definition wound : list (string * json) :=
  [("gold", JInt 5); ("health", JInt 1); ("stats", JDict [("dex", JInt 3)])].

Definition hero_record : list (string * json) :=
  [("id", JInt 7); ("name", JStr "Ann"); ("class", JStr "rogue");
   ("level", JInt 2); ("health", JInt 4); ("maxHealth", JInt 10);
   ("stats", JDict [("str", JInt 5)]); ("inventory", JList [])].

Definition with_hero : world :=
  {| game_memories := ∅;
     session_contexts := {[ "g1" := [("characters", JList [hero])] ]};
     vector_stores := ∅;
     requests_sent := []; llm_calls := []; logs := []; clock_reads := 0 |}.

Lemma update_payload_is_merged_projection_witness :
  let sv := demo "{...}" (Ok narration) (JDict fallen_hero) (Ok "") None in
  let run := _update_character_info sv "g1" wound with_hero in
  requests_sent run.2 =
    [HttpPatch "http://api/api/characters/game/g1"
       (JDict [("stats", JDict [("str", JInt 5); ("dex", JInt 3)]);
               ("health", JInt 1)])].
Proof.
  intros sv run.
  pose proof (update_payload_is_merged_projection sv "g1" wound with_hero
                [("characters", JList [hero])] hero_record [] run.1 run.2
                eq_refl eq_refl (surjective_pairing _)) as H.
  vm_compute DeepMerge.merged in H.
  destruct H as (md & [= <-] & _ & _ & H). exact H.
Defined.

Lemma update_outcome_and_context_witness :
  let sv := demo "{...}" (Ok narration) (JDict fallen_hero) (Ok "") None in
  let run := _update_character_info sv "g1" wound with_hero in
  run.1 = Ok (JDict fallen_hero) /\
  session_contexts run.2 !! "g1" =
    Some [("characters", JList [JDict fallen_hero])].
Proof.
  intros sv run.
  pose proof (update_outcome_and_context sv "g1" wound with_hero
                [("characters", JList [hero])] hero_record [] _ _ _
                run.1 run.2
                eq_refl eq_refl eq_refl eq_refl (surjective_pairing _)) as H.
  simpl in H. destruct H as [Hr Hc]. split; [exact Hr|].
  rewrite Hc. reflexivity.
Defined.

(** A service whose game API is down. *)
Definition offline : services :=
  {| json_loads := fun _ => Ok narration;
     py_str := fun _ => "<value>";
     json_dumps := fun _ => "<json>";
     str_exn := exn_name;
     format_exc := exn_name;
     random_index := 0;
     now_iso := fun n => "2025-01-01T00:00:0" +:+ pretty n;
     gm_chain_run := fun _ _ _ _ => Ok "{...}";
     llm_invoke := fun _ => Ok "";
     http_get := fun _ => Raise (RequestException "connection refused" None);
     http_patch := fun _ _ => Raise (RequestException "connection refused" None);
     base_url := "http://api";
     chroma_open := fun _ => Ok [];
     similarity_search := fun _ _ _ => Ok [];
     chroma_get_error := fun _ => None;
     chroma_add_error := fun _ _ => None;
     split_text := fun text => [text];
     content_ok := fun v => match v with JStr _ => true | _ => false end |}.

Lemma prepare_context_failures_witness :
  exists w',
    _prepare_game_context offline "g1" empty_world =
      (Ok "게임 정보를 불러오는 데 실패했습니다.", w') /\
    requests_sent w' = [HttpGet "http://api/api/games/g1/title";
                        HttpGet "http://api/api/games/g1/characters"].
Proof.
  destruct (proj1 (prepare_context_failures offline "g1" empty_world)
              (RequestException "connection refused" None)
              (RequestException "connection refused" None)
              eq_refl eq_refl eq_refl eq_refl)
    as (w' & Hrun & _ & Hreq & _).
  exists w'. split; [exact Hrun|exact Hreq].
Defined.

End GameApi.

(* ===================================================================== *)
(** * The conversation memory and the session contexts
      (memory/game_memory.py) *)
(* ===================================================================== *)

Module GameMemory.
Import Py GameMaster.

(** [l[start:]] *)
Definition slice_from {A} (start : Z) (l : list A) : list A :=
  let len := Z.of_nat (length l) in
  let first :=
    if (start <? 0)%Z then Z.max 0 (start + len) else Z.min start len in
  drop (Z.to_nat first) l.

(** [len(s)]: the code points of [s], which are the bytes of its UTF-8
    form that are not continuation bytes. *)
Definition py_len (s : string) : nat :=
  length (List.filter (fun c => negb (byte_in c 128 191))
            (String.list_ascii_of_string s)).

Definition is_human (m : chat_message) : bool :=
  match m with HumanMessage _ => true | AIMessage _ => false end.

Definition is_ai (m : chat_message) : bool :=
  match m with HumanMessage _ => false | AIMessage _ => true end.

Section memory_manager.
(** [memory.moving_summary_buffer] of the memory of a game: an attribute
    that LangChain keeps.  The service reads it and never writes it, so
    it holds the value LangChain gave it when the memory was made, which
    is also the value that [memory.clear()] puts back. *)
Variable moving_summary_buffer : string -> string.

(** ** [TRPGMemoryManager] *)

(** [get_memory]: the memory of a game is created on first use.  The
    memory is given by its messages. *)
Definition get_memory (game_id : string) : M (list chat_message) :=
  w ← get_world;
  match game_memories w !! game_id with
  | None =>
      update (set_game_memories <[game_id := []]>);;
      mret []
  | Some memory => mret memory
  end.

Definition get_chat_history (game_id : string) : M (list chat_message) :=
  memory ← get_memory game_id;
  mret memory.

(** [clear_memory]: [memory.clear()] empties the messages of a memory
    that exists. *)
Definition clear_memory (game_id : string) : M unit :=
  w ← get_world;
  match game_memories w !! game_id with
  | Some _ => update (set_game_memories <[game_id := []]>)
  | None => mret tt
  end.

Definition reset_game_memory (game_id : string) : M unit :=
  w ← get_world;
  match game_memories w !! game_id with
  | Some _ => update (set_game_memories (delete game_id))
  | None => mret tt
  end.

(** [get_recent_messages(game_id, n)]:
    [messages[-n:] if len(messages) > n else messages] *)
Definition get_recent_messages (game_id : string) (n : Z)
  : M (list chat_message) :=
  messages ← get_chat_history game_id;
  mret (if (n <? Z.of_nat (length messages))%Z
        then slice_from (- n) messages
        else messages).

Definition get_memory_stats (game_id : string) : M json :=
  w ← get_world;
  match game_memories w !! game_id with
  | None => mret (JDict [("exists", JBool false)])
  | Some messages =>
      let summary := moving_summary_buffer game_id in
      mret (JDict
        [("exists", JBool true);
         ("total_messages", JInt (Z.of_nat (length messages)));
         ("human_messages",
            JInt (Z.of_nat (length (List.filter is_human messages))));
         ("ai_messages",
            JInt (Z.of_nat (length (List.filter is_ai messages))));
         ("has_summary", JBool (truthy (JStr summary)));
         ("summary_length", JInt (Z.of_nat (py_len summary)))])
  end.

(** ** [SessionContextManager] *)

(** [get_context(game_id, key=None)]: the value under [key], or the whole
    context when [key] is [None] or empty. *)
Definition get_context (game_id : string) (key : option string) : M json :=
  update (set_session_contexts (fun m =>
    <[game_id := default [] (m !! game_id)]> m));;
  w ← get_world;
  let context := default [] (session_contexts w !! game_id) in
  match key with
  | Some key =>
      if truthy (JStr key) then mret (default JNull (dict_get key context))
      else mret (JDict context)
  | None => mret (JDict context)
  end.

Definition update_character_info (game_id : string) (character_data : json)
  : M unit :=
  set_context game_id "characters" character_data.

Definition update_scenario_info (game_id : string) (scenario_data : json)
  : M unit :=
  set_context game_id "scenario" scenario_data.

End memory_manager.

Example recent_example :
  let w := set_game_memories
             <["g" := [HumanMessage "a"; AIMessage (JStr "b");
                       HumanMessage "c"]]> empty_world in
  (get_recent_messages "g" 2 w).1
    = Ok [AIMessage (JStr "b"); HumanMessage "c"] /\
  (get_recent_messages "g" 0 w).1
    = Ok [HumanMessage "a"; AIMessage (JStr "b"); HumanMessage "c"] /\
  (get_recent_messages "g" 5 w).1
    = Ok [HumanMessage "a"; AIMessage (JStr "b"); HumanMessage "c"].
Proof. by vm_compute. Qed.

(** ** Facts *)

Lemma slice_from_last {A} (n : Z) (l : list A) :
  (0 < n)%Z -> slice_from (- n) l = drop (length l - Z.to_nat n) l.
Proof.
  intros Hn. unfold slice_from.
  assert ((- n <? 0)%Z = true) as -> by lia. f_equal. lia.
Qed.

Lemma get_memory_run g w :
  get_memory g w =
    (Ok (default [] (game_memories w !! g)),
     match game_memories w !! g with
     | Some _ => w
     | None => set_game_memories <[g := []]> w
     end).
Proof.
  unfold get_memory, get_world, mbind, M_bind.
  by destruct (game_memories w !! g).
Qed.

Lemma get_recent_messages_run g n w :
  get_recent_messages g n w =
    (let messages := default [] (game_memories w !! g) in
     Ok (if (n <? Z.of_nat (length messages))%Z
         then slice_from (- n) messages else messages),
     match game_memories w !! g with
     | Some _ => w
     | None => set_game_memories <[g := []]> w
     end).
Proof.
  unfold get_recent_messages, get_chat_history.
  unfold mbind at 1 2, M_bind at 1 2. rewrite get_memory_run. done.
Qed.

(** X8.  The window of [get_recent_messages] (and of the game master's
    [get_chat_history], which is this function).  With [messages] the
    messages of the game (none for a game without memory): for a positive
    [n] the result is the last [n] messages, all of them when there are
    fewer; for [n = 0] it is the whole history, not the empty list; for a
    negative [n] it is the history without its first [-n] messages.  The
    call creates the memory of a game that had none, so that
    [get_memory_stats] reports the game as existing afterwards. *)
Theorem recent_messages_window summary game_id n w :
  let messages := default [] (game_memories w !! game_id) in
  exists recent w',
    get_recent_messages game_id n w = (Ok recent, w') /\
    game_memories w' = <[game_id := messages]> (game_memories w) /\
    ((0 < n)%Z ->
       recent = drop (length messages - Z.to_nat n) messages /\
       length recent = Nat.min (Z.to_nat n) (length messages)) /\
    (n = 0%Z -> recent = messages) /\
    ((n < 0)%Z -> recent = drop (Z.to_nat (- n)) messages) /\
    exists stats,
      (get_memory_stats summary game_id w').1 = Ok (JDict stats) /\
      dict_get "exists" stats = Some (JBool true) /\
      dict_get "total_messages" stats
        = Some (JInt (Z.of_nat (length messages))).
Proof.
  intros messages. rewrite get_recent_messages_run. fold messages.
  eexists _, _. split; [reflexivity|]. split_and!.
  - subst messages. destruct (game_memories w !! game_id) eqn:E; simpl.
    + by rewrite insert_id.
    + done.
  - intros Hn. cbn zeta.
    assert (Hd : (if (n <? Z.of_nat (length messages))%Z
                  then slice_from (- n) messages else messages)
                 = drop (length messages - Z.to_nat n) messages).
    { destruct (n <? Z.of_nat (length messages))%Z eqn:E.
      - by apply slice_from_last.
      - apply Z.ltb_ge in E.
        replace (length messages - Z.to_nat n) with 0 by lia. done. }
    rewrite Hd. split; [done|]. rewrite length_drop. lia.
  - intros ->. cbn zeta. destruct (0 <? _)%Z; [|done].
    unfold slice_from. simpl.
    replace (Z.to_nat (Z.min 0 _)) with 0 by lia. done.
  - intros Hn. cbn zeta. generalize dependent messages. intros messages.
    assert ((n <? Z.of_nat (length messages))%Z = true) as ->
      by (apply Z.ltb_lt; lia).
    unfold slice_from. assert ((- n <? 0)%Z = false) as -> by lia.
    destruct (decide (- n <= Z.of_nat (length messages))%Z) as [Hle|Hgt].
    + by rewrite Z.min_l.
    + rewrite Z.min_r by lia. rewrite Nat2Z.id.
      rewrite !drop_ge; [done|lia|lia].
  - unfold get_memory_stats, get_world, mbind, M_bind. subst messages.
    destruct (game_memories w !! game_id) as [ms|] eqn:E; simpl.
    + rewrite E. eexists. split; [reflexivity|]. done.
    + rewrite lookup_insert_eq. eexists. split; [reflexivity|]. done.
Qed.

Lemma clear_memory_run g w :
  clear_memory g w =
    (Ok tt, match game_memories w !! g with
            | Some _ => set_game_memories <[g := []]> w
            | None => w
            end).
Proof.
  unfold clear_memory, get_world, mbind, M_bind.
  by destruct (game_memories w !! g).
Qed.

Lemma reset_game_memory_run g w :
  exists w', reset_game_memory g w = (Ok tt, w') /\
    game_memories w' = delete g (game_memories w) /\
    session_contexts w' = session_contexts w /\
    vector_stores w' = vector_stores w.
Proof.
  unfold reset_game_memory, get_world, mbind, M_bind.
  destruct (game_memories w !! g) eqn:E.
  - eexists. split; [reflexivity|]. done.
  - exists w. split; [done|]. split; [|done].
    symmetry. by apply delete_id.
Qed.

(** ** The session contexts *)

Lemma get_context_result g key w :
  (get_context g key w).1 =
    let context := default [] (session_contexts w !! g) in
    match key with
    | Some k => if String.eqb k "" then Ok (JDict context)
                else Ok (default JNull (dict_get k context))
    | None => Ok (JDict context)
    end.
Proof.
  unfold get_context, update, get_world, mbind, M_bind. simpl.
  rewrite lookup_insert_eq.
  destruct key as [k|]; [|done]. by destruct (String.eqb k "").
Qed.

(** For a key that is not empty this is the reading that
    [_update_character_info] makes. *)
Lemma get_context_key g key w :
  key <> "" -> get_context g (Some key) w = GameMaster.get_context g key w.
Proof.
  intros Hk. apply String.eqb_neq in Hk.
  unfold get_context, GameMaster.get_context, update, get_world, mbind, M_bind.
  simpl. rewrite Hk, lookup_insert_eq. done.
Qed.

(** X9.  Writing and reading a session context.  After
    [set_context(game_id, key, value)]: reading [key] gives [value] when
    [key] is not the empty string; every other key of the game, and every
    key of every other game, reads as before; reading without a key gives
    the whole context of the game, in which the new key has been set in
    place or appended.  The empty key is special: it is written like any
    key, but reading it gives the whole context, not the value. *)
Theorem context_round_trip game_id key value w :
  exists w1,
    set_context game_id key value w = (Ok tt, w1) /\
    (key <> "" -> (get_context game_id (Some key) w1).1 = Ok value) /\
    (forall key', key' <> key ->
       (get_context game_id (Some key') w1).1 =
         if String.eqb key' "" then (get_context game_id None w1).1
         else (get_context game_id (Some key') w).1) /\
    (forall g k, g <> game_id ->
       (get_context g k w1).1 = (get_context g k w).1) /\
    (get_context game_id None w1).1 =
      Ok (JDict (dict_set key value
                   (default [] (session_contexts w !! game_id)))) /\
    (get_context game_id (Some "") w1).1 = (get_context game_id None w1).1.
Proof.
  eexists. split; [reflexivity|].
  split_and!; intros; rewrite !get_context_result; cbn zeta; simpl;
    rewrite ?lookup_insert_eq; simpl.
  - assert (String.eqb key "" = false) as -> by by apply String.eqb_neq.
    by rewrite dict_get_set_eq.
  - destruct (String.eqb key' ""); [done|]. by rewrite dict_get_set_ne.
  - by rewrite lookup_insert_ne.
  - done.
  - done.
Qed.

End GameMemory.

(* ===================================================================== *)
(** * The vector stores: restoring, counting, resetting
      (memory/vector_memory.py) *)
(* ===================================================================== *)

Module VectorMemory.
Import Py GameMaster.

(** What Chroma answers to the administration of a collection. *)
Record chroma_admin : Type := ChromaAdmin {
  (** the failure, if any, of [vector_store._collection.count()] *)
  count_error : list vdoc -> option exn;
  (** the failure, if any, of [chromadb.PersistentClient(path)] followed
      by [delete_collection(name)] *)
  delete_collection_error : string -> option exn;
  (** [self.persist_directory] *)
  persist_directory : string
}.

(** Lines 86-94: the document that restores one message of the MongoDB
    history.  It carries the sequence number and no timestamp. *)
Definition restored_document (game_id : string) (chat : Mongo.chat_doc)
  : vdoc :=
  {| page_content := "사용자: " +:+ Mongo.user_input chat +:+ LF
                     +:+ "GM: " +:+ Mongo.ai_response chat;
     doc_type := "conversation";
     doc_source := "restored_dialogue";
     doc_game_id := game_id;
     doc_role := None;
     doc_timestamp := None;
     doc_sequence_number := Some (Mongo.sequence_number chat);
     doc_chunk_id := None;
     doc_image_url := None |}.

Section vector_memory.
Context (sv : services) (ca : chroma_admin).

(** Lines 85-95: [vector_store.add_documents([doc])], one message after
    the other; the first failure ends the loop. *)
Fixpoint add_each (game_id : string) (chat_history : list Mongo.chat_doc)
  (vector_store : list vdoc) : except unit * list vdoc :=
  match chat_history with
  | [] => (Ok tt, vector_store)
  | chat :: rest =>
      let doc := restored_document game_id chat in
      match chroma_add_error sv vector_store [doc] with
      | Some e => (Raise e, vector_store)
      | None => add_each game_id rest (vector_store ++ [doc])
      end
  end.

(** Lines 79-100 of [_initialize_game_vector_store]: the conversations of
    MongoDB are added to a new store.  [chat_history] is what
    [scenario_data_manager.get_chat_history(game_id, limit=100)] returned
    or raised.  The result is the store and the records logged. *)
Definition restore_conversations (game_id : string)
  (chat_history : except (list Mongo.chat_doc)) (vector_store : list vdoc)
  : list vdoc * list (level * string) :=
  let failed (e : exn) :=
    (WARNING, "Failed to load existing conversations to vector store: "
              +:+ str_exn sv e) in
  match chat_history with
  | Raise e => (vector_store, [failed e])
  | Ok [] => (vector_store, [])
  | Ok history =>
      let adding :=
        (INFO, "Adding " +:+ pretty (length history)
               +:+ " existing conversations to vector store for game "
               +:+ game_id) in
      match add_each game_id history vector_store with
      | (Ok _, store) =>
          (store,
           [adding;
            (INFO, "Successfully added existing conversations to vector store")])
      | (Raise e, store) => (store, [adding; failed e])
      end
  end.

(** [get_memory_stats] *)
Definition get_memory_stats (game_id : string) : M json :=
  w ← get_world;
  match vector_stores w !! game_id with
  | None =>
      mret (JDict [("exists", JBool false); ("total_documents", JInt 0)])
  | Some vector_store =>
      let total_docs :=
        match count_error ca vector_store with
        | None => length vector_store
        | Some _ => 0
        end in
      mret (JDict [("exists", JBool true);
                   ("total_documents", JInt (Z.of_nat total_docs));
                   ("collection_name", JStr ("game_" +:+ game_id));
                   ("persist_directory", JStr (persist_directory ca))])
  end.

(** [reset_vector_memory]: the handle of the game is dropped and the
    collection is deleted; every failure is caught and logged. *)
Definition reset_vector_memory (game_id : string) : M unit :=
  try_except
    (w ← get_world;
     match vector_stores w !! game_id with
     | Some _ => update (set_vector_stores (delete game_id))
     | None => mret tt
     end;;
     let collection_name := "game_" +:+ game_id in
     try_except
       (match delete_collection_error ca collection_name with
        | Some e => raise e
        | None => mret tt
        end;;
        logger INFO ("Deleted Chroma collection for game " +:+ game_id))
       Exception
       (fun e =>
          logger WARNING ("Failed to delete Chroma collection for "
                          +:+ game_id +:+ ": " +:+ str_exn sv e));;
     logger INFO ("Reset vector memory for game " +:+ game_id))
    Exception
    (fun e =>
       logger ERROR ("Error resetting vector memory for " +:+ game_id
                     +:+ ": " +:+ str_exn sv e)).

(** ** Facts *)

Lemma add_each_spec g history store :
  exists k,
    (add_each g history store).2
      = store ++ map (restored_document g) (take k history) /\
    k <= length history /\
    ((add_each g history store).1 = Ok tt -> k = length history) /\
    (forall e, (add_each g history store).1 = Raise e ->
       k < length history /\
       chroma_add_error sv
         (store ++ map (restored_document g) (take k history))
         (map (restored_document g) (take 1 (drop k history))) = Some e).
Proof.
  revert store. induction history as [|chat rest IH]; intros store.
  - exists 0. simpl. rewrite app_nil_r. split_and!; [done|done|done|done].
  - simpl.
    destruct (chroma_add_error sv store [restored_document g chat])
      as [e|] eqn:E.
    + exists 0. simpl. rewrite app_nil_r.
      split_and!; [done|lia|done|].
      intros e' [= <-]. split; [lia|done].
    + destruct (IH (store ++ [restored_document g chat]))
        as (k & Hk & Hle & Hok & Hraise).
      exists (S k). simpl. rewrite Hk, <- app_assoc. simpl.
      split_and!; [done|lia|intros H; f_equal; auto|].
      intros e He. destruct (Hraise e He) as [Hlt Herr].
      split; [lia|]. by rewrite <- app_assoc in Herr.
Qed.

Lemma reset_vector_memory_run g w :
  exists w', reset_vector_memory g w = (Ok tt, w') /\
    vector_stores w' = delete g (vector_stores w) /\
    game_memories w' = game_memories w /\
    session_contexts w' = session_contexts w.
Proof.
  unfold reset_vector_memory, try_except, get_world, logger, update, raise,
    mbind, M_bind, mret, M_ret.
  destruct (vector_stores w !! g) eqn:E;
    destruct (delete_collection_error ca ("game_" +:+ g));
    (eexists; split; [reflexivity|]); simpl;
    (split_and!; [|done|done]); try done;
    symmetry; by apply delete_id.
Qed.

End vector_memory.

(** ** The restored conversations in the context of a request *)

Definition untimed (c : conversation) : bool :=
  String.eqb (GameMaster.timestamp c) "".

Lemma sorted_partition {A} (le : A -> A -> bool) (P : A -> bool) l :
  (forall a b, P a = true -> P b = false -> le b a = false) ->
  StronglySorted (PySort.le_prop le) l ->
  l = List.filter P l ++ List.filter (fun a => negb (P a)) l.
Proof.
  intros Hsep. induction 1 as [|x l Hs IH Hall]; [done|]. simpl.
  destruct (P x) eqn:Hx; simpl.
  - by rewrite <- IH.
  - assert (Hnone : List.filter P l = []).
    { clear IH Hs. induction l as [|y l IHl]; [done|]. simpl.
      apply Forall_cons in Hall as [Hxy Hall].
      destruct (P y) eqn:Hy.
      - unfold PySort.le_prop in Hxy. by rewrite (Hsep y x Hy Hx) in Hxy.
      - by apply IHl. }
    rewrite Hnone in IH |- *. simpl in *. by rewrite <- IH.
Qed.

Lemma untimed_first a b :
  untimed a = true -> untimed b = false -> conversation_le b a = false.
Proof.
  unfold untimed, conversation_le. intros Ha Hb.
  apply String.eqb_eq in Ha. rewrite Ha, Hb.
  by destruct (GameMaster.timestamp b).
Qed.

Lemma In_all_conversations store c :
  In c (all_conversations_of store) <->
  exists d, In d store /\ doc_type d = "conversation" /\ c = to_conversation d.
Proof.
  unfold all_conversations_of, conversation_docs. split.
  - intros H. apply (Permutation_in _ (PySort.sort_perm _ _)) in H.
    apply in_map_iff in H as (d & <- & Hd).
    apply filter_In in Hd as [Hd Ht]. apply String.eqb_eq in Ht. eauto.
  - intros (d & Hd & Ht & ->).
    apply (Permutation_in _ (Permutation_sym (PySort.sort_perm _ _))).
    apply in_map. apply filter_In. split; [done|]. by apply String.eqb_eq.
Qed.

Lemma strongly_sorted_filter {A} (R : A -> A -> Prop) (P : A -> bool) l :
  StronglySorted R l -> StronglySorted R (List.filter P l).
Proof.
  induction 1 as [|x l Hs IH Hall]; simpl; [constructor|].
  destruct (P x); [|done]. constructor; [done|].
  rewrite List.Forall_forall in *. intros y Hy.
  apply filter_In in Hy as [Hy _]. auto.
Qed.

Lemma untimed_by_sequence l :
  Forall (fun c => untimed c = true) l ->
  StronglySorted (PySort.le_prop conversation_le) l ->
  StronglySorted (fun a b => (sequence a <= sequence b)%Z) l.
Proof.
  intros Hu. induction 1 as [|x l Hs IH Hall]; constructor.
  - apply IH. by apply Forall_cons in Hu as [_ ?].
  - apply Forall_cons in Hu as [Hx Hu].
    rewrite List.Forall_forall in *. intros y Hy.
    specialize (Hall y Hy). specialize (Hu y Hy).
    unfold PySort.le_prop, conversation_le, untimed in *.
    apply String.eqb_eq in Hx, Hu. rewrite Hx, Hu in Hall. simpl in Hall.
    by apply Z.leb_le.
Qed.

(** X10.  What the first opening of a store restores from MongoDB.  The
    conversations added are documents of type [conversation] built from
    the messages that [get_chat_history(game_id, limit=100)] returns, in
    its order: at most 100 messages, those of the game with the highest
    sequence numbers, lowest first.  When no write to the store fails all
    of them are added; a failing write ends the restoring, keeps the
    documents added so far and is logged as a warning, nothing more. *)
Theorem restore_adds_latest_history sv game_id c store :
  let history := Mongo.get_chat_history game_id 100 c in
  let run := restore_conversations sv game_id (Ok history) store in
  exists k,
    run.1 = store ++ map (restored_document game_id) (take k history) /\
    k <= length history /\ length history <= 100 /\
    ((forall s docs, chroma_add_error sv s docs = None) ->
       k = length history) /\
    (k < length history ->
       exists e, In (WARNING,
                     "Failed to load existing conversations to vector store: "
                     +:+ str_exn sv e) run.2) /\
    Sorted (fun a b => (Mongo.sequence_number a <= Mongo.sequence_number b)%Z)
      history /\
    (forall d, In d history -> In d (Mongo.find game_id c)) /\
    (forall d d', In d (Mongo.find game_id c) -> ~ In d history ->
       In d' history ->
       (Mongo.sequence_number d <= Mongo.sequence_number d')%Z).
Proof.
  intros history run.
  assert (Hlen : length history <= 100)
    by (apply Mongo.get_chat_history_length; lia).
  assert (Hrest : Sorted (fun a b => (Mongo.sequence_number a
                                      <= Mongo.sequence_number b)%Z) history /\
          (forall d, In d history -> In d (Mongo.find game_id c)) /\
          (forall d d', In d (Mongo.find game_id c) -> ~ In d history ->
             In d' history ->
             (Mongo.sequence_number d <= Mongo.sequence_number d')%Z)).
  { split_and!.
    - apply Mongo.get_chat_history_sorted.
    - apply Mongo.get_chat_history_subset.
    - intros d d'. apply Mongo.get_chat_history_highest. lia. }
  subst run. unfold restore_conversations.
  destruct history as [|chat rest] eqn:Eh.
  { exists 0. simpl. rewrite app_nil_r.
    split_and!; [done|lia|lia|done|lia|apply Hrest..]. }
  rewrite <- Eh in *. clear Eh.
  destruct (add_each_spec sv game_id history store)
    as (k & Hk & Hle & Hok & Hraise).
  destruct (add_each sv game_id history store) as [[[]|e] store'] eqn:Ea;
    simpl in *; exists k;
    (split_and!; [done|done|done| | |apply Hrest..]).
  - auto.
  - intros Hlt. specialize (Hok eq_refl). lia.
  - intros Hnone. destruct (Hraise e eq_refl) as [_ Herr].
    by rewrite Hnone in Herr.
  - intros _. exists e. right. by left.
Qed.

(** X11.  Restored conversations count as the oldest.  In the list of
    conversations that a request reads from the store and sorts by
    (timestamp, sequence), the conversations without a timestamp come
    first, ordered by sequence number, and all conversations with a
    timestamp follow.  The documents restored from MongoDB carry no
    timestamp and the documents written during play carry one: whatever
    the real order of events, a restored conversation sorts before every
    conversation written during play. *)
Theorem untimed_conversations_first store :
  let all := all_conversations_of store in
  all = List.filter untimed all ++ List.filter (fun c => negb (untimed c)) all /\
  StronglySorted (fun a b => (sequence a <= sequence b)%Z)
    (List.filter untimed all) /\
  (forall game_id chat,
     In (restored_document game_id chat) store ->
     In (to_conversation (restored_document game_id chat))
        (List.filter untimed all)) /\
  (forall d ts,
     In d store -> doc_type d = "conversation" ->
     doc_timestamp d = Some ts -> ts <> "" ->
     In (to_conversation d) (List.filter (fun c => negb (untimed c)) all)).
Proof.
  intros all.
  pose proof (all_conversations_sorted store) as Hs. fold all in Hs.
  split_and!.
  - apply (sorted_partition conversation_le); [apply untimed_first|done].
  - apply untimed_by_sequence.
    + apply List.Forall_forall. intros x Hx. by apply filter_In in Hx as [_ ?].
    + by apply strongly_sorted_filter.
  - intros game_id chat Hin. apply filter_In. split; [|done].
    apply In_all_conversations. by eexists.
  - intros d ts Hin Htype Hts Hne. apply filter_In. split.
    + apply In_all_conversations. by eexists.
    + unfold untimed, to_conversation. simpl. rewrite Hts. simpl.
      apply negb_true_iff. by apply String.eqb_neq.
Qed.

End VectorMemory.

(* ===================================================================== *)
(** * The other entry points of the game master
      (agents/gamemaster.py, lines 485-551) *)
(* ===================================================================== *)

Module GameAdmin.
Import Py GameMaster.

Section game_admin.
Context (sv : services) (ca : VectorMemory.chroma_admin).
(** [moving_summary_buffer] of the memory of a game *)
Variable summary : string -> string.
(** [self.character_chain.run(character_data=, user_action=,
    current_scene=)] *)
Variable character_chain_run : string -> string -> json -> except string.

(** [handle_character_action] *)
Definition handle_character_action (game_id : string) (character_data : json)
  (user_action : string) : M json :=
  try_except
    (scene ← GameMemory.get_context game_id (Some "current_scene");
     let current_scene :=
       if truthy scene then scene else JStr "일반적인 상황" in
     response ← lift (character_chain_run (json_dumps sv character_data)
                        user_action current_scene);
     add_message sv game_id ("캐릭터 행동: " +:+ user_action) (JStr response);;
     ts ← now sv;
     mret (JDict [("success", JBool true);
                  ("response", JStr response);
                  ("timestamp", JStr ts)]))
    Exception
    (fun e =>
       logger ERROR ("Error handling character action: " +:+ str_exn sv e);;
       _handle_error sv e).

(** [get_memory_stats] *)
Definition get_memory_stats (game_id : string) : M json :=
  langchain_stats ← GameMemory.get_memory_stats summary game_id;
  vector_stats ← VectorMemory.get_memory_stats ca game_id;
  langchain_exists ← lift (py_get langchain_stats "exists" (JBool false));
  vector_exists ← lift (py_get vector_stats "exists" (JBool false));
  mret (JDict [("langchain_memory", langchain_stats);
               ("vector_memory", vector_stats);
               ("total_exists",
                  JBool (truthy langchain_exists || truthy vector_exists))]).

(** [reset_game] *)
Definition reset_game (game_id : string) : M unit :=
  GameMemory.reset_game_memory game_id;;
  (* context_manager.session_contexts.pop(game_id, None) *)
  update (set_session_contexts (delete game_id));;
  VectorMemory.reset_vector_memory sv ca game_id;;
  logger INFO ("Game " +:+ game_id +:+ " has been completely reset").

(** [clear_memory] *)
Definition clear_memory (game_id : string) : M unit :=
  GameMemory.clear_memory game_id;;
  logger INFO ("Memory cleared for game " +:+ game_id).

(** [update_game_context] *)
Definition update_game_context (game_id context_type : string) (data : json)
  : M unit :=
  set_context game_id context_type data;;
  logger INFO ("Updated " +:+ context_type +:+ " context for game "
               +:+ game_id).

(** [get_chat_history(game_id, limit=10)] *)
Definition get_chat_history (game_id : string) (limit : Z)
  : M (list chat_message) :=
  GameMemory.get_recent_messages game_id limit.

(** ** Facts *)

(** The statistics depend on the memories and the vector stores only. *)
Lemma get_memory_stats_result g w :
  (get_memory_stats g w).1 =
    let langchain_stats := (GameMemory.get_memory_stats summary g w).1 in
    let vector_stats := (VectorMemory.get_memory_stats ca g w).1 in
    match langchain_stats, vector_stats with
    | Ok l, Ok v =>
        Ok (JDict [("langchain_memory", l); ("vector_memory", v);
                   ("total_exists",
                      JBool (match game_memories w !! g with
                             | Some _ => true
                             | None =>
                                 match vector_stores w !! g with
                                 | Some _ => true
                                 | None => false
                                 end
                             end))])
    | _, _ => Raise AttributeError
    end.
Proof.
  unfold get_memory_stats, GameMemory.get_memory_stats,
    VectorMemory.get_memory_stats, get_world, lift, mbind, M_bind, mret, M_ret.
  destruct (game_memories w !! g), (vector_stores w !! g); reflexivity.
Qed.

Lemma stats_same g w w' :
  game_memories w' !! g = game_memories w !! g ->
  vector_stores w' !! g = vector_stores w !! g ->
  (get_memory_stats g w').1 = (get_memory_stats g w).1.
Proof.
  intros Hm Hv. rewrite !get_memory_stats_result.
  unfold GameMemory.get_memory_stats, VectorMemory.get_memory_stats,
    get_world, mbind, M_bind. cbv beta iota. rewrite Hm, Hv.
  by destruct (game_memories w !! g), (vector_stores w !! g).
Qed.

Lemma reset_game_run g w :
  exists w', reset_game g w = (Ok tt, w') /\
    game_memories w' = delete g (game_memories w) /\
    session_contexts w' = delete g (session_contexts w) /\
    vector_stores w' = delete g (vector_stores w).
Proof.
  unfold reset_game.
  destruct (GameMemory.reset_game_memory_run g w)
    as (w1 & Hrun1 & Hm1 & Hc1 & Hv1).
  rewrite (bind_run _ _ _ _ _ Hrun1).
  rewrite (bind_run _ _ _ tt _ (update_run _ _)).
  destruct (VectorMemory.reset_vector_memory_run sv ca g
              (set_session_contexts (delete g) w1))
    as (w2 & Hrun2 & Hv2 & Hm2 & Hc2).
  rewrite (bind_run _ _ _ _ _ Hrun2). rewrite logger_run.
  eexists. split; [reflexivity|]. simpl.
  rewrite Hm2, Hc2, Hv2. simpl. by rewrite Hm1, Hc1, Hv1.
Qed.

(** X12.  [reset_game] forgets the game and only the game.  Whatever state
    the service is in, and whether or not Chroma deletes the collection,
    [reset_game(game_id)] returns; afterwards the statistics of the game
    report no conversation memory and no vector store, and its session
    context is empty; the statistics and the session context of every
    other game are what they were. *)
Theorem reset_game_forgets_the_game game_id w :
  exists w',
    reset_game game_id w = (Ok tt, w') /\
    (get_memory_stats game_id w').1 =
      Ok (JDict [("langchain_memory", JDict [("exists", JBool false)]);
                 ("vector_memory",
                    JDict [("exists", JBool false);
                           ("total_documents", JInt 0)]);
                 ("total_exists", JBool false)]) /\
    (GameMemory.get_context game_id None w').1 = Ok (JDict []) /\
    (forall g, g <> game_id ->
       (get_memory_stats g w').1 = (get_memory_stats g w).1 /\
       forall key, (GameMemory.get_context g key w').1
                   = (GameMemory.get_context g key w).1).
Proof.
  destruct (reset_game_run game_id w) as (w' & Hrun & Hm & Hc & Hv).
  exists w'. split; [exact Hrun|]. split_and!.
  - rewrite get_memory_stats_result.
    unfold GameMemory.get_memory_stats, VectorMemory.get_memory_stats,
      get_world, mbind, M_bind. cbv beta iota.
    rewrite Hm, Hv, !lookup_delete_eq. reflexivity.
  - rewrite GameMemory.get_context_result. cbn zeta.
    by rewrite Hc, lookup_delete_eq.
  - intros g Hg. split.
    + apply stats_same.
      * by rewrite Hm, lookup_delete_ne.
      * by rewrite Hv, lookup_delete_ne.
    + intros key. rewrite !GameMemory.get_context_result. cbn zeta.
      by rewrite Hc, lookup_delete_ne.
Qed.

(** X13.  [clear_memory] empties the conversation and keeps the rest.
    After [clear_memory(game_id)] the chat history of the game is empty
    for every limit; the session contexts and the vector stores are what
    they were; a game that had a conversation memory still has one (no
    message in it), so [total_exists] does not change; the conversation
    memory of every other game is what it was. *)
Theorem clear_memory_keeps_the_rest game_id w :
  exists w',
    clear_memory game_id w = (Ok tt, w') /\
    (forall limit, (get_chat_history game_id limit w').1 = Ok []) /\
    session_contexts w' = session_contexts w /\
    vector_stores w' = vector_stores w /\
    (forall stats, (get_memory_stats game_id w).1 = Ok (JDict stats) ->
       exists stats', (get_memory_stats game_id w').1 = Ok (JDict stats') /\
         dict_get "total_exists" stats' = dict_get "total_exists" stats /\
         dict_get "vector_memory" stats' = dict_get "vector_memory" stats) /\
    (forall g, g <> game_id -> game_memories w' !! g = game_memories w !! g).
Proof.
  unfold clear_memory. rewrite (bind_run _ _ _ tt _ (GameMemory.clear_memory_run _ _)).
  rewrite logger_run. eexists. split; [reflexivity|].
  assert (Hmem : forall w0,
            game_memories (add_log INFO ("Memory cleared for game " +:+ game_id)
                             w0) = game_memories w0) by done.
  split_and!.
  - intros limit. unfold get_chat_history.
    rewrite GameMemory.get_recent_messages_run. cbn zeta.
    assert (Hnone : default [] (game_memories
              match game_memories w !! game_id with
              | Some _ => set_game_memories <[game_id := []]> w
              | None => w
              end !! game_id) = []).
    { destruct (game_memories w !! game_id) eqn:E; simpl.
      - by rewrite lookup_insert_eq.
      - by rewrite E. }
    simpl game_memories. rewrite Hnone.
    destruct (_ <? _)%Z; [|done]. unfold GameMemory.slice_from.
    by rewrite drop_nil.
  - by destruct (game_memories w !! game_id).
  - by destruct (game_memories w !! game_id).
  - intros stats. rewrite !get_memory_stats_result.
    unfold GameMemory.get_memory_stats, VectorMemory.get_memory_stats,
      get_world, mbind, M_bind. simpl.
    destruct (game_memories w !! game_id) eqn:E; simpl.
    + rewrite lookup_insert_eq.
      destruct (vector_stores w !! game_id); intros [= <-];
        (eexists; split; [reflexivity|]); done.
    + rewrite E.
      destruct (vector_stores w !! game_id); intros [= <-];
        (eexists; split; [reflexivity|]); done.
  - intros g Hg. destruct (game_memories w !! game_id); [|done].
    simpl. by rewrite lookup_insert_ne.
Qed.

(** X14.  A character action is always answered, and stored when the model
    answered.  [handle_character_action] never raises.  When the
    character chain returns a response that the conversation memory
    accepts, the result has [success] true and carries the response, and
    the memory of the game has two messages more: the action, prefixed,
    and the response.  When the chain fails, the result is the error dict
    of [_handle_error] with [success] false, and the conversation memory
    is what it was. *)
Theorem character_action_outcome game_id character_data user_action w :
  let scene :=
    default JNull (dict_get "current_scene"
                     (default [] (session_contexts w !! game_id))) in
  let current_scene := if truthy scene then scene else JStr "일반적인 상황" in
  let answer := character_chain_run (json_dumps sv character_data)
                  user_action current_scene in
  exists fields w',
    handle_character_action game_id character_data user_action w
      = (Ok (JDict fields), w') /\
    (forall response,
       answer = Ok response -> content_ok sv (JStr response) = true ->
       dict_get "success" fields = Some (JBool true) /\
       dict_get "response" fields = Some (JStr response) /\
       game_memories w' !! game_id =
         Some (default [] (game_memories w !! game_id)
               ++ [HumanMessage ("캐릭터 행동: " +:+ user_action);
                   AIMessage (JStr response)])) /\
    (forall e,
       answer = Raise e ->
       dict_get "success" fields = Some (JBool false) /\
       dict_get "error" fields = Some (JStr (str_exn sv e)) /\
       game_memories w' = game_memories w).
Proof.
  intros scene current_scene answer.
  unfold handle_character_action, try_except, GameMemory.get_context,
    add_message, _handle_error, now, logger, update, get_world, lift, raise,
    mbind, M_bind, mret, M_ret.
  cbn [truthy String.eqb negb]. cbv beta iota. simpl session_contexts.
  rewrite lookup_insert_eq. cbn [default from_option id].
  fold scene. fold current_scene. fold answer.
  destruct answer as [response|e] eqn:Ha.
  - destruct (content_ok sv (JStr response)) eqn:Hok.
    + eexists _, _. split; [reflexivity|]. split.
      * intros r [= <-] _. split_and!; [done|done|].
        simpl. rewrite !lookup_insert_eq. simpl. by rewrite <- app_assoc.
      * by intros e [=].
    + cbn [Exception]. eexists _, _. split; [reflexivity|]. split.
      * intros r [= <-] Hok'. congruence.
      * by intros e [=].
  - cbn [Exception]. eexists _, _. split; [reflexivity|]. split.
    + by intros r [=].
    + intros e' [= <-]. done.
Qed.

End game_admin.

End GameAdmin.

(* ===================================================================== *)
(** * Templates, sessions and statistics (data/mongo_manager.py) *)
(* ===================================================================== *)

Module MongoData.
Import Py.

(** A stored document: its ObjectId and its fields, in the order in which
    they were written.  An ObjectId is given by the number of its creation
    and [str] of it by the numeral; a [datetime] is given in microseconds. *)
Record doc : Type := Doc {
  oid : nat;
  fields : list (string * json)
}.

(** The database: the template collections, the sessions, the story
    events, the chat history, and the number of ObjectIds created. *)
Record database : Type := Database {
  scenarios : list doc;
  character_templates : list doc;
  locations : list doc;
  event_templates : list doc;
  game_sessions : list doc;
  story_events : list doc;
  chat_history : list Mongo.chat_doc;
  object_ids : nat
}.

(** A document as the functions return it: [doc["_id"] = str(doc["_id"])]. *)
Definition as_dict (d : doc) : json :=
  JDict (("_id", JStr (pretty (oid d))) :: fields d).

Definition is_value (value : string) (v : json) : bool :=
  match v with
  | JStr s => String.eqb s value
  | _ => false
  end.

(** The filter [{field: value}] for a string [value]: MongoDB matches a
    field that holds the string, and a field that holds an array with the
    string among its elements. *)
Definition has_value (field value : string) (d : doc) : bool :=
  match dict_get field (fields d) with
  | Some (JList l) => existsb (is_value value) l
  | Some v => is_value value v
  | None => false
  end.

(** The documents that carry a string under [field], as every document
    that the functions below write does under its key. *)
Definition string_keyed (field : string) (d : doc) : bool :=
  match dict_get field (fields d) with
  | Some (JStr _) => true
  | _ => false
  end.

(** [collection.find_one({field: value})] *)
Definition find_one (field value : string) (c : list doc) : option doc :=
  List.find (has_value field value) c.

(** [collection.count_documents({field: value})] *)
Definition count_documents (field value : string) (c : list doc) : nat :=
  length (List.filter (has_value field value) c).

(** [collection.delete_many({field: value})]: what is left, and
    [deleted_count]. *)
Definition delete_many (field value : string) (c : list doc)
  : list doc * nat :=
  (List.filter (fun d => negb (has_value field value d)) c,
   count_documents field value c).

(** ** The getters with a default (lines 84-129)

    Each of the three looks its key up and, when nothing is found, calls
    itself with the key of the default document.  [fuel] is the recursion
    limit: a call that exhausts it ends in [RecursionError] ([None]). *)

Fixpoint get_scenario_by_type (fuel : nat) (db : database)
  (scenario_type : string) : option json :=
  match fuel with
  | O => None
  | S fuel' =>
      match find_one "scenario_type" scenario_type (scenarios db) with
      | Some scenario =>
          if truthy (as_dict scenario) then Some (as_dict scenario)
          else get_scenario_by_type fuel' db "medieval_fantasy"
      | None => get_scenario_by_type fuel' db "medieval_fantasy"
      end
  end.

Fixpoint get_character_template (fuel : nat) (db : database)
  (character_type : string) : option json :=
  match fuel with
  | O => None
  | S fuel' =>
      match find_one "character_type" character_type
              (character_templates db) with
      | Some template =>
          if truthy (as_dict template) then Some (as_dict template)
          else get_character_template fuel' db "adventurer"
      | None => get_character_template fuel' db "adventurer"
      end
  end.

Fixpoint get_event_template (fuel : nat) (db : database)
  (event_type : string) : option json :=
  match fuel with
  | O => None
  | S fuel' =>
      match find_one "event_type" event_type (event_templates db) with
      | Some template =>
          if truthy (as_dict template) then Some (as_dict template)
          else get_event_template fuel' db "random_encounter"
      | None => get_event_template fuel' db "random_encounter"
      end
  end.

(** [get_location_info]: the key is looked up in lower case ([lower] is
    [str.lower]); there is no default, the result is [None] when nothing
    is found. *)
Definition get_location_info (lower : string -> string) (db : database)
  (location_key : string) : json :=
  match find_one "location_key" (lower location_key) (locations db) with
  | Some location =>
      if truthy (as_dict location) then as_dict location else JNull
  | None => JNull
  end.

(** ** Sessions (lines 193-219) *)

(** [$set]: the fields are written one after the other. *)
Definition apply_set (updates document : list (string * json))
  : list (string * json) :=
  fold_left (fun acc kv => dict_set kv.1 kv.2 acc) updates document.

(** The first document that matches is replaced. *)
Fixpoint update_first (matches : doc -> bool) (f : doc -> doc) (c : list doc)
  : option (list doc) :=
  match c with
  | [] => None
  | d :: rest =>
      if matches d then Some (f d :: rest)
      else c' ← update_first matches f rest; Some (d :: c')
  end.

Definition session_data (game_id scenario_type current_location : string)
  (game_state : json) (updated_at : Z) : list (string * json) :=
  [("game_id", JStr game_id);
   ("scenario_type", JStr scenario_type);
   ("current_location", JStr current_location);
   ("game_state", game_state);
   ("updated_at", JInt (Mongo.bson_datetime updated_at))].

(** [save_game_session]: [update_one({"game_id": game_id}, {"$set":
    session_data, "$setOnInsert": {"created_at": now}}, upsert=True)].
    [updated_at] and [created_at] are the two readings of the clock, in
    microseconds; the session keeps their milliseconds. *)
Definition save_game_session (game_id scenario_type current_location : string)
  (game_state : json) (updated_at created_at : Z) (db : database)
  : database :=
  let data := session_data game_id scenario_type current_location game_state
                updated_at in
  match update_first (has_value "game_id" game_id)
          (fun d => Doc (oid d) (apply_set data (fields d)))
          (game_sessions db) with
  | Some sessions =>
      Database (scenarios db) (character_templates db) (locations db)
        (event_templates db) sessions (story_events db) (chat_history db)
        (object_ids db)
  | None =>
      let inserted :=
        Doc (object_ids db)
          (apply_set
             (data ++ [("created_at", JInt (Mongo.bson_datetime created_at))])
             [("game_id", JStr game_id)]) in
      Database (scenarios db) (character_templates db) (locations db)
        (event_templates db) (game_sessions db ++ [inserted])
        (story_events db) (chat_history db) (S (object_ids db))
  end.

(** [get_game_session]: the session, or [None].  A session that is found
    is a dict that is not empty, so its ObjectId is always converted. *)
Definition get_game_session (game_id : string) (db : database) : json :=
  match find_one "game_id" game_id (game_sessions db) with
  | Some session => as_dict session
  | None => JNull
  end.

(** ** Story events, reset and statistics (lines 268-334) *)

(** [add_story_event]: the event is inserted; the result is [str] of its
    ObjectId.  [now] is the reading of the clock, in microseconds. *)
Definition add_story_event (game_id event_type event_description : string)
  (importance : string) (location : option string)
  (characters_involved : list string) (now : Z) (db : database)
  : string * database :=
  let event_data :=
    [("game_id", JStr game_id);
     ("event_type", JStr event_type);
     ("event_description", JStr event_description);
     ("importance", JStr importance);
     ("location", match location with Some l => JStr l | None => JNull end);
     ("characters_involved", JList (map JStr characters_involved));
     ("timestamp", JInt (Mongo.bson_datetime now))] in
  (pretty (object_ids db),
   Database (scenarios db) (character_templates db) (locations db)
     (event_templates db) (game_sessions db)
     (story_events db ++ [Doc (object_ids db) event_data])
     (chat_history db) (S (object_ids db))).

Definition deleted_line (n : nat) (collection_name game_id : string) : string :=
  "Deleted " +:+ pretty n +:+ " documents from " +:+ collection_name
  +:+ " for game " +:+ game_id.

(** [reset_game_data]: the documents of the game are deleted from the
    three collections; the result is the database and the lines logged. *)
Definition reset_game_data (game_id : string) (db : database)
  : database * list string :=
  let '(sessions, n1) := delete_many "game_id" game_id (game_sessions db) in
  let chats := Mongo.reset_game_data game_id (chat_history db) in
  let n2 := length (Mongo.find game_id (chat_history db)) in
  let '(events, n3) := delete_many "game_id" game_id (story_events db) in
  (Database (scenarios db) (character_templates db) (locations db)
     (event_templates db) sessions events chats (object_ids db),
   [deleted_line n1 "game_sessions" game_id;
    deleted_line n2 "chat_history" game_id;
    deleted_line n3 "story_events" game_id]).

(** [get_memory_stats] *)
Definition get_memory_stats (game_id : string) (db : database) : json :=
  let chat_messages := length (Mongo.find game_id (chat_history db)) in
  let events := count_documents "game_id" game_id (story_events db) in
  let has_session :=
    (0 <? count_documents "game_id" game_id (game_sessions db))%nat in
  JDict [("game_id", JStr game_id);
         ("exists", JBool ((0 <? chat_messages)%nat || (0 <? events)%nat
                           || has_session));
         ("chat_messages", JInt (Z.of_nat chat_messages));
         ("story_events", JInt (Z.of_nat events));
         ("has_session", JBool has_session)].

(** The sessions and the story events carry their game id as a string:
    [save_game_session] and [add_story_event] write them so. *)
Definition well_keyed (db : database) : bool :=
  forallb (string_keyed "game_id") (game_sessions db)
  && forallb (string_keyed "game_id") (story_events db).

(** ** The default data (lines 336-495)

    Each document carries the reading of the clock at which it was
    built ([now i], in microseconds), cut to the milliseconds that
    MongoDB keeps. *)

Definition default_scenarios (now : nat -> Z) : list (list (string * json)) :=
  [ [("scenario_type", JStr "medieval_fantasy");
     ("title", JStr "중세 판타지 모험");
     ("description", JStr "마법과 검이 지배하는 중세 판타지 세계에서의 모험");
     ("background", JStr "고대 마법이 깃든 대륙에서 영웅들이 악의 세력과 맞서는 이야기");
     ("starting_location", JStr "마을 여관");
     ("mood", JStr "모험적이고 신비로운");
     ("key_elements", JList [JStr "마법"; JStr "검투"; JStr "던전 탐험"; JStr "몬스터";
                             JStr "보물"; JStr "마법사"]);
     ("created_at", JInt (Mongo.bson_datetime (now 0)))];
    [("scenario_type", JStr "cyberpunk");
     ("title", JStr "사이버펑크 2080");
     ("description", JStr "하이테크와 로우라이프가 공존하는 미래 도시");
     ("background", JStr "거대 기업이 지배하는 네온 도시에서 해커와 용병들의 활약");
     ("starting_location", JStr "지하 바");
     ("mood", JStr "어둡고 긴장감 넘치는");
     ("key_elements", JList [JStr "해킹"; JStr "사이버웨어"; JStr "기업 음모"; JStr "AI";
                             JStr "가상현실"; JStr "반란"]);
     ("created_at", JInt (Mongo.bson_datetime (now 1)))];
    [("scenario_type", JStr "space_exploration");
     ("title", JStr "은하계 탐험");
     ("description", JStr "광활한 우주를 탐험하며 새로운 문명을 발견하는 이야기");
     ("background", JStr "인류가 은하계로 진출하며 외계 종족들과 만나는 시대");
     ("starting_location", JStr "우주선 다리");
     ("mood", JStr "웅장하고 미지의");
     ("key_elements", JList [JStr "우주선"; JStr "외계인"; JStr "행성 탐험";
                             JStr "우주 전투"; JStr "외교"; JStr "과학 기술"]);
     ("created_at", JInt (Mongo.bson_datetime (now 2)))] ].

Definition default_character_templates (now : nat -> Z) : list (list (string * json)) :=
  [ [("character_type", JStr "adventurer");
     ("name", JStr "모험가");
     ("description", JStr "용감하고 호기심 많은 일반적인 모험가");
     ("traits", JList [JStr "용감함"; JStr "호기심"; JStr "팀워크"; JStr "생존 본능"]);
     ("typical_actions", JList [JStr "탐험"; JStr "전투"; JStr "문제 해결";
                                JStr "동료와 협력"]);
     ("personality", JStr "낙관적이고 행동력이 뛰어남");
     ("created_at", JInt (Mongo.bson_datetime (now 0)))];
    [("character_type", JStr "wizard");
     ("name", JStr "마법사");
     ("description", JStr "고대의 지식과 마법의 힘을 다루는 현자");
     ("traits", JList [JStr "지혜"; JStr "신중함"; JStr "마법 지식"; JStr "연구욕"]);
     ("typical_actions", JList [JStr "마법 시전"; JStr "고대 문헌 연구"; JStr "조언 제공";
                                JStr "수수께끼 해결"]);
     ("personality", JStr "신중하고 학구적이며 때로는 신비로움");
     ("created_at", JInt (Mongo.bson_datetime (now 1)))];
    [("character_type", JStr "warrior");
     ("name", JStr "전사");
     ("description", JStr "강한 의지와 무력을 가진 전투의 전문가");
     ("traits", JList [JStr "용맹"; JStr "명예"; JStr "충성"; JStr "전투 기술"]);
     ("typical_actions", JList [JStr "전면 전투"; JStr "동료 보호"; JStr "전략 수립";
                                JStr "리더십 발휘"]);
     ("personality", JStr "직선적이고 명예를 중시하며 보호본능이 강함");
     ("created_at", JInt (Mongo.bson_datetime (now 2)))] ].

Definition default_locations (now : nat -> Z) : list (list (string * json)) :=
  [ [("location_key", JStr "마을_여관");
     ("name", JStr "마을 여관");
     ("description", JStr "여행자들이 모이는 따뜻하고 활기찬 곳");
     ("atmosphere", JStr "따뜻하고 친근한");
     ("features", JList [JStr "벽난로"; JStr "주점"; JStr "숙박시설"; JStr "정보 교환의 장"]);
     ("typical_events", JList [JStr "정보 수집"; JStr "의뢰 접수"; JStr "휴식";
                               JStr "새로운 동료 만남"]);
     ("created_at", JInt (Mongo.bson_datetime (now 0)))];
    [("location_key", JStr "어두운_숲");
     ("name", JStr "어두운 숲");
     ("description", JStr "고목들이 하늘을 가린 신비롭고 위험한 숲");
     ("atmosphere", JStr "신비롭고 위험한");
     ("features", JList [JStr "거대한 고목"; JStr "안개"; JStr "야생동물"; JStr "고대 유적"]);
     ("typical_events", JList [JStr "몬스터 조우"; JStr "길 잃음"; JStr "고대 비밀 발견";
                               JStr "자연의 시험"]);
     ("created_at", JInt (Mongo.bson_datetime (now 1)))];
    [("location_key", JStr "고대_던전");
     ("name", JStr "고대 던전");
     ("description", JStr "잊혀진 문명의 유적으로 보물과 위험이 공존하는 곳");
     ("atmosphere", JStr "음산하고 신비로운");
     ("features", JList [JStr "돌 복도"; JStr "함정"; JStr "보물"; JStr "고대 문자"]);
     ("typical_events", JList [JStr "함정 발견"; JStr "보물 발견"; JStr "수수께끼 해결";
                               JStr "가디언과의 전투"]);
     ("created_at", JInt (Mongo.bson_datetime (now 2)))] ].

Definition default_event_templates (now : nat -> Z) : list (list (string * json)) :=
  [ [("event_type", JStr "random_encounter");
     ("name", JStr "무작위 조우");
     ("description", JStr "예상치 못한 상황이나 인물과의 만남");
     ("trigger_condition", JStr "이동 중이거나 탐험할 때");
     ("possible_outcomes", JList [JStr "전투"; JStr "대화"; JStr "정보 획득";
                                  JStr "새로운 퀘스트"]);
     ("examples", JList [JStr "도적단 습격"; JStr "상인과의 만남"; JStr "부상당한 여행자 발견"]);
     ("created_at", JInt (Mongo.bson_datetime (now 0)))];
    [("event_type", JStr "puzzle_challenge");
     ("name", JStr "수수께끼 도전");
     ("description", JStr "지혜와 논리로 해결해야 하는 퍼즐이나 수수께끼");
     ("trigger_condition", JStr "던전이나 고대 유적 탐험 시");
     ("possible_outcomes", JList [JStr "진행 가능"; JStr "보상 획득"; JStr "함정 발동";
                                  JStr "힌트 발견"]);
     ("examples", JList [JStr "고대 문자 해독"; JStr "기계 장치 조작"; JStr "논리 퍼즐 해결"]);
     ("created_at", JInt (Mongo.bson_datetime (now 1)))];
    [("event_type", JStr "combat_encounter");
     ("name", JStr "전투 조우");
     ("description", JStr "적대적인 생명체나 세력과의 전투");
     ("trigger_condition", JStr "위험한 지역이나 갈등 상황에서");
     ("possible_outcomes", JList [JStr "승리"; JStr "패배"; JStr "도주"; JStr "항복"]);
     ("examples", JList [JStr "몬스터와의 전투"; JStr "도적과의 싸움"; JStr "보스 몬스터 조우"]);
     ("created_at", JInt (Mongo.bson_datetime (now 2)))] ].

(** A document with a string under the uniquely indexed [field] violates
    the index exactly when a stored document matches the same string; the
    documents inserted here all carry one. *)
Definition key_conflict (field : string) (document : list (string * json))
  (c : list doc) : bool :=
  match dict_get field document with
  | Some (JStr s) =>
      match find_one field s c with Some _ => true | None => false end
  | _ => false
  end.

(** [collection.insert_many(documents)] under a unique index on [field]:
    the documents are inserted in order; the first violation raises and
    leaves the documents inserted before it. *)
Fixpoint insert_many (field : string) (documents : list (list (string * json)))
  (c : list doc) (ids : nat) : except unit * (list doc * nat) :=
  match documents with
  | [] => (Ok tt, (c, ids))
  | document :: rest =>
      if key_conflict field document c
      then (Raise (OtherException "BulkWriteError"), (c, ids))
      else insert_many field rest (c ++ [Doc ids document]) (S ids)
  end.

(** [_initialize_default_data]: when the collection of scenarios is empty
    the four sets of default documents are inserted.  [clock] gives the
    readings of [datetime.now] in the order in which they are taken.  The
    info record that each insertion logs is not part of the result. *)
Definition _initialize_default_data (clock : nat -> Z) (db : database)
  : except unit * database :=
  match scenarios db with
  | _ :: _ => (Ok tt, db)
  | [] =>
      let '(r1, (c1, n1)) :=
        insert_many "scenario_type" (default_scenarios clock)
          (scenarios db) (object_ids db) in
      let db1 := Database c1 (character_templates db) (locations db)
                   (event_templates db) (game_sessions db) (story_events db)
                   (chat_history db) n1 in
      match r1 with
      | Raise e => (Raise e, db1)
      | Ok _ =>
          let '(r2, (c2, n2)) :=
            insert_many "character_type"
              (default_character_templates (fun i => clock (3 + i)))
              (character_templates db1) (object_ids db1) in
          let db2 := Database (scenarios db1) c2 (locations db1)
                       (event_templates db1) (game_sessions db1)
                       (story_events db1) (chat_history db1) n2 in
          match r2 with
          | Raise e => (Raise e, db2)
          | Ok _ =>
              let '(r3, (c3, n3)) :=
                insert_many "location_key"
                  (default_locations (fun i => clock (6 + i)))
                  (locations db2) (object_ids db2) in
              let db3 := Database (scenarios db2) (character_templates db2)
                           c3 (event_templates db2) (game_sessions db2)
                           (story_events db2) (chat_history db2) n3 in
              match r3 with
              | Raise e => (Raise e, db3)
              | Ok _ =>
                  let '(r4, (c4, n4)) :=
                    insert_many "event_type"
                      (default_event_templates (fun i => clock (9 + i)))
                      (event_templates db3) (object_ids db3) in
                  (r4,
                   Database (scenarios db3) (character_templates db3)
                     (locations db3) c4 (game_sessions db3)
                     (story_events db3) (chat_history db3) n4)
              end
          end
      end
  end.

Definition empty_database : database :=
  Database [] [] [] [] [] [] [] 0.

Example defaults_example :
  let db := (_initialize_default_data (fun n => Z.of_nat n)
               empty_database).2 in
  map oid (event_templates db) = [9; 10; 11] /\
  match get_character_template 5 db "bard" with
  | Some template => py_get template "name" JNull = Ok (JStr "모험가")
  | None => False
  end.
Proof. by vm_compute. Qed.

(** ** Facts on the getters *)

Lemma find_one_Some field value c d :
  find_one field value c = Some d -> In d c /\ has_value field value d = true.
Proof. apply find_some. Qed.

Lemma find_one_None field value c :
  find_one field value c = None -> count_documents field value c = 0.
Proof.
  unfold find_one, count_documents. intros H.
  induction c as [|d c IH]; [done|]. simpl in *.
  destruct (has_value field value d); [done|auto].
Qed.

(** How a getter with a default behaves on its collection: a key that is
    stored is answered at once; a key that is not stored is answered with
    the default document, by one more call; when the default document is
    not stored either, the calls never end, whatever the recursion
    limit. *)
Definition falls_back (getter : nat -> string -> option json)
  (field default_key : string) (c : list doc) : Prop :=
  (forall key d, find_one field key c = Some d ->
     forall fuel, 0 < fuel -> getter fuel key = Some (as_dict d)) /\
  (forall key d, find_one field key c = None ->
     find_one field default_key c = Some d ->
     forall fuel, 1 < fuel -> getter fuel key = Some (as_dict d)) /\
  (forall key, find_one field key c = None ->
     find_one field default_key c = None ->
     forall fuel, getter fuel key = None).

(** X15.  The getters with a default.  [get_scenario_by_type],
    [get_character_template] and [get_event_template] return the stored
    document of the key asked for; for a key that is not stored they
    return the default document (medieval_fantasy, adventurer,
    random_encounter); and when the default document is not stored
    either, they call themselves without end: no recursion limit gives a
    result (in Python the call ends in [RecursionError]). *)
Theorem template_getters_fall_back db :
  falls_back (fun fuel => get_scenario_by_type fuel db)
    "scenario_type" "medieval_fantasy" (scenarios db) /\
  falls_back (fun fuel => get_character_template fuel db)
    "character_type" "adventurer" (character_templates db) /\
  falls_back (fun fuel => get_event_template fuel db)
    "event_type" "random_encounter" (event_templates db).
Proof.
  split_and!; split_and!.
  all: try (intros key d Hk fuel Hf; destruct fuel as [|fuel]; [lia|];
            simpl; by rewrite Hk).
  all: try (intros key d Hk Hd fuel Hf; destruct fuel as [|[|fuel]]; try lia;
            simpl; by rewrite Hk, Hd).
  all: intros key Hk Hd fuel; revert key Hk;
    induction fuel as [|fuel IH]; intros key Hk; [done|];
    simpl; rewrite Hk; by apply IH.
Qed.

(** ** The default data *)

Lemma scenario_found db d key :
  find_one "scenario_type" "medieval_fantasy" (scenarios db) = Some d ->
  exists r, get_scenario_by_type 2 db key = Some r.
Proof.
  intros Hd. simpl.
  destruct (find_one "scenario_type" key (scenarios db)); [by eexists|].
  rewrite Hd. by eexists.
Qed.

Lemma character_template_found db d key :
  find_one "character_type" "adventurer" (character_templates db) = Some d ->
  exists r, get_character_template 2 db key = Some r.
Proof.
  intros Hd. simpl.
  destruct (find_one "character_type" key (character_templates db));
    [by eexists|].
  rewrite Hd. by eexists.
Qed.

Lemma event_template_found db d key :
  find_one "event_type" "random_encounter" (event_templates db) = Some d ->
  exists r, get_event_template 2 db key = Some r.
Proof.
  intros Hd. simpl.
  destruct (find_one "event_type" key (event_templates db)); [by eexists|].
  rewrite Hd. by eexists.
Qed.

(** The documents that [insert_many] stores in an empty collection: the
    ObjectIds are created in the order of the documents. *)
Definition numbered (ids : nat) (documents : list (list (string * json)))
  : list doc :=
  imap (fun i document => Doc (i + ids) document) documents.

Lemma initialise_empty clock sessions events chats ids :
  _initialize_default_data clock
    (Database [] [] [] [] sessions events chats ids) =
  (Ok tt,
   Database
     (numbered ids (default_scenarios clock))
     (numbered (3 + ids) (default_character_templates (fun i => clock (3 + i))))
     (numbered (6 + ids) (default_locations (fun i => clock (6 + i))))
     (numbered (9 + ids) (default_event_templates (fun i => clock (9 + i))))
     sessions events chats (12 + ids)).
Proof. vm_compute. reflexivity. Qed.

(** X16.  The default data and the getters.  [_initialize_default_data]
    looks at the collection of scenarios only.  On a database without
    templates it inserts the three default scenarios, character templates,
    locations and event templates, in this order and with twelve readings
    of the clock, and touches nothing else; afterwards each getter with a
    default returns a document for every key, within two calls, and a
    second initialisation changes nothing.  On a database that holds a
    scenario it inserts nothing, also when another template collection is
    empty: with no character template stored, [get_character_template]
    then never returns. *)
Theorem default_data_initialisation clock db :
  (scenarios db = [] -> character_templates db = [] ->
   locations db = [] -> event_templates db = [] ->
   exists db',
     _initialize_default_data clock db = (Ok tt, db') /\
     map fields (scenarios db') = default_scenarios clock /\
     map fields (character_templates db')
       = default_character_templates (fun i => clock (3 + i)) /\
     map fields (locations db')
       = default_locations (fun i => clock (6 + i)) /\
     map fields (event_templates db')
       = default_event_templates (fun i => clock (9 + i)) /\
     game_sessions db' = game_sessions db /\
     story_events db' = story_events db /\
     chat_history db' = chat_history db /\
     (forall key, exists r, get_scenario_by_type 2 db' key = Some r) /\
     (forall key, exists r, get_character_template 2 db' key = Some r) /\
     (forall key, exists r, get_event_template 2 db' key = Some r) /\
     (forall clock', _initialize_default_data clock' db' = (Ok tt, db'))) /\
  (scenarios db <> [] ->
   _initialize_default_data clock db = (Ok tt, db) /\
   (character_templates db = [] ->
    forall fuel key, get_character_template fuel db key = None)).
Proof.
  split.
  - destruct db as [sc ct lo ev gs se chats ids]. simpl.
    intros -> -> -> ->. eexists. split; [apply initialise_empty|].
    repeat apply conj; try reflexivity.
    + intros key. by eapply scenario_found.
    + intros key. by eapply character_template_found.
    + intros key. by eapply event_template_found.
  - intros Hne. split.
    + unfold _initialize_default_data. by destruct (scenarios db).
    + intros Hct fuel. induction fuel as [|fuel IH]; intros key; [done|].
      simpl. rewrite Hct. simpl. apply IH.
Qed.

Lemma default_data_initialisation_witness :
  exists db',
    _initialize_default_data (fun n => Z.of_nat n) empty_database
      = (Ok tt, db') /\
    map fields (event_templates db')
      = default_event_templates (fun i => Z.of_nat (9 + i)) /\
    exists r, get_scenario_by_type 2 db' "steampunk" = Some r.
Proof.
  destruct (proj1 (default_data_initialisation (fun n => Z.of_nat n)
                     empty_database) eq_refl eq_refl eq_refl eq_refl)
    as (db' & Hrun & _ & _ & _ & Hev & _ & _ & _ & Hsc & _).
  exists db'. split; [exact Hrun|]. split; [exact Hev|]. apply Hsc.
Defined.

(** ** Sessions *)

Lemma find_app_l {A} (f : A -> bool) l1 l2 x :
  List.find f l1 = Some x -> List.find f (l1 ++ l2) = Some x.
Proof.
  induction l1 as [|y l1 IH]; simpl; [done|]. by destruct (f y).
Qed.

Lemma find_app_r {A} (f : A -> bool) l1 l2 :
  List.find f l1 = None -> List.find f (l1 ++ l2) = List.find f l2.
Proof.
  induction l1 as [|y l1 IH]; simpl; [done|]. by destruct (f y).
Qed.

Lemma update_first_None matches f c :
  update_first matches f c = None -> List.find matches c = None.
Proof.
  induction c as [|d c IH]; simpl; [done|].
  destruct (matches d); [done|].
  destruct (update_first matches f c); [done|auto].
Qed.

Lemma update_first_find matches f c c' :
  update_first matches f c = Some c' ->
  (forall d, matches (f d) = true) ->
  exists d, List.find matches c = Some d /\
            List.find matches c' = Some (f d).
Proof.
  revert c'. induction c as [|x c IH]; intros c'; simpl; [done|].
  destruct (matches x) eqn:Hx.
  - intros [= <-] Hf. exists x. split; [done|]. simpl. by rewrite Hf.
  - destruct (update_first matches f c) as [c0|]; [|done].
    intros [= <-] Hf. destruct (IH c0 eq_refl Hf) as (d & Hd & Hd').
    exists d. split; [done|]. simpl. by rewrite Hx.
Qed.

Lemma update_first_other matches other f c c' :
  update_first matches f c = Some c' ->
  (forall d, In d c -> matches d = true ->
     other d = false /\ other (f d) = false) ->
  List.find other c' = List.find other c.
Proof.
  revert c'. induction c as [|x c IH]; intros c'; simpl; [done|].
  destruct (matches x) eqn:Hx.
  - intros [= <-] Hf. simpl.
    by destruct (Hf x (or_introl eq_refl) Hx) as [-> ->].
  - destruct (update_first matches f c) as [c0|]; [|done].
    intros [= <-] Hf. simpl. destruct (other x); [done|].
    apply IH; [done|]. intros d Hd. apply Hf. by right.
Qed.

Lemma update_first_forallb (p : doc -> bool) matches f c c' :
  update_first matches f c = Some c' ->
  (forall d, p (f d) = true) -> forallb p c = true -> forallb p c' = true.
Proof.
  revert c'. induction c as [|x c IH]; intros c'; simpl; [done|].
  intros Hup Hf Hc. apply andb_true_iff in Hc as [Hx Hc].
  destruct (matches x).
  - injection Hup as <-. simpl. by rewrite Hf, Hc.
  - destruct (update_first matches f c) as [c0|]; [|done].
    injection Hup as <-. simpl. rewrite Hx. by apply IH.
Qed.

(** A document with a string key belongs to one key only. *)
Lemma string_keyed_one field value value' d :
  string_keyed field d = true -> has_value field value d = true ->
  value' <> value -> has_value field value' d = false.
Proof.
  unfold string_keyed, has_value.
  destruct (dict_get field (fields d)) as [[ | | | |s| | ]|]; try done.
  simpl. intros _ Hs Hne. apply String.eqb_eq in Hs. subst s.
  apply String.eqb_neq. congruence.
Qed.

Lemma forallb_In {A} (p : A -> bool) l x :
  forallb p l = true -> In x l -> p x = true.
Proof. rewrite forallb_forall. auto. Qed.

(** The fields of a session after [$set]. *)
Lemma session_fields g st loc gs t1 flds :
  let session :=
    apply_set (session_data g st loc gs t1) flds in
  dict_get "game_id" session = Some (JStr g) /\
  dict_get "scenario_type" session = Some (JStr st) /\
  dict_get "current_location" session = Some (JStr loc) /\
  dict_get "game_state" session = Some gs /\
  dict_get "updated_at" session = Some (JInt (Mongo.bson_datetime t1)) /\
  dict_get "created_at" session = dict_get "created_at" flds.
Proof.
  cbn [apply_set session_data fold_left fst snd].
  repeat split;
    repeat first [ apply dict_get_set_eq
                 | rewrite dict_get_set_ne by discriminate ];
    reflexivity.
Qed.

(** X17.  A session that is saved is the session that is read.  When every
    stored session carries its game id as a string, then after
    [save_game_session] the call [get_game_session] of the game returns a
    document with the game id, scenario type, location and state that
    were saved, and the time of the save, cut to the milliseconds that
    MongoDB keeps, as [updated_at]; its [created_at] is that of the
    session the game had before, and the time of this save, cut in the
    same way, when it had none.  The sessions of the other games read
    as before, every session still carries a string, and the templates,
    the chat history and the story events are not touched. *)
Theorem session_round_trip game_id scenario_type current_location game_state
  updated_at created_at db :
  forallb (string_keyed "game_id") (game_sessions db) = true ->
  let db' := save_game_session game_id scenario_type current_location
               game_state updated_at created_at db in
  (exists session,
     get_game_session game_id db' = JDict session /\
     dict_get "game_id" session = Some (JStr game_id) /\
     dict_get "scenario_type" session = Some (JStr scenario_type) /\
     dict_get "current_location" session = Some (JStr current_location) /\
     dict_get "game_state" session = Some game_state /\
     dict_get "updated_at" session
       = Some (JInt (Mongo.bson_datetime updated_at)) /\
     dict_get "created_at" session =
       match get_game_session game_id db with
       | JDict old => dict_get "created_at" old
       | _ => Some (JInt (Mongo.bson_datetime created_at))
       end) /\
  (forall g, g <> game_id ->
     get_game_session g db' = get_game_session g db) /\
  forallb (string_keyed "game_id") (game_sessions db') = true /\
  scenarios db' = scenarios db /\
  chat_history db' = chat_history db /\
  story_events db' = story_events db.
Proof.
  intros Hkeyed db'. subst db'. unfold save_game_session, get_game_session.
  set (data := session_data game_id scenario_type current_location game_state
                 updated_at).
  set (f := fun d => Doc (oid d) (apply_set data (fields d))).
  assert (Hgame : forall d, dict_get "game_id" (fields (f d))
                            = Some (JStr game_id)).
  { intros d. apply (session_fields game_id scenario_type current_location
                       game_state updated_at (fields d)). }
  assert (Hmatch : forall d, has_value "game_id" game_id (f d) = true).
  { intros d. unfold has_value. rewrite Hgame. apply String.eqb_refl. }
  assert (Hother : forall g d, g <> game_id ->
            has_value "game_id" g (f d) = false).
  { intros g d Hg. unfold has_value. rewrite Hgame.
    apply String.eqb_neq. congruence. }
  destruct (update_first _ f (game_sessions db)) as [sessions|] eqn:Hup.
  - simpl. split_and!; [|intros g Hg| |done..].
    + destruct (update_first_find _ _ _ _ Hup) as (d & Hd & Hd'); [auto|].
      unfold find_one. rewrite Hd, Hd'. eexists. split; [reflexivity|].
      pose proof (session_fields game_id scenario_type current_location
                    game_state updated_at (fields d)) as Hf.
      cbn zeta in Hf. fold data in Hf. simpl. tauto.
    + unfold find_one.
      rewrite (update_first_other _ (has_value "game_id" g) _ _ _ Hup);
        [done|].
      intros d Hin Hd.
      split; [|by apply Hother].
      apply (string_keyed_one "game_id" game_id g d); [|done|done].
      by apply (forallb_In _ _ _ Hkeyed).
    + apply (update_first_forallb _ _ _ _ _ Hup); [|done].
      intros d. unfold string_keyed. by rewrite Hgame.
  - apply update_first_None in Hup. cbv zeta.
    set (inserted := Doc (object_ids db)
           (apply_set
              (data ++ [("created_at", JInt (Mongo.bson_datetime created_at))])
              [("game_id", JStr game_id)])).
    cbn [game_sessions scenarios chat_history story_events].
    assert (Hfields : fields inserted =
              dict_set "created_at" (JInt (Mongo.bson_datetime created_at))
                (apply_set data [("game_id", JStr game_id)])).
    { unfold inserted, apply_set. cbn [fields]. by rewrite fold_left_app. }
    pose proof (session_fields game_id scenario_type current_location
                  game_state updated_at [("game_id", JStr game_id)]) as Hf.
    cbn zeta in Hf. fold data in Hf.
    destruct Hf as (H1 & H2 & H3 & H4 & H5 & _).
    assert (Hid : dict_get "game_id" (fields inserted)
                  = Some (JStr game_id)).
    { rewrite Hfields. by rewrite dict_get_set_ne by discriminate. }
    split_and!; [|intros g Hg| |done..].
    + unfold find_one in *. rewrite Hup.
      rewrite (find_app_r _ _ _ Hup). cbn [List.find].
      assert (has_value "game_id" game_id inserted = true) as ->.
      { unfold has_value. rewrite Hid. apply String.eqb_refl. }
      exists (("_id", JStr (pretty (oid inserted))) :: fields inserted).
      split; [done|]. by vm_compute.
    + unfold find_one.
      destruct (List.find (has_value "game_id" g) (game_sessions db))
        as [x|] eqn:Hx.
      * by rewrite (find_app_l _ _ _ _ Hx).
      * rewrite (find_app_r _ _ _ Hx). cbn [List.find].
        assert (has_value "game_id" g inserted = false) as ->; [|done].
        unfold has_value. rewrite Hid. apply String.eqb_neq. congruence.
    + rewrite forallb_app, Hkeyed. cbn [forallb andb]. unfold string_keyed.
      by rewrite Hid.
Qed.

(** A session saved twice, the clock being read in microseconds: the
    session keeps the milliseconds of the first [created_at] and of the
    last [updated_at]. *)
Lemma session_round_trip_witness :
  forallb (string_keyed "game_id") (game_sessions empty_database) = true /\
  exists session,
    get_game_session "g"
      (save_game_session "g" "cyberpunk" "bar" (JDict [])
         1700000007123456 1700000007123460
         (save_game_session "g" "medieval_fantasy" "inn" (JDict [])
            1700000001456789 1700000001456999
            empty_database))
      = JDict session /\
    dict_get "scenario_type" session = Some (JStr "cyberpunk") /\
    dict_get "updated_at" session = Some (JInt 1700000007123) /\
    dict_get "created_at" session = Some (JInt 1700000001456).
Proof.
  split; [reflexivity|].
  destruct (session_round_trip "g" "cyberpunk" "bar" (JDict [])
              1700000007123456 1700000007123460
              (save_game_session "g" "medieval_fantasy" "inn" (JDict [])
                 1700000001456789 1700000001456999
                 empty_database) eq_refl)
    as ((session & Hget & _ & Hst & _ & _ & Hup & Hcr) & _).
  exists session. split; [exact Hget|]. split; [exact Hst|].
  split; [exact Hup|]. exact Hcr.
Defined.

(** ** Reset and statistics *)

Lemma count_deleted field value c :
  count_documents field value (delete_many field value c).1 = 0.
Proof.
  unfold count_documents, delete_many. simpl.
  induction c as [|d c IH]; [done|]. simpl.
  destruct (has_value field value d) eqn:E; simpl; [done|]. by rewrite E.
Qed.

Lemma find_one_deleted field value c :
  find_one field value (delete_many field value c).1 = None.
Proof.
  unfold find_one, delete_many. simpl.
  induction c as [|d c IH]; [done|]. simpl.
  destruct (has_value field value d) eqn:E; simpl; [done|]. by rewrite E.
Qed.

Lemma filter_kept (p q : doc -> bool) c :
  (forall d, In d c -> p d = true -> q d = true) ->
  List.filter p (List.filter q c) = List.filter p c.
Proof.
  induction c as [|d c IH]; intros H; [done|]. simpl.
  destruct (q d) eqn:Eq; simpl.
  - destruct (p d); [f_equal|]; apply IH; intros d' Hd'; apply H; by right.
  - destruct (p d) eqn:Ep.
    + rewrite (H d (or_introl eq_refl) Ep) in Eq. done.
    + apply IH; intros d' Hd'; apply H; by right.
Qed.

Lemma find_kept (p q : doc -> bool) c :
  (forall d, In d c -> p d = true -> q d = true) ->
  List.find p (List.filter q c) = List.find p c.
Proof.
  induction c as [|d c IH]; intros H; [done|]. simpl.
  destruct (q d) eqn:Eq; simpl.
  - destruct (p d); [done|]. apply IH; intros d' Hd'; apply H; by right.
  - destruct (p d) eqn:Ep.
    + rewrite (H d (or_introl eq_refl) Ep) in Eq. done.
    + apply IH; intros d' Hd'; apply H; by right.
Qed.

Lemma forallb_filter (p q : doc -> bool) c :
  forallb p c = true -> forallb p (List.filter q c) = true.
Proof.
  induction c as [|d c IH]; [done|]. simpl.
  intros [Hd Hc]%andb_true_iff. destruct (q d); simpl; [rewrite Hd|]; auto.
Qed.

(** The documents of another game are kept by [delete_many]. *)
Lemma other_game_kept g game_id c :
  forallb (string_keyed "game_id") c = true -> g <> game_id ->
  forall d, In d c -> has_value "game_id" g d = true ->
    negb (has_value "game_id" game_id d) = true.
Proof.
  intros Hkeyed Hg d Hd Hv. apply negb_true_iff.
  apply (string_keyed_one "game_id" g game_id d); [|done|congruence].
  by apply (forallb_In _ _ _ Hkeyed).
Qed.

Lemma find_reset g g' c :
  Mongo.find g' (Mongo.reset_game_data g c) =
    if String.eqb g g' then [] else Mongo.find g' c.
Proof.
  unfold Mongo.find, Mongo.reset_game_data.
  induction c as [|d c IH]; [by destruct (String.eqb g g')|].
  rewrite (filter_cons _ d c),
    (filter_cons (fun d => Mongo.of_game g' d = true) d c).
  unfold Mongo.of_game in *.
  destruct (String.eqb (Mongo.game_id d) g) eqn:E1.
  - rewrite decide_False by (intros H; by apply H).
    apply String.eqb_eq in E1. rewrite IH.
    destruct (String.eqb g g') eqn:E3; [done|].
    rewrite decide_False; [done|].
    rewrite String.eqb_eq. apply String.eqb_neq in E3. congruence.
  - rewrite decide_True by (intros H; congruence).
    rewrite filter_cons.
    destruct (String.eqb g g') eqn:E3.
    + apply String.eqb_eq in E3. subst g'. rewrite E1.
      by rewrite decide_False.
    + destruct (String.eqb (Mongo.game_id d) g') eqn:E2.
      * rewrite !decide_True by done. by f_equal.
      * by rewrite !decide_False.
Qed.

Definition no_data (game_id : string) : json :=
  JDict [("game_id", JStr game_id);
         ("exists", JBool false);
         ("chat_messages", JInt 0);
         ("story_events", JInt 0);
         ("has_session", JBool false)].

(** X18.  A reset forgets the game and nothing else.  When the sessions
    and story events carry their game ids as strings, then after
    [reset_game_data] the statistics of the game report that it does not
    exist, with no chat message, no story event and no session; its
    session reads as [None]; and its next chat message gets the sequence
    number 1 again.  For every other game the statistics, the session,
    the chat history read with any limit and the next sequence number are
    what they were, and the four template collections are not touched. *)
Theorem reset_game_data_forgets game_id db :
  well_keyed db = true ->
  let db' := (reset_game_data game_id db).1 in
  get_memory_stats game_id db' = no_data game_id /\
  get_game_session game_id db' = JNull /\
  Mongo.next_sequence game_id (chat_history db') = 1%Z /\
  (forall g, g <> game_id ->
     get_memory_stats g db' = get_memory_stats g db /\
     get_game_session g db' = get_game_session g db /\
     Mongo.next_sequence g (chat_history db')
       = Mongo.next_sequence g (chat_history db) /\
     forall limit,
       Mongo.get_chat_history g limit (chat_history db')
         = Mongo.get_chat_history g limit (chat_history db)) /\
  well_keyed db' = true /\
  scenarios db' = scenarios db /\
  character_templates db' = character_templates db /\
  locations db' = locations db /\
  event_templates db' = event_templates db.
Proof.
  intros Hk db'. subst db'. unfold well_keyed in *.
  apply andb_true_iff in Hk as [Hs He].
  unfold reset_game_data.
  pose proof (count_deleted "game_id" game_id (game_sessions db)) as Hcs.
  pose proof (count_deleted "game_id" game_id (story_events db)) as Hce.
  pose proof (find_one_deleted "game_id" game_id (game_sessions db)) as Hfs.
  unfold delete_many in *. simpl in Hcs, Hce, Hfs. simpl.
  split_and!; try done.
  - unfold get_memory_stats. simpl. rewrite Hcs, Hce, find_reset.
    by rewrite String.eqb_refl.
  - unfold get_game_session. simpl. by rewrite Hfs.
  - unfold Mongo.next_sequence, Mongo.find_one_max. rewrite find_reset.
    by rewrite String.eqb_refl.
  - intros g Hg.
    assert (Hfind : Mongo.find g (Mongo.reset_game_data game_id
                                    (chat_history db))
                    = Mongo.find g (chat_history db)).
    { rewrite find_reset.
      assert (String.eqb game_id g = false) as ->; [|done].
      apply String.eqb_neq. congruence. }
    split_and!.
    + unfold get_memory_stats, count_documents. simpl. rewrite Hfind.
      rewrite !filter_kept; [done| |]; by apply other_game_kept.
    + unfold get_game_session, find_one. simpl.
      rewrite find_kept; [done|]. by apply other_game_kept.
    + unfold Mongo.next_sequence, Mongo.find_one_max. by rewrite Hfind.
    + intros limit. unfold Mongo.get_chat_history. by rewrite Hfind.
  - apply andb_true_iff. split; by apply forallb_filter.
Qed.

(** Two games with a session each, and a story event of the first. *)
Definition two_games : database :=
  (add_story_event "g" "battle" "A troll blocks the bridge." "high"
     (Some "bridge") ["hero"] 5
     (save_game_session "h" "cyberpunk" "bar" (JDict []) 3 4
        (save_game_session "g" "medieval_fantasy" "inn" (JDict []) 1 2
           empty_database))).2.

Lemma reset_game_data_forgets_witness :
  well_keyed two_games = true /\
  get_memory_stats "g" (reset_game_data "g" two_games).1 = no_data "g" /\
  get_memory_stats "h" (reset_game_data "g" two_games).1
    = get_memory_stats "h" two_games.
Proof.
  split; [reflexivity|].
  destruct (reset_game_data_forgets "g" two_games eq_refl)
    as (Hg & _ & _ & Hother & _).
  split; [exact Hg|]. by apply Hother.
Defined.

(** ** The chat history *)

Lemma find_app_doc g c d :
  Mongo.find g (c ++ [d]) =
    if Mongo.of_game g d then Mongo.find g c ++ [d] else Mongo.find g c.
Proof.
  unfold Mongo.find. rewrite filter_app, filter_cons, filter_nil.
  destruct (Mongo.of_game g d).
  - by rewrite decide_True.
  - rewrite decide_False by done. by rewrite app_nil_r.
Qed.

(** In a list sorted by sequence number that holds [d], and holds
    beside [d] only messages with a smaller number, [d] is the last. *)
Lemma newest_is_last (d : Mongo.chat_doc) h :
  Sorted (fun a b => (Mongo.sequence_number a <= Mongo.sequence_number b)%Z)
    h ->
  In d h ->
  (forall x, In x h ->
     (Mongo.sequence_number x < Mongo.sequence_number d)%Z \/ x = d) ->
  last h = Some d.
Proof.
  intros Hs. apply Sorted_StronglySorted in Hs; [|intros x y z; lia].
  induction Hs as [|x h Hs IH Hall]; [done|]. intros Hin Hnew.
  destruct h as [|y h]; [by destruct Hin as [-> |[]]|].
  change (last (x :: y :: h)) with (last (y :: h)). apply IH.
  - destruct Hin as [-> |Hin]; [|done]. left.
    apply Forall_cons in Hall as [Hy _].
    destruct (Hnew y) as [Hlt|Hy']; [by right; left|lia|done].
  - intros z Hz. apply Hnew. by right.
Qed.

(** X19.  The message just added closes the history.  [add_chat_message]
    stores the message at its first attempt, with the first reading of
    the clock cut to the milliseconds that MongoDB keeps, and afterwards [get_chat_history] of the game, read with
    any limit, ends with this message; read with the limit 1 it is this
    message alone.  The histories of the other games are what they
    were. *)
Theorem added_message_is_last fuel g u a now c :
  0 < fuel ->
  exists d,
    Mongo.add_chat_message fuel g u a now c = Some (c ++ [d]) /\
    Mongo.game_id d = g /\
    Mongo.user_input d = u /\
    Mongo.ai_response d = a /\
    Mongo.timestamp d = Mongo.bson_datetime (now 0) /\
    (forall limit,
       last (Mongo.get_chat_history g limit (c ++ [d])) = Some d) /\
    Mongo.get_chat_history g 1 (c ++ [d]) = [d] /\
    (forall g' limit, g' <> g ->
       Mongo.get_chat_history g' limit (c ++ [d])
         = Mongo.get_chat_history g' limit c).
Proof.
  intros Hfuel. eexists.
  split; [by apply Mongo.add_chat_message_first_attempt|].
  set (d := {| Mongo.game_id := g;
               Mongo.sequence_number := Mongo.next_sequence g c;
               Mongo.user_input := u; Mongo.ai_response := a;
               Mongo.timestamp := Mongo.bson_datetime (now 0) |}).
  assert (Hfind : Mongo.find g (c ++ [d]) = Mongo.find g c ++ [d]).
  { rewrite find_app_doc. unfold Mongo.of_game. simpl.
    by rewrite String.eqb_refl. }
  assert (Hnew : forall x, In x (Mongo.find g (c ++ [d])) ->
            (Mongo.sequence_number x < Mongo.sequence_number d)%Z \/ x = d).
  { intros x. rewrite Hfind. intros [Hx|[<- |[]]]%in_app_or; [left|by right].
    by apply Mongo.next_sequence_above. }
  assert (Hhead : exists rest,
            PySort.sort Mongo.seq_desc (Mongo.find g (c ++ [d])) = d :: rest).
  { destruct (Mongo.find_one_max g (c ++ [d])) as [m|] eqn:E.
    - pose proof E as Hm. apply Mongo.find_one_max_Some in Hm as [Hin Hmax].
      unfold Mongo.find_one_max in E.
      destruct (PySort.sort _ _) as [|m' rest]; [done|].
      injection E as ->. exists rest. f_equal.
      destruct (Hnew m Hin) as [Hlt| ->]; [|done].
      assert (In d (Mongo.find g (c ++ [d]))) as Hd.
      { rewrite Hfind. apply in_or_app. right. by left. }
      specialize (Hmax d Hd). lia.
    - apply Mongo.find_one_max_None in E. rewrite Hfind in E.
      by destruct (Mongo.find g c). }
  destruct Hhead as [rest Hrest].
  assert (Hin : forall limit, In d (Mongo.get_chat_history g limit (c ++ [d]))).
  { intros limit.
    eapply Permutation_in;
      [apply Permutation_sym, Mongo.get_chat_history_perm|].
    rewrite Hrest. destruct limit; simpl; by left. }
  split_and!; try done.
  - intros limit. apply newest_is_last;
      [apply Mongo.get_chat_history_sorted|apply Hin|].
    intros x Hx. apply Hnew. by apply Mongo.get_chat_history_subset in Hx.
  - pose proof (Mongo.get_chat_history_length g 1 (c ++ [d])) as Hlen.
    specialize (Hin 1).
    destruct (Mongo.get_chat_history g 1 (c ++ [d])) as [|x [|y h]];
      [done| |simpl in Hlen; lia].
    by destruct Hin as [-> |[]].
  - intros g' limit Hg. unfold Mongo.get_chat_history.
    rewrite find_app_doc. unfold Mongo.of_game. simpl.
    assert (String.eqb g g' = false) as ->; [|done].
    apply String.eqb_neq. congruence.
Qed.

Lemma added_message_is_last_witness :
  exists d,
    Mongo.add_chat_message 1 "g" "open" "it creaks" (fun _ => 1000123%Z)
      Mongo.two_messages = Some (Mongo.two_messages ++ [d]) /\
    Mongo.timestamp d = 1000%Z /\
    Mongo.get_chat_history "g" 1 (Mongo.two_messages ++ [d]) = [d].
Proof.
  destruct (added_message_is_last 1 "g" "open" "it creaks"
              (fun _ => 1000123%Z) Mongo.two_messages (Nat.lt_0_1))
    as (d & Hadd & _ & _ & _ & Hts & _ & Hone & _).
  exists d. split; [exact Hadd|]. split; [exact Hts|exact Hone].
Defined.

(** ** What the statistics count *)

Lemma find_one_counted field value c d :
  find_one field value c = Some d ->
  (0 <? count_documents field value c)%nat = true.
Proof.
  unfold find_one, count_documents.
  induction c as [|x c IH]; [done|]. simpl.
  destruct (has_value field value x); [done|auto].
Qed.

Lemma saved_session_found game_id scenario_type current_location game_state
  updated_at created_at db :
  exists d,
    find_one "game_id" game_id
      (game_sessions (save_game_session game_id scenario_type
                        current_location game_state updated_at created_at db))
    = Some d.
Proof.
  unfold save_game_session, find_one.
  set (data := session_data game_id scenario_type current_location game_state
                 updated_at).
  set (f := fun d => Doc (oid d) (apply_set data (fields d))).
  destruct (update_first _ f (game_sessions db)) as [sessions|] eqn:Hup.
  - destruct (update_first_find _ _ _ _ Hup) as (d & _ & Hd); [|by eexists].
    intros d. unfold has_value.
    destruct (session_fields game_id scenario_type current_location
                game_state updated_at (fields d)) as (Hg & _).
    fold data in Hg. cbn [fields f]. rewrite Hg. apply String.eqb_refl.
  - apply update_first_None in Hup. cbv zeta. cbn [game_sessions].
    rewrite (find_app_r _ _ _ Hup). cbn [List.find].
    match goal with
    | |- exists d, (if ?b then _ else _) = _ =>
        assert (b = true) as ->; [|by eexists]
    end.
    vm_compute. apply String.eqb_refl.
Qed.

(** X20.  The statistics count what was written.  After [add_story_event]
    the statistics of the game report one story event more and that the
    game exists, with the chat messages and the session as before; the
    result of the call is [str] of the ObjectId of the event; and the
    statistics of every other game are what they were.  After
    [save_game_session] the statistics of the game report a session and
    that the game exists, with the chat messages and story events as
    before. *)
Theorem stats_count_what_is_written game_id db :
  let chat_messages :=
    Z.of_nat (length (Mongo.find game_id (chat_history db))) in
  let events := count_documents "game_id" game_id (story_events db) in
  let has_session :=
    (0 <? count_documents "game_id" game_id (game_sessions db))%nat in
  (forall event_type event_description importance location characters now,
     let result := add_story_event game_id event_type event_description
                     importance location characters now db in
     result.1 = pretty (object_ids db) /\
     get_memory_stats game_id result.2 =
       JDict [("game_id", JStr game_id);
              ("exists", JBool true);
              ("chat_messages", JInt chat_messages);
              ("story_events", JInt (Z.of_nat (S events)));
              ("has_session", JBool has_session)] /\
     forall g, g <> game_id ->
       get_memory_stats g result.2 = get_memory_stats g db) /\
  (forall scenario_type current_location game_state updated_at created_at,
     get_memory_stats game_id
       (save_game_session game_id scenario_type current_location game_state
          updated_at created_at db) =
       JDict [("game_id", JStr game_id);
              ("exists", JBool true);
              ("chat_messages", JInt chat_messages);
              ("story_events", JInt (Z.of_nat events));
              ("has_session", JBool true)]).
Proof.
  intros chat_messages events has_session. split.
  - intros event_type event_description importance location characters now
      result. subst result. unfold add_story_event. cbn [fst snd].
    set (event := Doc (object_ids db) _).
    assert (Hcount : forall g,
              count_documents "game_id" g (story_events db ++ [event]) =
                if String.eqb game_id g
                then S (count_documents "game_id" g (story_events db))
                else count_documents "game_id" g (story_events db)).
    { intros g. unfold count_documents. rewrite List.filter_app, length_app.
      assert (has_value "game_id" g event = String.eqb game_id g) as Hv
        by reflexivity.
      cbn [List.filter]. rewrite Hv.
      destruct (String.eqb game_id g); simpl; lia. }
    split_and!; [done| |].
    + unfold get_memory_stats.
      cbn [story_events chat_history game_sessions]. rewrite Hcount.
      rewrite String.eqb_refl. fold events chat_messages has_session.
      cbn [Nat.ltb Nat.leb]. by rewrite orb_true_r.
    + intros g Hg. unfold get_memory_stats.
      cbn [story_events chat_history game_sessions]. rewrite Hcount.
      assert (String.eqb game_id g = false) as ->; [|done].
      apply String.eqb_neq. congruence.
  - intros scenario_type current_location game_state updated_at created_at.
    destruct (saved_session_found game_id scenario_type current_location
                game_state updated_at created_at db) as (d & Hd).
    apply find_one_counted in Hd. unfold get_memory_stats. rewrite Hd.
    rewrite orb_true_r.
    assert (Hkeep :
      chat_history (save_game_session game_id scenario_type current_location
                      game_state updated_at created_at db) = chat_history db /\
      story_events (save_game_session game_id scenario_type current_location
                      game_state updated_at created_at db) = story_events db).
    { unfold save_game_session. by destruct (update_first _ _ _). }
    destruct Hkeep as [-> ->]. done.
Qed.

End MongoData.
